(** * jam-nodes: schema introspection, execution context and node executors

    A shallow embedding of the parts of the jam-nodes repository that its
    specification talks about, followed by the properties proved of them.

    Conventions of the embedding.
    - JavaScript values are the inductive [JS.value]; numbers are rationals
      ([Q]), which represent every finite IEEE double exactly as far as
      comparison and the sign of a difference are concerned (NaN and the
      infinities are outside the model, and arithmetic is exact where double
      arithmetic rounds).
    - Strings are [string]; the string helpers (case conversion, the
      regular expressions of the source) are written for ASCII text.
    - An object is the list of its own enumerable string-keyed properties in
      enumeration order, which is the order [Object.entries] yields. What
      objects and arrays inherit from [Object.prototype] and
      [Array.prototype] is modelled where the code reads a property under a
      name it is handed ([ExecutionContext.lookup]); [obj_get] and [obj_set]
      are the read and the assignment for the names that [Object.prototype]
      does not define ([JS.inheritedNames]), and the theorems about the
      other places where a name comes from outside say so.
    - Zod's internal description of a schema ([schema._def], discriminated by
      [typeName]) is the inductive [Zod.ZodDef].
    - Asynchronous code that may throw lives in the monad [Async.M]: a run
      consumes answers of the outside world ([Nodes.World]: the outcome of
      every [fetchWithRetry] call, the readings of the clock) and ends
      resolved, rejected or pending.
    - The payloads of the third-party APIs are records at the types the
      TypeScript sources declare for them; a member that a response lacks is
      [None], and reading through it is the TypeError JavaScript raises.
    - What the sources at hand import but do not contain (the prompt helpers
      and constants of the nodes package, [JSON.parse]) is a parameter
      ([Nodes.Externals]); each such function returns or throws. *)

From Stdlib Require Import List String Ascii ZArith QArith Lia Bool Arith.
From Stdlib Require Import Sorting.Sorted.
From Stdlib Require Import QArith.Qround Numbers.DecimalString Lqa.
From Stdlib Require Numbers.DecimalNat Numbers.DecimalFacts.
Import ListNotations.

#[local] Set Warnings "-register-all".
#[local] Open Scope string_scope.

(* ================================================================== *)
(** ** JavaScript values and string helpers *)
(* ================================================================== *)

Module JS.

Inductive value : Type :=
| VUndefined
| VNull
| VBool (b : bool)
| VNum (n : Q)
| VStr (s : string)
| VArr (items : list value)
| VObj (props : list (string * value)).

(** An object literal / [Record<string, unknown>]. *)
Definition obj : Type := list (string * value).

(** [o[k]] on own properties. *)
Fixpoint obj_get (o : obj) (k : string) : value :=
  match o with
  | [] => VUndefined
  | (k', v) :: rest => if String.eqb k' k then v else obj_get rest k
  end.

(** The own property [k] of [o], if it has one. *)
Fixpoint obj_find (o : obj) (k : string) : option value :=
  match o with
  | [] => None
  | (k', v) :: rest => if String.eqb k' k then Some v else obj_find rest k
  end.

(** [o[k] = v]: overwrite in place when the key exists, append otherwise.
    This is what the assignment does for every name but [__proto__], which
    the language hands to an inherited setter, and, as to the place of the
    new property, for every name that is not an array index. *)
Fixpoint obj_set (o : obj) (k : string) (v : value) : obj :=
  match o with
  | [] => [(k, v)]
  | (k', v') :: rest =>
      if String.eqb k' k then (k', v) :: rest else (k', v') :: obj_set rest k v
  end.

(** The names of the function members of [Object.prototype] (the language
    standard with its Annex B). *)
Definition objectMethods : list string :=
  ["constructor"; "hasOwnProperty"; "isPrototypeOf"; "propertyIsEnumerable";
   "toLocaleString"; "toString"; "valueOf";
   "__defineGetter__"; "__defineSetter__"; "__lookupGetter__";
   "__lookupSetter__"].

(** The names of the properties of [Object.prototype]: its function members
    and the accessor [__proto__]. A plain object without an own property of
    one of these names answers a read [o[k]] with the inherited member: a
    function, and under [__proto__] the prototype itself. *)
Definition inheritedNames : list string := "__proto__" :: objectMethods.

(** ToBoolean. *)
Definition truthy (v : value) : bool :=
  match v with
  | VUndefined | VNull => false
  | VBool b => b
  | VNum n => negb (Qeq_bool n 0)
  | VStr s => negb (String.eqb s "")
  | VArr _ | VObj _ => true
  end.

(** Truthiness of a [string | undefined | null] ([None] is undefined/null). *)
Definition truthyS (s : option string) : bool :=
  match s with
  | Some s => negb (String.eqb s "")
  | None => false
  end.

(** [a || b] on optional strings. *)
Definition orS (a : option string) (b : string) : string :=
  match a with
  | Some s => if String.eqb s "" then b else s
  | None => b
  end.

(** *** Strings *)

Definition is_upper (c : ascii) : bool :=
  (65 <=? nat_of_ascii c)%nat && (nat_of_ascii c <=? 90)%nat.

Definition is_lower (c : ascii) : bool :=
  (97 <=? nat_of_ascii c)%nat && (nat_of_ascii c <=? 122)%nat.

Definition lower_char (c : ascii) : ascii :=
  if is_upper c then ascii_of_nat (nat_of_ascii c + 32) else c.

Definition upper_char (c : ascii) : ascii :=
  if is_lower c then ascii_of_nat (nat_of_ascii c - 32) else c.

(** [\s] of a regular expression, on ASCII: space, \t \n \v \f \r. *)
Definition is_space (c : ascii) : bool :=
  let n := nat_of_ascii c in
  (n =? 32)%nat || ((9 <=? n)%nat && (n <=? 13)%nat).

Fixpoint toLowerCase (s : string) : string :=
  match s with
  | EmptyString => EmptyString
  | String c r => String (lower_char c) (toLowerCase r)
  end.

(** [s.includes(sub)]. *)
Fixpoint includes (s sub : string) : bool :=
  String.prefix sub s ||
  match s with
  | EmptyString => false
  | String _ r => includes r sub
  end.

(** [s.split(sep)] for a one-character separator; [cur] is the segment
    being read. *)
Fixpoint split_go (sep : ascii) (cur : string) (s : string) : list string :=
  match s with
  | EmptyString => [cur]
  | String c r =>
      if Ascii.eqb c sep then cur :: split_go sep EmptyString r
      else split_go sep (cur ++ String c EmptyString) r
  end.

Definition split (sep : ascii) (s : string) : list string :=
  split_go sep EmptyString s.

(** [s.replace(/([A-Z])/g, ' $1')]. *)
Fixpoint spaceBeforeCapitals (s : string) : string :=
  match s with
  | EmptyString => EmptyString
  | String c r =>
      if is_upper c then String " " (String c (spaceBeforeCapitals r))
      else String c (spaceBeforeCapitals r)
  end.

(** [s.replace(/^./, (c) => c.toUpperCase())]; [.] matches no line
    terminator. *)
Definition capitalizeFirst (s : string) : string :=
  match s with
  | EmptyString => EmptyString
  | String c r =>
      if (nat_of_ascii c =? 10)%nat || (nat_of_ascii c =? 13)%nat then s
      else String (upper_char c) r
  end.

Fixpoint trimStart (s : string) : string :=
  match s with
  | EmptyString => EmptyString
  | String c r => if is_space c then trimStart r else s
  end.

Fixpoint rev_string (s : string) (acc : string) : string :=
  match s with
  | EmptyString => acc
  | String c r => rev_string r (String c acc)
  end.

Definition trimEnd (s : string) : string :=
  rev_string (trimStart (rev_string s EmptyString)) EmptyString.

Definition trim (s : string) : string := trimEnd (trimStart s).

(** [s.replace(/\s+/g, '_')]; [in_run] says the previous character was
    white space (already replaced). *)
Fixpoint spacesToUnderscore (in_run : bool) (s : string) : string :=
  match s with
  | EmptyString => EmptyString
  | String c r =>
      if is_space c then
        if in_run then spacesToUnderscore true r
        else String "_" (spacesToUnderscore true r)
      else String c (spacesToUnderscore false r)
  end.

(** An array of strings. *)
Definition strs (l : list string) : value := VArr (map VStr l).

End JS.

Import JS.

(* ================================================================== *)
(** ** Zod schema descriptions *)
(* ================================================================== *)

Module Zod.

(** A schema object and its [_def]. [description] is the schema's
    [description] attribute; [ZodOther] stands for every [typeName] the
    traversals have no case for. The thunk [defaultValue] of a ZodDefault is
    represented by the value it returns to the traversal at hand: a
    description is the schema as one traversal finds it. A thunk that reads
    the clock or other state may return another value to the next
    traversal, which then works on a description that differs at that
    Default (see [Properties.sameCalls]). *)
Inductive ZodType : Type :=
| Schema (description : option string) (def : ZodDef)
with ZodDef : Type :=
| ZodString
| ZodNumber
| ZodBoolean
| ZodNull
| ZodUndefined
| ZodLiteral (value : JS.value)
| ZodEnum (values : list string)
| ZodNativeEnum (values : JS.obj)
| ZodArray (type : ZodType)
| ZodObject (shape : list (string * ZodType))
| ZodUnion (options : list ZodType)
| ZodDiscriminatedUnion (options : list (string * ZodType))
| ZodOptional (innerType : ZodType)
| ZodNullable (innerType : ZodType)
| ZodDefault (innerType : ZodType) (defaultValue : JS.value)
| ZodRecord (valueType : ZodType)
| ZodTuple (items : list ZodType)
| ZodPromise (type : ZodType)
| ZodEffects (schema : ZodType)
| ZodUnknown
| ZodAny
| ZodOther (typeName : string).

Definition _def (s : ZodType) : ZodDef :=
  match s with Schema _ d => d end.

Definition description (s : ZodType) : option string :=
  match s with Schema d _ => d end.

(** A schema without a description. *)
Definition z (d : ZodDef) : ZodType := Schema None d.

End Zod.

Import Zod.

(* ================================================================== *)
(** ** packages/playground/src/utils/mock-generator.ts *)
(* ================================================================== *)

Module MockGenerator.

Fixpoint generateFromDef (def : ZodDef) : value :=
  match def with
  | ZodString => VStr "mock_string"
  | ZodNumber => VNum 42
  | ZodBoolean => VBool true
  | ZodNull => VNull
  | ZodUndefined => VUndefined
  | ZodLiteral v => v
  | ZodEnum values =>
      match values with
      | v :: _ => VStr v
      | [] => VUndefined
      end
  | ZodNativeEnum enumObj =>
      match map snd enumObj with
      | v :: _ => v
      | [] => VUndefined
      end
  | ZodArray type =>
      VArr [generateFromDef (_def type); generateFromDef (_def type)]
  | ZodObject shape =>
      VObj (fold_left
              (fun result entry =>
                 obj_set result (fst entry) (generateFromDef (_def (snd entry))))
              shape [])
  | ZodUnion options =>
      match options with
      | firstOpt :: _ => generateFromDef (_def firstOpt)
      | [] => VNull
      end
  | ZodDiscriminatedUnion discOptions =>
      match discOptions with
      | (_, firstOption) :: _ => generateFromDef (_def firstOption)
      | [] => VNull
      end
  | ZodOptional innerType
  | ZodNullable innerType => generateFromDef (_def innerType)
  | ZodDefault _ defaultValue => defaultValue
  | ZodRecord valueType =>
      VObj [("key1", generateFromDef (_def valueType));
            ("key2", generateFromDef (_def valueType))]
  | ZodTuple items =>
      VArr (map (fun item => generateFromDef (_def item)) items)
  | ZodPromise promiseType => generateFromDef (_def promiseType)
  | ZodEffects effectsSchema => generateFromDef (_def effectsSchema)
  | ZodUnknown
  | ZodAny => VObj [("mock", VStr "data")]
  | ZodOther _ => VNull
  end.

Definition generateMockFromSchema (schema : ZodType) : value :=
  generateFromDef (_def schema).

(** The table [customMocks], rebuilt by every call of [generateMockOutput].
    [now k] is the result of the [k]-th evaluation of
    [new Date().toISOString()] during the call. *)
Definition customMocks (now : nat -> string) : obj :=
  [ ("conditional",
      VObj [("conditionMet", VBool true); ("selectedBranch", VStr "true")]);
    ("end",
      VObj [("terminated", VBool true);
            ("reason", VStr "Workflow completed successfully")]);
    ("delay", VObj [("delayed", VBool true); ("delayMs", VNum 1000)]);
    ("map",
      VObj [("result", VArr [VObj [("transformed", VStr "item1")];
                             VObj [("transformed", VStr "item2")]])]);
    ("filter",
      VObj [("result", VArr [VObj [("passes", VBool true)]]);
            ("originalCount", VNum 3);
            ("filteredCount", VNum 1)]);
    ("http_request",
      VObj [("status", VNum 200);
            ("data", VObj [("message", VStr "Mock response")]);
            ("headers", VObj [("content-type", VStr "application/json")])]);
    ("search_contacts",
      VObj [("contacts",
              VArr [VObj [("id", VStr "mock_contact_1");
                          ("name", VStr "John Doe");
                          ("firstName", VStr "John");
                          ("lastName", VStr "Doe");
                          ("email", VStr "john.doe@example.com");
                          ("title", VStr "CTO");
                          ("company", VStr "Example Corp");
                          ("linkedinUrl", VStr "https://linkedin.com/in/johndoe");
                          ("location", VStr "San Francisco, CA")];
                    VObj [("id", VStr "mock_contact_2");
                          ("name", VStr "Jane Smith");
                          ("firstName", VStr "Jane");
                          ("lastName", VStr "Smith");
                          ("email", VStr "jane.smith@example.com");
                          ("title", VStr "VP Engineering");
                          ("company", VStr "Tech Startup");
                          ("linkedinUrl", VStr "https://linkedin.com/in/janesmith");
                          ("location", VStr "New York, NY")]]);
            ("totalFound", VNum 2)]);
    ("reddit_monitor",
      VObj [("posts",
              VArr [VObj [("id", VStr "mock_post_1");
                          ("title", VStr "Mock Reddit Post");
                          ("author", VStr "mock_user");
                          ("subreddit", VStr "technology");
                          ("score", VNum 150);
                          ("url", VStr "https://reddit.com/r/technology/mock");
                          ("createdAt", VStr (now 0%nat))]])]);
    ("twitter_monitor",
      VObj [("posts",
              VArr [VObj [("id", VStr "mock_tweet_1");
                          ("text", VStr "Mock tweet content");
                          ("author", VStr "mockuser");
                          ("likes", VNum 50);
                          ("retweets", VNum 10);
                          ("createdAt", VStr (now 1%nat))]])]);
    ("social_keyword_generator",
      VObj [("keywords", VArr [VStr "ai"; VStr "machine learning";
                               VStr "automation"; VStr "workflow"]);
            ("hashtags", VArr [VStr "#AI"; VStr "#ML"; VStr "#Automation"])]);
    ("draft_emails",
      VObj [("drafts",
              VArr [VObj [("to", VStr "john.doe@example.com");
                          ("subject", VStr "Mock Email Subject");
                          ("body",
                            VStr "This is a mock email body for testing purposes.")]])])
  ].

(** [customMocks[nodeType]] is read among the entries of the table: for a
    node type that names a member of [Object.prototype]
    ([JS.inheritedNames]) the source finds that member instead and returns
    it. *)
Definition generateMockOutput
  (now : nat -> string) (nodeType : string) (outputSchema : ZodType) : value :=
  if truthy (obj_get (customMocks now) nodeType)
  then obj_get (customMocks now) nodeType
  else generateMockFromSchema outputSchema.

End MockGenerator.

(* ================================================================== *)
(** ** packages/playground-web/src/lib/utils.ts *)
(* ================================================================== *)

Module WebUtils.

Fixpoint generateFromDef (def : ZodDef) : value :=
  match def with
  | ZodString => VStr "mock_string"
  | ZodNumber => VNum 42
  | ZodBoolean => VBool true
  | ZodNull => VNull
  | ZodUndefined => VUndefined
  | ZodLiteral v => v
  | ZodEnum values =>
      match values with
      | v :: _ => VStr v
      | [] => VUndefined
      end
  | ZodArray type => VArr [generateFromDef (_def type)]
  | ZodObject shape =>
      VObj (fold_left
              (fun result entry =>
                 obj_set result (fst entry) (generateFromDef (_def (snd entry))))
              shape [])
  | ZodOptional innerType
  | ZodNullable innerType => generateFromDef (_def innerType)
  | ZodDefault _ defaultValue => defaultValue
  | _ => VNull
  end.

Definition generateMockFromSchema (schema : ZodType) : value :=
  generateFromDef (_def schema).

(** The module-level constant [MOCK_OUTPUTS]; [loadTime] is the value of
    [new Date().toISOString()] when the module was loaded. *)
Definition MOCK_OUTPUTS (loadTime : string) : obj :=
  [ ("conditional",
      VObj [("conditionMet", VBool true); ("selectedBranch", VStr "true")]);
    ("end",
      VObj [("terminated", VBool true); ("reason", VStr "Workflow completed")]);
    ("delay", VObj [("waited", VBool true); ("actualDurationMs", VNum 1000)]);
    ("map",
      VObj [("results", VArr [VStr "value1"; VStr "value2"; VStr "value3"]);
            ("count", VNum 3)]);
    ("filter",
      VObj [("results", VArr [VObj [("id", VNum 1); ("status", VStr "active")];
                              VObj [("id", VNum 2); ("status", VStr "active")]]);
            ("count", VNum 2);
            ("filteredOut", VNum 1)]);
    ("search_contacts",
      VObj [("contacts",
              VArr [VObj [("id", VStr "mock_1");
                          ("name", VStr "John Doe");
                          ("firstName", VStr "John");
                          ("lastName", VStr "Doe");
                          ("email", VStr "john.doe@example.com");
                          ("title", VStr "CTO");
                          ("company", VStr "Example Corp");
                          ("linkedinUrl", VStr "https://linkedin.com/in/johndoe");
                          ("location", VStr "San Francisco, CA")]]);
            ("totalFound", VNum 1)]);
    ("reddit_monitor",
      VObj [("posts",
              VArr [VObj [("id", VStr "mock_post");
                          ("title", VStr "Looking for SaaS recommendations");
                          ("author", VStr "tech_enthusiast");
                          ("subreddit", VStr "technology");
                          ("score", VNum 156);
                          ("url",
                            VStr "https://reddit.com/r/technology/comments/abc123");
                          ("createdAt", VStr loadTime)]])]);
    ("http_request",
      VObj [("statusCode", VNum 200);
            ("headers", VObj [("content-type", VStr "application/json")]);
            ("body",
              VObj [("success", VBool true);
                    ("data", VObj [("id", VNum 1);
                                   ("message", VStr "Mock response")])])]);
    ("social_ai_analyze",
      VObj [("analysis",
              VArr [VObj [("postId", VStr "post_1");
                          ("platform", VStr "twitter");
                          ("sentiment", VStr "positive");
                          ("sentimentScore", VNum 0.85);
                          ("relevanceScore", VNum 0.92);
                          ("urgencyScore", VNum 0.45);
                          ("topics", VArr [VStr "technology"; VStr "startup";
                                           VStr "SaaS"]);
                          ("intent", VStr "information_seeking");
                          ("summary",
                            VStr "User expressing interest in new technology solutions for their startup.")];
                    VObj [("postId", VStr "post_2");
                          ("platform", VStr "reddit");
                          ("sentiment", VStr "neutral");
                          ("sentimentScore", VNum 0.52);
                          ("relevanceScore", VNum 0.78);
                          ("urgencyScore", VNum 0.30);
                          ("topics", VArr [VStr "programming"; VStr "tools"]);
                          ("intent", VStr "recommendation_request");
                          ("summary",
                            VStr "User asking for tool recommendations in a technical subreddit.")]]);
            ("totalAnalyzed", VNum 2);
            ("averageSentiment", VNum 0.68);
            ("averageRelevance", VNum 0.85)]);
    ("ai_generate",
      VObj [("generatedContent",
              VStr "This is AI-generated content based on your prompt. It demonstrates the capability of the AI generation node to create contextual responses.");
            ("tokensUsed", VNum 150);
            ("model", VStr "gpt-4")]);
    ("ai_summarize",
      VObj [("summary",
              VStr "The provided content discusses key trends in technology and their impact on modern businesses.");
            ("keyPoints",
              VArr [VStr "Technology adoption is accelerating";
                    VStr "AI is transforming workflows";
                    VStr "Cloud infrastructure is essential"]);
            ("wordCount", VNum 45)])
  ].

(** [MOCK_OUTPUTS[nodeType]] is read among the entries of the table, as in
    [MockGenerator.generateMockOutput]. *)
Definition getMockOutput
  (loadTime : string) (nodeType : string) (outputSchema : ZodType) : value :=
  if truthy (obj_get (MOCK_OUTPUTS loadTime) nodeType)
  then obj_get (MOCK_OUTPUTS loadTime) nodeType
  else generateMockFromSchema outputSchema.

End WebUtils.

(* ================================================================== *)
(** ** generatePromptsFromSchema (CLI playground prompt helpers) *)
(* ================================================================== *)

Module Prompts.

Inductive PromptType : Type := input | number | confirm | list_ | editor.

Record Prompt : Type := mkPrompt {
  name : string;
  message : string;
  type : PromptType;
  default : value;
  choices : option (list (string * string));
  required : bool
}.

(** [fieldDef.typeName === 'ZodOptional' || fieldDef.typeName === 'ZodDefault'] *)
Definition isOptional (fieldDef : ZodDef) : bool :=
  match fieldDef with
  | ZodOptional _ | ZodDefault _ _ => true
  | _ => false
  end.

(** The block "Unwrap optional/default": the pair [(innerDef, defaultValue)]
    it leaves behind. *)
Definition unwrap (fieldDef : ZodDef) : ZodDef * value :=
  match fieldDef with
  | ZodOptional innerType => (_def innerType, VUndefined)
  | ZodDefault innerType defaultValue => (_def innerType, defaultValue)
  | _ => (fieldDef, VUndefined)
  end.

(** The block "Determine prompt type based on Zod type": the pair
    [(promptType, choices)]. *)
Definition promptTypeOf (innerDef : ZodDef)
  : PromptType * option (list (string * string)) :=
  match innerDef with
  | ZodNumber => (number, None)
  | ZodBoolean => (confirm, None)
  | ZodEnum values => (list_, Some (map (fun v => (v, v)) values))
  | ZodArray _ => (input, None)
  | ZodObject _ => (editor, None)
  | _ => (input, None)
  end.

Definition promptOfField (prefix key : string) (fieldSchema : ZodType) : Prompt :=
  let fieldDef := _def fieldSchema in
  let fullKey := if String.eqb prefix "" then key else prefix ++ "." ++ key in
  let '(innerDef, defaultValue) := unwrap fieldDef in
  let '(promptType, choices) := promptTypeOf innerDef in
  let description := orS (Zod.description fieldSchema) key in
  {| name := fullKey;
     message := description ++
                (if isOptional fieldDef then " (optional)" else " *");
     type := promptType;
     default := defaultValue;
     choices := choices;
     required := negb (isOptional fieldDef) |}.

Definition generatePromptsFromSchema (schema : ZodType) (prefix : string)
  : list Prompt :=
  match _def schema with
  | ZodObject shape =>
      fold_left
        (fun prompts entry =>
           prompts ++ [promptOfField prefix (fst entry) (snd entry)])%list
        shape []
  | _ => []
  end.

End Prompts.

(* ================================================================== *)
(** ** packages/playground-web/src/components/InputForm.tsx *)
(* ================================================================== *)

Module InputForm.

Inductive FieldType : Type := text | number | checkbox | select | textarea | array.

Record FieldConfig : Type := mkField {
  name : string;
  label : string;
  type : FieldType;
  required : bool;
  default : value;
  options : option (list string);
  description : option string
}.

(** [nowISO] is the value of [new Date().toISOString()] at the call. *)
Definition getExampleValue
  (nowISO : string) (fieldName : string) (fieldType : FieldType)
  (options : option (list string)) : value :=
  let name := toLowerCase fieldName in
  let has := includes name in
  let named := String.eqb name in
  match fieldType, options with
  | select, Some (o :: _) => VStr o
  | _, _ =>
  match fieldType with
  | checkbox => VBool true
  | number =>
      if has "limit" then VNum 10
      else if has "page" then VNum 1
      else if has "count" then VNum 5
      else if has "delay" || has "duration" || has "timeout" then VNum 1000
      else if has "ms" then VNum 500
      else if has "max" then VNum 100
      else if has "min" then VNum 1
      else VNum 10
  | array =>
      if named "items" then
        VArr [VObj [("name", VStr "John Doe"); ("email", VStr "john@example.com");
                    ("status", VStr "active")];
              VObj [("name", VStr "Jane Smith"); ("email", VStr "jane@example.com");
                    ("status", VStr "pending")]]
      else if has "title" || has "person"
        then strs ["Software Engineer"; "CTO"; "VP Engineering"]
      else if has "location" then strs ["San Francisco, CA"; "New York, NY"]
      else if has "email" then strs ["user@example.com"; "contact@company.com"]
      else if has "keyword" then strs ["technology"; "startup"; "SaaS"]
      else if has "seniority" || has "senior"
        then strs ["director"; "vp"; "c_suite"]
      else if has "department" then strs ["engineering"; "product"; "sales"]
      else if has "technolog" then strs ["React"; "Node.js"; "Python"]
      else if has "range" || has "employee"
        then strs ["11-50"; "51-200"; "201-500"]
      else if has "industry" then strs ["technology"; "software"; "saas"]
      else if has "subreddit"
        then strs ["technology"; "programming"; "startups"]
      else if has "tag" then strs ["tag1"; "tag2"]
      else strs ["example1"; "example2"]
  | textarea =>
      if named "condition" then
        VObj [("type", VStr "equals"); ("variableName", VStr "status");
              ("value", VStr "active")]
      else if named "headers" then
        VObj [("Content-Type", VStr "application/json");
              ("Authorization", VStr "Bearer your-token-here")]
      else if named "body" || named "requestbody" then
        VObj [("message", VStr "Hello");
              ("data", VObj [("id", VNum 1); ("name", VStr "test")])]
      else if has "filter" then
        VObj [("field", VStr "status"); ("operator", VStr "equals");
              ("value", VStr "active")]
      else if has "config" || has "options" then
        VObj [("enabled", VBool true); ("setting", VStr "default")]
      else if has "data" || has "payload" then
        VObj [("key", VStr "value"); ("count", VNum 10)]
      else if has "metadata" then
        VObj [("source", VStr "playground"); ("timestamp", VStr nowISO)]
      else VObj [("example", VStr "value")]
  | _ =>
      (* String fields *)
      if has "truenodeid" || has "true_node" then VStr "node_success_branch"
      else if has "falsenodeid" || has "false_node" then VStr "node_failure_branch"
      else if has "nextnodeid" || has "next_node" then VStr "node_next_step"
      else if has "nodeid" || has "node_id" then VStr "node_123"
      else if has "workflowid" || has "workflow_id" then VStr "workflow_abc"
      else if has "campaignid" || has "campaign_id" then VStr "campaign_xyz"
      else if has "contactid" || has "contact_id" then VStr "contact_456"
      else if has "userid" || has "user_id" then VStr "user_789"
      else if named "id" then VStr "item_123"
      else if has "variablename" || has "variable_name" || named "variable"
        then VStr "userStatus"
      else if named "domain" then VStr "stripe.com"
      else if named "email" || has "email" then VStr "john.doe@example.com"
      else if named "url" || has "url" || has "link" then VStr "https://example.com"
      else if named "name" then VStr "John Doe"
      else if named "firstname" || has "first_name" then VStr "John"
      else if named "lastname" || has "last_name" then VStr "Doe"
      else if named "company" || has "organization" then VStr "Acme Inc"
      else if named "title" || has "jobtitle" then VStr "Software Engineer"
      else if has "phone" then VStr "+1-555-123-4567"
      else if has "address" then VStr "123 Main St, San Francisco, CA"
      else if named "query" || named "search" || named "keywords" || has "keyword"
        then VStr "technology startup SaaS"
      else if named "value" then VStr "example_value"
      else if named "message" || named "content" || named "body" || named "text"
        then VStr "Hello, this is a test message for the playground."
      else if named "subject" || has "subject" then VStr "Test Subject Line"
      else if named "description" then VStr "A brief description of the item."
      else if named "prompt"
        then VStr "Generate a creative response about technology trends."
      else if named "reason" then VStr "Completed successfully"
      else if has "subreddit" then VStr "technology"
      else if has "username" || has "handle" then VStr "johndoe"
      else if has "hashtag" then VStr "#technology"
      else if has "api" && has "key" then VStr "sk_test_xxx"
      else if has "token" then VStr "token_xxx"
      else if has "secret" then VStr "secret_xxx"
      else if named "path" then VStr "email"
      else if has "filepath" || has "file_path" then VStr "/path/to/file.txt"
      else if has "path" then VStr "/api/v1/resource"
      else if has "endpoint" then VStr "https://api.example.com/v1"
      else if has "header" then VStr "Authorization"
      else if has "method" then VStr "GET"
      else if has "format" then VStr "json"
      else if has "type" then VStr "default"
      else if has "status" then VStr "active"
      else if has "state" then VStr "pending"
      else if has "mode" then VStr "production"
      else if has "action" then VStr "process"
      else if has "date" then VStr (hd "" (split "T" nowISO))
      else if has "time" then VStr "12:00:00"
      else
        let cleanName := toLowerCase (trim (spaceBeforeCapitals fieldName)) in
        VStr ("example_" ++ spacesToUnderscore false cleanName)
  end
  end.

(** The block "Unwrap optional/default": the triple
    [(isRequired, innerDef, defaultValue)] it leaves behind. *)
Definition unwrap (fieldDef : ZodDef) : bool * ZodDef * value :=
  match fieldDef with
  | ZodOptional innerType => (false, _def innerType, VUndefined)
  | ZodDefault innerType defaultValue => (false, _def innerType, defaultValue)
  | _ => (true, fieldDef, VUndefined)
  end.

(** The block "Determine field type": the pair [(fieldType, options)]. *)
Definition fieldTypeOf (innerDef : ZodDef) : FieldType * option (list string) :=
  match innerDef with
  | ZodNumber => (number, None)
  | ZodBoolean => (checkbox, None)
  | ZodEnum values => (select, Some values)
  | ZodArray _ => (array, None)
  | ZodObject _ | ZodRecord _ => (textarea, None)
  | _ => (text, None)
  end.

Definition is_undefined (v : value) : bool :=
  match v with VUndefined => true | _ => false end.

Definition fieldOf (nowISO : string) (key : string) (fieldSchema : ZodType)
  : FieldConfig :=
  let fieldDef := _def fieldSchema in
  let '(isRequired, innerDef, defaultValue) := unwrap fieldDef in
  let '(fieldType, options) := fieldTypeOf innerDef in
  let description := Zod.description fieldSchema in
  let defaultValue :=
    if is_undefined defaultValue
    then getExampleValue nowISO key fieldType options
    else defaultValue in
  {| name := key;
     label := capitalizeFirst (spaceBeforeCapitals key);
     type := fieldType;
     required := isRequired;
     default := defaultValue;
     options := options;
     description := description |}.

Definition extractFieldsFromSchema (nowISO : string) (schema : ZodType)
  : list FieldConfig :=
  match _def schema with
  | ZodObject shape =>
      fold_left
        (fun fields entry =>
           fields ++ [fieldOf nowISO (fst entry) (snd entry)])%list
        shape []
  | _ => []
  end.

End InputForm.

(* ================================================================== *)
(** ** Exceptions and property access *)
(* ================================================================== *)

Module Exn.

(** What a [throw] carries: an instance of [Error] (TypeError, SyntaxError,
    FetchRetryError, ...) with its [message], or any other thrown value. *)
Inductive exn : Type :=
| JsError (message : string)
| Thrown (v : value).

(** [error instanceof Error ? error.message : fallback] *)
Definition messageOr (fallback : string) (error : exn) : string :=
  match error with
  | JsError message => message
  | Thrown _ => fallback
  end.

Definition typeof (v : value) : string :=
  match v with
  | VUndefined => "undefined"
  | VNull | VArr _ | VObj _ => "object"
  | VBool _ => "boolean"
  | VNum _ => "number"
  | VStr _ => "string"
  end.

Definition is_digit (c : ascii) : bool :=
  (48 <=? nat_of_ascii c)%nat && (nat_of_ascii c <=? 57)%nat.

Fixpoint digits_value (acc : nat) (s : string) : option nat :=
  match s with
  | EmptyString => Some acc
  | String c r =>
      if is_digit c then digits_value (10 * acc + (nat_of_ascii c - 48)) r
      else None
  end.

(** The array index a property key denotes, if it is a canonical numeric
    string ("0", "7", "12", but not "01" or ""). *)
Definition array_index (key : string) : option nat :=
  match key with
  | EmptyString => None
  | String "0" EmptyString => Some 0%nat
  | String "0" _ => None
  | _ => digits_value 0 key
  end.

Fixpoint string_chars (s : string) : list value :=
  match s with
  | EmptyString => []
  | String c r => VStr (String c EmptyString) :: string_chars r
  end.

Definition element (l : list value) (key : string) : value :=
  if String.eqb key "length" then VNum (inject_Z (Z.of_nat (List.length l)))
  else match array_index key with
       | Some i => nth i l VUndefined
       | None => VUndefined
       end.

(** The own property [key] of an array, if it has one: its length, or
    the element at an index below the length. *)
Definition ownElement (l : list value) (key : string) : option value :=
  if String.eqb key "length" then Some (VNum (inject_Z (Z.of_nat (List.length l))))
  else match array_index key with
       | Some i => nth_error l i
       | None => None
       end.

(** [v[key]] among the own properties of [v]: reading a property of
    [undefined] or [null] throws a TypeError; every other value answers
    (with [undefined] when it has no such own property). What a value
    inherits is looked up in [ExecutionContext.lookup]. *)
Definition get_prop (v : value) (key : string) : exn + value :=
  match v with
  | VUndefined =>
      inl (JsError ("Cannot read properties of undefined (reading '" ++ key ++ "')"))
  | VNull =>
      inl (JsError ("Cannot read properties of null (reading '" ++ key ++ "')"))
  | VObj o => inr (obj_get o key)
  | VArr l => inr (element l key)
  | VStr s => inr (element (string_chars s) key)
  | VBool _ | VNum _ => inr VUndefined
  end.

End Exn.

Import Exn.

(* ================================================================== *)
(** ** resolveNestedPath
       (packages/playground-web/src/app/api/execute/route.ts and the CLI
       run command; the two copies are the same code) *)
(* ================================================================== *)

Module ExecutionContext.

(** The two objects of the language that a walk over data can come to:
    [Object.prototype] and [Array.prototype]. *)
Inductive prototype : Type :=
| ObjectPrototype
| ArrayPrototype.

(** What the loop holds in [current]: a value of the data or, once a read
    has gone up the prototype chain, one of the two prototype objects or a
    function member of one of them. *)
Inductive found : Type :=
| Data (v : value)
| Prototype (p : prototype)
| Method (p : prototype) (name : string).

(** ToBoolean: every object and every function is truthy. *)
Definition isTruthy (current : found) : bool :=
  match current with
  | Data v => truthy v
  | Prototype _ | Method _ _ => true
  end.

(** [typeof current] *)
Definition typeOf (current : found) : string :=
  match current with
  | Data v => typeof v
  | Prototype _ => "object"
  | Method _ _ => "function"
  end.

(** The prototype of an object of the data or of a prototype object:
    [Object.prototype] for a plain object and for [Array.prototype],
    [Array.prototype] for an array, [null] for [Object.prototype]. *)
Definition prototypeOf (current : found) : option found :=
  match current with
  | Data (VObj _) | Prototype ArrayPrototype => Some (Prototype ObjectPrototype)
  | Data (VArr _) => Some (Prototype ArrayPrototype)
  | Prototype ObjectPrototype => Some (Data VNull)
  | _ => None
  end.

Section Walk.

(** The names of the function members of [Array.prototype] in the engine
    that runs the code; the list has grown with the editions of the
    language. *)
Variable arrayMethods : list string.

(** The own property [key] of an object, if it has one: a property of a
    plain object, the length or an element of an array, the length ([0]) or
    a function member of [Array.prototype], a function member of
    [Object.prototype]. *)
Definition own (holder : found) (key : string) : option found :=
  match holder with
  | Data (VObj o) => option_map Data (obj_find o key)
  | Data (VArr l) => option_map Data (ownElement l key)
  | Prototype ObjectPrototype =>
      if existsb (String.eqb key) objectMethods
      then Some (Method ObjectPrototype key)
      else None
  | Prototype ArrayPrototype =>
      if String.eqb key "length" then Some (Data (VNum 0))
      else if existsb (String.eqb key) arrayMethods
           then Some (Method ArrayPrototype key)
           else None
  | _ => None
  end.

(** The property [key] as [Object.prototype] answers for it when the read
    started at [receiver]: one of its function members, or under
    [__proto__] the accessor that returns the prototype of the receiver. *)
Definition inObjectPrototype (receiver : found) (key : string) : option found :=
  match own (Prototype ObjectPrototype) key with
  | Some member => Some member
  | None => if String.eqb key "__proto__" then prototypeOf receiver else None
  end.

(** The same for [Array.prototype], whose prototype is [Object.prototype]. *)
Definition inArrayPrototype (receiver : found) (key : string) : option found :=
  match own (Prototype ArrayPrototype) key with
  | Some member => Some member
  | None => inObjectPrototype receiver key
  end.

(** The property [key] as [holder] and the objects up its prototype chain
    have it, for a read that started at [receiver]. *)
Definition lookupFrom (receiver holder : found) (key : string) : option found :=
  match own holder key with
  | Some v => Some v
  | None =>
      match holder with
      | Data (VArr _) => inArrayPrototype receiver key
      | Data (VObj _) | Prototype _ => inObjectPrototype receiver key
      | _ => None
      end
  end.

(** The property [key] of an object, own or inherited; [None] when neither
    the object nor an object up its prototype chain has it. *)
Definition lookup (current : found) (key : string) : option found :=
  lookupFrom current current key.

(** [current[part]]: a TypeError on [undefined] and [null]; the property
    found, or [undefined], on an object. (On a string, a number or a
    boolean only own properties are answered for, and on a function none:
    the loop reads from objects only.) *)
Definition read (current : found) (part : string) : exn + found :=
  match current with
  | Data (VObj _) | Data (VArr _) | Prototype _ =>
      inr (match lookup current part with
           | Some v => v
           | None => Data VUndefined
           end)
  | Data v =>
      match get_prop v part with
      | inl e => inl e
      | inr answered => inr (Data answered)
      end
  | Method _ _ => inr (Data VUndefined)
  end.

(** The body of the [for (const part of parts)] loop, from the value held
    in [current]. *)
Fixpoint walk (current : found) (parts : list string) : exn + found :=
  match parts with
  | [] => inr current
  | part :: rest =>
      if isTruthy current && String.eqb (typeOf current) "object" then
        match read current part with
        | inl e => inl e
        | inr next => walk next rest
        end
      else inr (Data VUndefined)
  end.

Definition resolveNestedPath (variables : obj) (path : string) : exn + found :=
  let parts := split "." path in
  walk (Data (VObj variables)) parts.

End Walk.

(** A value is indexable when it is an object or an array: an object or an
    array of the data, or one of the prototype objects. *)
Definition indexable (current : found) : bool :=
  match current with
  | Data (VObj _) | Data (VArr _) | Prototype _ => true
  | _ => false
  end.

End ExecutionContext.

(* ================================================================== *)
(** ** fetchWithRetry *)
(* ================================================================== *)

Module Http.

Record Policy : Type := mkPolicy {
  maxRetries : nat;
  backoffMs : Z;
  timeoutMs : Z
}.

(** What one physical attempt can end in. *)
Inductive Attempt : Type :=
| NetworkFailure (message : string)
| TimedOut
| Responded (status : Z) (body : string).

Record ResponseHandle : Type := mkHandle {
  ok : bool;
  status : Z;
  text : string
}.

(** The typed error of an exhausted call: the last observed status (if a
    response was seen) and message. *)
Record FetchRetryError : Type := mkFetchRetryError {
  lastStatus : option Z;
  lastMessage : string
}.

(** The outcome of one logical call, with the number of physical attempts
    made and the backoff delays slept, in order. *)
Record Run : Type := mkRun {
  result : FetchRetryError + ResponseHandle;
  attempts : nat;
  delays : list Z
}.

Definition isServerError (status : Z) : bool := (500 <=? status)%Z.

Definition isOk (status : Z) : bool := (200 <=? status)%Z && (status <? 300)%Z.

Definition failureOf (a : Attempt) : FetchRetryError :=
  match a with
  | NetworkFailure message => mkFetchRetryError None message
  | TimedOut => mkFetchRetryError None "Request timed out"
  | Responded status body => mkFetchRetryError (Some status) body
  end.

(** Modelled from the spec: [fetchWithRetry] lives in
    packages/nodes/src/utils/http.ts, which is not among the sources (only
    its re-export and its callers are). [endpoint k] is what the [k]-th
    physical attempt ends in; [retriesLeft] counts the retries still
    allowed after attempt [k]. A network failure, a timeout or a status of
    500 and above is retried after [backoffMs]; any other response is handed
    to the caller; exhausting the attempts fails with the typed error of the
    last attempt. *)
Fixpoint attemptFrom (endpoint : nat -> Attempt) (policy : Policy)
  (k : nat) (retriesLeft : nat) : Run :=
  let outcome := endpoint k in
  let retryable :=
    match outcome with
    | Responded status _ => isServerError status
    | NetworkFailure _ | TimedOut => true
    end in
  match outcome, retryable with
  | Responded status body, false =>
      mkRun (inr (mkHandle (isOk status) status body)) (S k) []
  | _, _ =>
      match retriesLeft with
      | O => mkRun (inl (failureOf outcome)) (S k) []
      | S retriesLeft' =>
          let r := attemptFrom endpoint policy (S k) retriesLeft' in
          mkRun (result r) (attempts r) (backoffMs policy :: delays r)
      end
  end.

Definition fetchWithRetry (endpoint : nat -> Attempt) (policy : Policy) : Run :=
  attemptFrom endpoint policy 0 (maxRetries policy).

End Http.

(* ================================================================== *)
(** ** Asynchronous code with exceptions: the executors' monad *)
(* ================================================================== *)

Module Async.

(** How an asynchronous computation ends: its promise resolves, rejects
    with what was thrown, or never settles (a loop that does not end). *)
Inductive Outcome (A : Type) : Type :=
| Resolved (a : A)
| Rejected (e : exn)
| Pending.

Arguments Resolved {A} a.
Arguments Rejected {A} e.
Arguments Pending {A}.

(** What a run has consumed so far: the number of [fetchWithRetry] calls
    made, the number of clock readings taken, the milliseconds slept. *)
Record St : Type := mkSt {
  fetches : nat;
  clockReads : nat;
  slept : Z
}.

Definition start : St := mkSt 0 0 0.

Definition M (A : Type) : Type := St -> Outcome A * St.

Definition ret {A} (a : A) : M A := fun st => (Resolved a, st).

Definition throw {A} (e : exn) : M A := fun st => (Rejected e, st).

Definition diverge {A} : M A := fun st => (Pending, st).

Definition bind {A B} (m : M A) (k : A -> M B) : M B :=
  fun st =>
    match m st with
    | (Resolved a, st') => k a st'
    | (Rejected e, st') => (Rejected e, st')
    | (Pending, st') => (Pending, st')
    end.

(** [try { m } catch (error) { handler error }] *)
Definition tryCatch {A} (m : M A) (handler : exn -> M A) : M A :=
  fun st =>
    match m st with
    | (Rejected e, st') => handler e st'
    | other => other
    end.

(** [await] of a promise that is already settled one way or the other. *)
Definition await {A} (settled : exn + A) : M A :=
  match settled with
  | inl e => throw e
  | inr a => ret a
  end.

(** A call of a function that returns or throws. *)
Definition call {A} (returned : exn + A) : M A := await returned.

(** Reading through a value that may be [undefined]: a TypeError when it is. *)
Definition defined {A} (what : string) (o : option A) : M A :=
  match o with
  | Some a => ret a
  | None =>
      throw (JsError ("Cannot read properties of undefined (reading '" ++ what ++ "')"))
  end.

Definition sleep (ms : Z) : M unit :=
  fun st => (Resolved tt, mkSt (fetches st) (clockReads st) (slept st + ms)).

(** [for (const x of l) { acc = body x acc }] *)
Fixpoint forOf {A S} (l : list A) (body : A -> S -> M S) (acc : S) : M S :=
  match l with
  | [] => ret acc
  | x :: rest => bind (body x acc) (forOf rest body)
  end.

End Async.

Import Async.

Notation "x <- c1 ;; c2" := (Async.bind c1 (fun x => c2))
  (at level 61, c1 at next level, right associativity).

(* ================================================================== *)
(** ** Node executors (packages/nodes/src) *)
(* ================================================================== *)

Module Nodes.

(** *** The execution contract *)

Inductive NodeExecutionResult (O : Type) : Type :=
| Success (output : O)
| Failure (error : string).

Arguments Success {O} output.
Arguments Failure {O} error.

Record ServiceCredentials : Type := mkCred { apiKey : option string }.

Record Credentials : Type := mkCredentials {
  anthropic : option ServiceCredentials;
  apollo : option ServiceCredentials
}.

Record NodeExecutionContext : Type := mkContext {
  credentials : option Credentials;
  variables : obj
}.

(** [context.credentials?.anthropic?.apiKey] *)
Definition anthropicKey (context : NodeExecutionContext) : option string :=
  match credentials context with
  | Some c => match anthropic c with Some s => apiKey s | None => None end
  | None => None
  end.

(** [context.credentials?.apollo?.apiKey] *)
Definition apolloKey (context : NodeExecutionContext) : option string :=
  match credentials context with
  | Some c => match apollo c with Some s => apiKey s | None => None end
  | None => None
  end.

(** *** Response handles and payloads *)

(** The handle [fetchWithRetry] resolves to, at the payload type the call
    site declares for [response.json()]. *)
Record Response (T : Type) : Type := mkResponse {
  ok : bool;
  status : Z;
  text : exn + string;
  json : exn + T
}.

Arguments mkResponse {T}.
Arguments ok {T}.
Arguments status {T}.
Arguments text {T}.
Arguments json {T}.

Record TextBlock : Type := mkTextBlock { block_text : option string }.

Record AnthropicMessagesResponse : Type := mkMessages {
  content : option (list TextBlock)
}.

Record ApolloOrganization : Type := mkOrg { org_name : option string }.

Record ApolloPerson : Type := mkPerson {
  id : option string;
  first_name : option string;
  last_name : option string;
  last_name_obfuscated : option string;
  name : option string;
  email : option string;
  has_email : option bool;
  title : option string;
  linkedin_url : option string;
  organization_name : option string;
  organization : option ApolloOrganization;
  city : option string;
  state : option string;
  country : option string
}.

Record ApolloSearchResponse : Type := mkSearchResponse {
  people : option (list ApolloPerson)
}.

Record ApolloEnrichResponse : Type := mkEnrichResponse {
  person : option ApolloPerson
}.

(** *** Inputs and outputs of the nodes *)

Record SocialKeywordGeneratorInput : Type := mkKeywordInput {
  kw_topic : string;
  userKeywords : option (list string)
}.

Record TwitterKeywords : Type := mkTwitterKeywords {
  tw_keywords : option (list string);
  searchQuery : option string
}.

Record RedditKeywords : Type := mkRedditKeywords {
  rd_keywords : option (list string)
}.

Record LinkedInKeywords : Type := mkLinkedInKeywords {
  li_keywords : option (list string);
  searchQueries : option (list string)
}.

(** The declared type of [parsed]; a member that the response lacks is
    [None]. *)
Record ParsedKeywords : Type := mkParsedKeywords {
  twitter : option TwitterKeywords;
  reddit : option RedditKeywords;
  linkedin : option LinkedInKeywords
}.

Record SocialKeywordGeneratorOutput : Type := mkKeywordOutput {
  out_topic : string;
  out_twitter : list string * option string;
  out_reddit : list string;
  out_linkedin : list string * option (list string);
  allKeywords : list string
}.

Record Contact : Type := mkContact {
  contact_id : string;
  contact_name : string;
  contact_email : option string;
  contact_title : option string;
  contact_company : option string
}.

Record DraftEmailsInput : Type := mkDraftInput {
  contacts : list Contact;
  productDescription : string;
  emailTemplate : option string
}.

Record DraftEmailInfo : Type := mkDraft {
  draft_id : string;
  toEmail : string;
  toName : string;
  toCompany : string;
  toTitle : string;
  subject : string;
  body : string;
  draft_status : string
}.

Record DraftEmailsOutput : Type := mkDraftOutput {
  emails : list DraftEmailInfo;
  draftedCount : nat
}.

(** A social post: its [id] and its other properties. *)
Record SocialPost : Type := mkPost {
  post_id : string;
  post_fields : obj
}.

Record SocialAiAnalyzeInput : Type := mkAnalyzeInput {
  twitterPosts : option (list SocialPost);
  redditPosts : option (list SocialPost);
  linkedinPosts : option (list SocialPost);
  posts : option (list SocialPost);
  an_topic : string;
  userIntent : string
}.

(** The declared element type of the parsed analysis array; a member that
    the response lacks is [None]. *)
Record Analysis : Type := mkAnalysis {
  an_id : option string;
  an_relevanceScore : option Q;
  an_sentiment : option string;
  an_isComplaint : option bool;
  an_urgencyLevel : option string;
  an_aiSummary : option string;
  an_matchedKeywords : option (list string)
}.

(** [{ ...originalPost, relevanceScore, sentiment, ... }] *)
Record AnalyzedPost : Type := mkAnalyzed {
  originalPost : SocialPost;
  relevanceScore : Q;
  sentiment : string;
  isComplaint : bool;
  urgencyLevel : string;
  aiSummary : string;
  matchedKeywords : list string
}.

Record SocialAiAnalyzeOutput : Type := mkAnalyzeOutput {
  analyzedPosts : list AnalyzedPost;
  highPriorityPosts : list AnalyzedPost;
  complaints : list AnalyzedPost;
  totalAnalyzed : nat;
  highPriorityCount : nat;
  complaintCount : nat;
  averageRelevance : Z
}.

Record SearchContactsInput : Type := mkSearchInput {
  personTitles : option (list string);
  personLocations : option (list string);
  organizationLocations : option (list string);
  employeeRanges : option (list string);
  keywords : option string;
  limit : Q;
  includeSimilarTitles : option bool;
  personSeniorities : option (list string);
  technologies : option (list string);
  industryTagIds : option (list string);
  departments : option (list string)
}.

Record FoundContact : Type := mkFound {
  found_id : option string;
  found_name : string;
  firstName : option string;
  lastName : option string;
  found_email : string;
  found_title : option string;
  company : string;
  linkedinUrl : option string;
  location : option string
}.

Record SearchContactsOutput : Type := mkSearchOutput {
  found_contacts : list FoundContact;
  totalFound : nat
}.

(** *** What the executors take from outside the sources at hand *)

(** The prompt helpers and constants of packages/nodes/src/prompts (not
    among the sources), and [JSON.parse] at the two types the executors
    declare for its result. Each helper returns or throws. In a parsed
    analysis array, [None] is an element that is [null]. *)
Record Externals : Type := mkExternals {
  buildKeywordPrompt : string -> option (list string) -> exn + string;
  buildEmailPrompt : Contact -> string -> value -> option string -> exn + string;
  buildSubjectPrompt : Contact -> string -> exn + string;
  cleanEmailBody : string -> exn + string;
  cleanSubjectLine : string -> exn + string;
  buildAnalysisPrompt : string -> string -> list SocialPost -> exn + string;
  normalizeSentiment : option string -> exn + string;
  normalizeUrgency : option string -> exn + string;
  MIN_RELEVANCE_SCORE : Q;
  ANALYSIS_BATCH_SIZE : nat;
  JSON_parse_keywords : string -> exn + ParsedKeywords;
  JSON_parse_analysis : string -> exn + list (option Analysis)
}.

(** The world the executors talk to. Each [fetchWithRetry] call is
    answered by the endpoint it addresses, given the number of calls made
    before it in the run and what the request carries: either the call
    throws, or it resolves to a response handle. [clock k] is the [k]-th
    reading of [Date.now()]. *)
Record World : Type := mkWorld {
  anthropicMessages :
    nat -> string -> string -> exn + Response AnthropicMessagesResponse;
  apolloSearch : nat -> string -> obj -> exn + Response ApolloSearchResponse;
  apolloEnrich : nat -> string -> string -> exn + Response ApolloEnrichResponse;
  clock : nat -> Z
}.

(** *** Helpers on strings and lists *)

(** [`${n}`] for an integral number. *)
Definition string_of_Z (n : Z) : string :=
  NilZero.string_of_int (Z.to_int n).

(** The longest prefix of [s] that ends with [c], if [c] occurs in [s]. *)
Fixpoint uptoLast (c : ascii) (s : string) : option string :=
  match s with
  | EmptyString => None
  | String a r =>
      match uptoLast c r with
      | Some t => Some (String a t)
      | None => if Ascii.eqb a c then Some (String a EmptyString) else None
      end
  end.

(** [s.match(/\{[\s\S]*\}/)] and [s.match(/\[[\s\S]*\]/)], as [jsonMatch[0]]:
    from the first [opening] to the last [closing] after it. *)
Fixpoint matchBetween (opening closing : ascii) (s : string) : option string :=
  match s with
  | EmptyString => None
  | String a r =>
      if Ascii.eqb a opening then
        match uptoLast closing r with
        | Some t => Some (String a t)
        | None => None
        end
      else matchBetween opening closing r
  end.

(** [[...new Set(l)]]: the first occurrence of each element, in order. *)
Fixpoint dedupeFrom (seen : list string) (l : list string) : list string :=
  match l with
  | [] => []
  | x :: rest =>
      if existsb (String.eqb x) seen then dedupeFrom seen rest
      else x :: dedupeFrom (x :: seen) rest
  end.

Definition dedupe (l : list string) : list string := dedupeFrom [] l.

(** [o || []] *)
Definition orNil {A} (o : option (list A)) : list A :=
  match o with Some l => l | None => [] end.

(** [l.slice(i, j)] *)
Definition slice {A} (i j : nat) (l : list A) : list A :=
  firstn (j - i) (skipn i l).

(** [l.sort(compare)]: the sort is stable, and [a] is placed after [b]
    exactly when [compare a b > 0]. *)
Fixpoint sortInsert {A} (compare : A -> A -> Q) (x : A) (sorted : list A)
  : list A :=
  match sorted with
  | [] => [x]
  | y :: rest =>
      if Qle_bool (compare x y) 0 then x :: y :: rest
      else y :: sortInsert compare x rest
  end.

Definition sort {A} (compare : A -> A -> Q) (l : list A) : list A :=
  fold_right (sortInsert compare) [] l.

(** [Math.round] *)
Definition round (x : Q) : Z := Qfloor (x + (1 # 2)).

(** [Math.min] *)
Definition min (a b : Q) : Q := if Qle_bool a b then a else b.

(** The string a condition tests, when it is truthy. *)
Definition nonEmpty (s : option string) : option string :=
  match s with
  | Some s => if String.eqb s "" then None else Some s
  | None => None
  end.

Section Executors.

Variable X : Externals.
Variable W : World.

(** A call of [fetchWithRetry] as its caller sees it: the world's answer
    to the call, which is then counted. *)
Definition fetchWithRetry {T} (endpoint : nat -> exn + Response T)
  : M (Response T) :=
  fun st =>
    (match endpoint (fetches st) with
     | inl e => Rejected e
     | inr response => Resolved response
     end,
     mkSt (S (fetches st)) (clockReads st) (slept st)).

(** [Date.now()] *)
Definition DateNow : M Z :=
  fun st =>
    (Resolved (clock W (clockReads st)),
     mkSt (fetches st) (S (clockReads st)) (slept st)).

(** [generateText] (the same function in keyword-generator.ts,
    draft-emails.ts and analyze-posts.ts, up to its default [maxTokens]). *)
Definition generateText (apiKey prompt : string) : M string :=
  response <- fetchWithRetry (fun k => anthropicMessages W k apiKey prompt) ;;
  if negb (ok response) then
    errorText <- await (text response) ;;
    throw (JsError ("Anthropic API error: " ++ string_of_Z (status response)
                    ++ " - " ++ errorText))
  else
    data <- await (json response) ;;
    blocks <- defined "0" (content data) ;;
    ret (match blocks with
         | first :: _ => orS (block_text first) ""
         | [] => ""
         end).

(** **** ai/keyword-generator.ts *)

Definition socialKeywordGeneratorNode_try
  (input : SocialKeywordGeneratorInput) (context : NodeExecutionContext)
  : M (NodeExecutionResult SocialKeywordGeneratorOutput) :=
  match nonEmpty (anthropicKey context) with
  | None =>
      ret (Failure
        "Anthropic API key not configured. Please provide context.credentials.anthropic.apiKey.")
  | Some apiKey =>
      prompt <- call (buildKeywordPrompt X (kw_topic input) (userKeywords input)) ;;
      responseText <- generateText apiKey prompt ;;
      match matchBetween "{" "}" responseText with
      | None => ret (Failure "Could not parse keyword response")
      | Some jsonText =>
          match JSON_parse_keywords X jsonText with
          | inl _ => ret (Failure "Failed to parse keyword JSON response")
          | inr parsed =>
              parsedTwitter <- defined "keywords" (twitter parsed) ;;
              twitterKeywords <- defined "Symbol(Symbol.iterator)" (tw_keywords parsedTwitter) ;;
              let mergedTwitterKeywords :=
                dedupe (twitterKeywords ++ orNil (userKeywords input))%list in
              parsedReddit <- defined "keywords" (reddit parsed) ;;
              redditKeywords <- defined "Symbol(Symbol.iterator)" (rd_keywords parsedReddit) ;;
              let mergedRedditKeywords :=
                dedupe (redditKeywords ++ orNil (userKeywords input))%list in
              parsedLinkedIn <- defined "keywords" (linkedin parsed) ;;
              linkedinKeywords <- defined "Symbol(Symbol.iterator)" (li_keywords parsedLinkedIn) ;;
              let mergedLinkedInKeywords :=
                dedupe (linkedinKeywords ++ orNil (userKeywords input))%list in
              let allKeywords :=
                dedupe (mergedTwitterKeywords ++ mergedRedditKeywords
                        ++ mergedLinkedInKeywords)%list in
              ret (Success
                {| out_topic := kw_topic input;
                   out_twitter := (mergedTwitterKeywords, searchQuery parsedTwitter);
                   out_reddit := mergedRedditKeywords;
                   out_linkedin := (mergedLinkedInKeywords, searchQueries parsedLinkedIn);
                   allKeywords := allKeywords |})
          end
      end
  end.

Definition socialKeywordGeneratorNode_executor
  (input : SocialKeywordGeneratorInput) (context : NodeExecutionContext)
  : M (NodeExecutionResult SocialKeywordGeneratorOutput) :=
  tryCatch (socialKeywordGeneratorNode_try input context)
    (fun error => ret (Failure (messageOr "Failed to generate keywords" error))).

(** **** ai/draft-emails.ts *)

(** The [try] block of one round of [for (const contact of input.contacts)];
    [emails] is the array as the round finds it, the result is the array as
    the block leaves it. *)
Definition draftContact_try
  (apiKey : string) (senderName : value) (input : DraftEmailsInput)
  (contact : Contact) (contactEmail : string) (emails : list DraftEmailInfo)
  : M (list DraftEmailInfo) :=
  emailPrompt <-
    call (buildEmailPrompt X contact (productDescription input) senderName
            (emailTemplate input)) ;;
  rawBody <- generateText apiKey emailPrompt ;;
  emailBody <- call (cleanEmailBody X rawBody) ;;
  subjectPrompt <- call (buildSubjectPrompt X contact emailBody) ;;
  rawSubject <- generateText apiKey subjectPrompt ;;
  emailSubject <- call (cleanSubjectLine X rawSubject) ;;
  now <- DateNow ;;
  let emails :=
    (emails ++
     [ {| draft_id := "draft-" ++ contact_id contact ++ "-" ++ string_of_Z now;
          toEmail := contactEmail;
          toName := contact_name contact;
          toCompany := orS (contact_company contact) "";
          toTitle := orS (contact_title contact) "";
          subject := emailSubject;
          body := emailBody;
          draft_status := "draft" |} ])%list in
  _ <- sleep 200 ;;
  ret emails.

(** One round of [for (const contact of input.contacts)]. *)
Definition draftContact
  (apiKey : string) (senderName : value) (input : DraftEmailsInput)
  (contact : Contact) (emails : list DraftEmailInfo) : M (list DraftEmailInfo) :=
  match nonEmpty (contact_email contact) with
  | None => ret emails
  | Some contactEmail =>
      tryCatch
        (draftContact_try apiKey senderName input contact contactEmail emails)
        (fun _ => ret emails)
  end.

Definition draftEmailsNode_try
  (input : DraftEmailsInput) (context : NodeExecutionContext)
  : M (NodeExecutionResult DraftEmailsOutput) :=
  match nonEmpty (anthropicKey context) with
  | None =>
      ret (Failure
        "Anthropic API key not configured. Please provide context.credentials.anthropic.apiKey.")
  | Some apiKey =>
      let senderName := obj_get (variables context) "senderName" in
      if negb (truthy senderName) then
        ret (Failure
          "Please set senderName in context.variables before creating email campaigns.")
      else
        emails <- forOf (contacts input) (draftContact apiKey senderName input) [] ;;
        let output := {| emails := emails; draftedCount := List.length emails |} in
        ret (Success output)
  end.

Definition draftEmailsNode_executor
  (input : DraftEmailsInput) (context : NodeExecutionContext)
  : M (NodeExecutionResult DraftEmailsOutput) :=
  tryCatch (draftEmailsNode_try input context)
    (fun error => ret (Failure (messageOr "Failed to draft emails" error))).

(** **** ai/analyze-posts.ts *)

(** One round of [for (const analysis of analyzed)]: the array as the round
    leaves it, or what the round throws. *)
Definition mergeAnalysis
  (batch : list SocialPost) (analysis : Analysis)
  (allAnalyzedPosts : list AnalyzedPost) : exn + list AnalyzedPost :=
  let originalPost :=
    find (fun p =>
            match an_id analysis with
            | Some i => String.eqb (post_id p) i
            | None => false
            end) batch in
  match originalPost, an_relevanceScore analysis with
  | Some originalPost, Some score =>
      if Qle_bool (MIN_RELEVANCE_SCORE X) score then
        match normalizeSentiment X (an_sentiment analysis) with
        | inl e => inl e
        | inr sentiment =>
            match normalizeUrgency X (an_urgencyLevel analysis) with
            | inl e => inl e
            | inr urgencyLevel =>
                inr (allAnalyzedPosts ++
                     [ {| originalPost := originalPost;
                          relevanceScore := score;
                          sentiment := sentiment;
                          isComplaint := match an_isComplaint analysis with
                                         | Some b => b
                                         | None => false
                                         end;
                          urgencyLevel := urgencyLevel;
                          aiSummary := orS (an_aiSummary analysis) "";
                          matchedKeywords :=
                            orNil (an_matchedKeywords analysis) |} ])%list
            end
        end
      else inr allAnalyzedPosts
  | _, _ => inr allAnalyzedPosts
  end.

(** The loop [for (const analysis of analyzed)] inside its [try]: when a
    round throws (reading a member of an element that is [null] does), the
    [catch] abandons the rest of the batch, and what was pushed before stays
    pushed. *)
Fixpoint mergeBatch
  (batch : list SocialPost) (analyzed : list (option Analysis))
  (allAnalyzedPosts : list AnalyzedPost) : list AnalyzedPost :=
  match analyzed with
  | [] => allAnalyzedPosts
  | None :: _ => allAnalyzedPosts
  | Some analysis :: rest =>
      match mergeAnalysis batch analysis allAnalyzedPosts with
      | inl _ => allAnalyzedPosts
      | inr pushed => mergeBatch batch rest pushed
      end
  end.

(** The loop [for (let i = 0; i < allPosts.length; i += ANALYSIS_BATCH_SIZE)]
    from index [i]. [rounds] bounds the number of rounds the model follows;
    the loop is [Pending] beyond it. *)
Fixpoint analyzeBatches
  (apiKey : string) (input : SocialAiAnalyzeInput) (allPosts : list SocialPost)
  (rounds : nat) (i : nat) (allAnalyzedPosts : list AnalyzedPost)
  : M (list AnalyzedPost) :=
  if (i <? List.length allPosts)%nat then
    match rounds with
    | O => diverge
    | S rounds' =>
        let batch := slice i (i + ANALYSIS_BATCH_SIZE X) allPosts in
        prompt <-
          call (buildAnalysisPrompt X (an_topic input) (userIntent input) batch) ;;
        responseText <- generateText apiKey prompt ;;
        let next := analyzeBatches apiKey input allPosts rounds'
                      (i + ANALYSIS_BATCH_SIZE X) in
        match matchBetween "[" "]" responseText with
        | None => next allAnalyzedPosts
        | Some jsonText =>
            match JSON_parse_analysis X jsonText with
            | inl _ => next allAnalyzedPosts
            | inr analyzed => next (mergeBatch batch analyzed allAnalyzedPosts)
            end
        end
    end
  else ret allAnalyzedPosts.

Definition isHighPriority (p : AnalyzedPost) : bool :=
  String.eqb (urgencyLevel p) "high" || Qle_bool 80 (relevanceScore p).

Definition socialAiAnalyzeNode_try
  (input : SocialAiAnalyzeInput) (context : NodeExecutionContext)
  : M (NodeExecutionResult SocialAiAnalyzeOutput) :=
  match nonEmpty (anthropicKey context) with
  | None =>
      ret (Failure
        "Anthropic API key not configured. Please provide context.credentials.anthropic.apiKey.")
  | Some apiKey =>
      let allPosts :=
        (orNil (twitterPosts input) ++ orNil (redditPosts input)
         ++ orNil (linkedinPosts input) ++ orNil (posts input))%list in
      if (List.length allPosts =? 0)%nat then
        ret (Success
          {| analyzedPosts := [];
             highPriorityPosts := [];
             complaints := [];
             totalAnalyzed := 0;
             highPriorityCount := 0;
             complaintCount := 0;
             averageRelevance := 0 |})
      else
        allAnalyzedPosts <-
          analyzeBatches apiKey input allPosts (List.length allPosts) 0 [] ;;
        let allAnalyzedPosts :=
          sort (fun a b => relevanceScore b - relevanceScore a) allAnalyzedPosts in
        let highPriorityPosts := filter isHighPriority allAnalyzedPosts in
        let complaints := filter isComplaint allAnalyzedPosts in
        let averageRelevance :=
          if (0 <? List.length allAnalyzedPosts)%nat then
            round (fold_left (fun sum p => sum + relevanceScore p) allAnalyzedPosts 0
                   / inject_Z (Z.of_nat (List.length allAnalyzedPosts)))
          else 0%Z in
        ret (Success
          {| analyzedPosts := allAnalyzedPosts;
             highPriorityPosts := highPriorityPosts;
             complaints := complaints;
             totalAnalyzed := List.length allAnalyzedPosts;
             highPriorityCount := List.length highPriorityPosts;
             complaintCount := List.length complaints;
             averageRelevance := averageRelevance |})
  end.

Definition socialAiAnalyzeNode_executor
  (input : SocialAiAnalyzeInput) (context : NodeExecutionContext)
  : M (NodeExecutionResult SocialAiAnalyzeOutput) :=
  tryCatch (socialAiAnalyzeNode_try input context)
    (fun error => ret (Failure (messageOr "Failed to analyze posts" error))).

(** **** integrations/apollo/search-contacts.ts *)

(** [...(list && list.length > 0 && { key: list })] *)
Definition spreadList (key : string) (l : option (list string)) : obj :=
  match l with
  | Some (x :: rest) => [(key, strs (x :: rest))]
  | _ => []
  end.

Definition searchRequestBody (params : SearchContactsInput) : obj :=
  let defaultLocation :=
    match personLocations params with
    | Some (x :: rest) => x :: rest
    | _ => ["United States"]
    end in
  (spreadList "person_titles" (personTitles params)
   ++ [ ("person_locations", strs defaultLocation);
        ("include_similar_titles",
          VBool (match includeSimilarTitles params with
                 | Some b => b
                 | None => true
                 end));
        ("page", VNum 1);
        ("per_page",
          VNum (min (if Qeq_bool (limit params) 0 then 100 else limit params) 100)) ]
   ++ match nonEmpty (keywords params) with
      | Some k => [("q_keywords", VStr k)]
      | None => []
      end
   ++ spreadList "person_seniorities" (personSeniorities params)
   ++ spreadList "organization_locations" (organizationLocations params)
   ++ spreadList "organization_num_employees_ranges" (employeeRanges params)
   ++ spreadList "currently_using_any_of_technology_uids" (technologies params)
   ++ spreadList "organization_industry_tag_ids" (industryTagIds params)
   ++ spreadList "person_departments" (departments params))%list.

(** [person.has_email === true] *)
Definition hasEmail (person : ApolloPerson) : bool :=
  match has_email person with
  | Some true => true
  | _ => false
  end.

Definition searchApolloContacts (apiKey : string) (params : SearchContactsInput)
  : M (list ApolloPerson) :=
  let requestBody := searchRequestBody params in
  response <- fetchWithRetry (fun k => apolloSearch W k apiKey requestBody) ;;
  if negb (ok response) then
    errorText <- await (text response) ;;
    throw (JsError ("Apollo API error: " ++ string_of_Z (status response)
                    ++ " - " ++ errorText))
  else
    data <- await (json response) ;;
    let allPeople := orNil (people data) in
    ret (filter hasEmail allPeople).

Definition enrichApolloContact (apiKey personId : string)
  : M (option ApolloPerson) :=
  response <- fetchWithRetry (fun k => apolloEnrich W k apiKey personId) ;;
  if negb (ok response) then
    errorText <- await (text response) ;;
    throw (JsError ("Apollo enrich error: " ++ string_of_Z (status response)
                    ++ " - " ++ errorText))
  else
    data <- await (json response) ;;
    ret (person data).

(** [[a, b, c].filter(Boolean)] on optional strings. *)
Definition truthyStrings (l : list (option string)) : list string :=
  flat_map (fun s => match nonEmpty s with Some s => [s] | None => [] end) l.

(** The object pushed for an enriched person whose [email] is [enrichedEmail]. *)
Definition foundContact (enriched : ApolloPerson) (enrichedEmail : string)
  : FoundContact :=
  let lastName :=
    orS (last_name enriched) (orS (last_name_obfuscated enriched) "") in
  let fullName :=
    match nonEmpty (name enriched) with
    | Some n => n
    | None =>
        orS (Some (trim (orS (first_name enriched) "" ++ " " ++ lastName))) "Unknown"
    end in
  let company :=
    orS (organization_name enriched)
      (orS (match organization enriched with
            | Some o => org_name o
            | None => None
            end) "Unknown") in
  {| found_id := id enriched;
     found_name := fullName;
     firstName := first_name enriched;
     lastName := nonEmpty (Some lastName);
     found_email := enrichedEmail;
     found_title := title enriched;
     company := company;
     linkedinUrl := linkedin_url enriched;
     location :=
       nonEmpty (Some (String.concat ", "
         (truthyStrings [city enriched; state enriched; country enriched]))) |}.

(** One round of [for (const contact of results)]. *)
Definition enrichContact
  (apiKey : string) (contact : ApolloPerson)
  (enrichedContacts : list FoundContact) : M (list FoundContact) :=
  match nonEmpty (id contact) with
  | Some contactId =>
      tryCatch
        (enriched <- enrichApolloContact apiKey contactId ;;
         let enrichedContacts :=
           match enriched with
           | Some enriched =>
               match nonEmpty (email enriched) with
               | Some enrichedEmail =>
                   (enrichedContacts ++ [foundContact enriched enrichedEmail])%list
               | None => enrichedContacts
               end
           | None => enrichedContacts
           end in
         _ <- sleep 200 ;;
         ret enrichedContacts)
        (fun _ => ret enrichedContacts)
  | None => ret enrichedContacts
  end.

(** The second argument of the executor's call of [searchApolloContacts]. *)
Definition searchParams (input : SearchContactsInput) : SearchContactsInput :=
  {| personTitles := personTitles input;
     personLocations := personLocations input;
     organizationLocations := organizationLocations input;
     employeeRanges := employeeRanges input;
     keywords := keywords input;
     limit := min (if Qeq_bool (limit input) 0 then 10 else limit input) 100;
     includeSimilarTitles := includeSimilarTitles input;
     personSeniorities := personSeniorities input;
     technologies := technologies input;
     industryTagIds := industryTagIds input;
     departments := departments input |}.

Definition searchContactsNode_try
  (input : SearchContactsInput) (context : NodeExecutionContext)
  : M (NodeExecutionResult SearchContactsOutput) :=
  match nonEmpty (apolloKey context) with
  | None =>
      ret (Failure
        "Apollo API key not configured. Please provide context.credentials.apollo.apiKey.")
  | Some apiKey =>
      results <- searchApolloContacts apiKey (searchParams input) ;;
      if (List.length results =? 0)%nat then
        ret (Success {| found_contacts := []; totalFound := 0 |})
      else
        enrichedContacts <- forOf results (enrichContact apiKey) [] ;;
        ret (Success {| found_contacts := enrichedContacts;
                        totalFound := List.length results |})
  end.

Definition searchContactsNode_executor
  (input : SearchContactsInput) (context : NodeExecutionContext)
  : M (NodeExecutionResult SearchContactsOutput) :=
  tryCatch (searchContactsNode_try input context)
    (fun error => ret (Failure (messageOr "Failed to search contacts" error))).

End Executors.

End Nodes.

(* ================================================================== *)
(** ** The properties under study, as predicates *)
(* ================================================================== *)

Module Properties.

(** A field schema wrapped in Optional, Default or Nullable. *)
Definition isWrapper (d : ZodDef) : bool :=
  match d with
  | ZodOptional _ | ZodNullable _ | ZodDefault _ _ => true
  | _ => false
  end.

(** The description mock synthesis finally dispatches on: what is left
    when [generateFromDef] has followed its ZodOptional / ZodNullable
    cases. *)
Fixpoint mockInspects (d : ZodDef) : ZodDef :=
  match d with
  | ZodOptional innerType | ZodNullable innerType => mockInspects (_def innerType)
  | _ => d
  end.

(** The description field derivation classifies ([innerDef]), in the web
    form and in the CLI prompts. *)
Definition fieldInspects (d : ZodDef) : ZodDef := snd (fst (InputForm.unwrap d)).

Definition promptInspects (d : ZodDef) : ZodDef := fst (Prompts.unwrap d).

(** Both traversals treat the wrappers of a field alike: on a Default they
    take the same default value, on every other description they end up
    inspecting the same inner description. *)
Definition unwrapIdentically (d : ZodDef) : Prop :=
  match d with
  | ZodDefault _ v =>
      snd (InputForm.unwrap d) = v /\
      snd (Prompts.unwrap d) = v /\
      MockGenerator.generateFromDef d = v
  | _ => fieldInspects d = mockInspects d /\ promptInspects d = mockInspects d
  end.

(** A generator answers an array schema with exactly two synthesized items. *)
Definition twoItems (generate : ZodDef -> value) (item : ZodType) : Prop :=
  generate (ZodArray item) = VArr [generate (_def item); generate (_def item)].

(** Two calls of [generateMockOutput], taking the clock readings [now] and
    [now'], return structurally equal outputs. *)
Definition sameOutput (now now' : nat -> string) (nodeType : string)
  (schema : ZodType) : Prop :=
  MockGenerator.generateMockOutput now nodeType schema
  = MockGenerator.generateMockOutput now' nodeType schema.

(** The descriptions [d] and [d'] that two calls of mock synthesis find in
    one schema, when every [defaultValue] thunk that synthesis calls returns
    the same value to both: [d] and [d'] agree wherever [generateFromDef]
    looks. It looks at the value a Default returns and not at its inner type,
    at the first option of a union, and at every field, item and inner type
    otherwise. *)
Fixpoint sameCalls (d d' : ZodDef) {struct d} : Prop :=
  match d, d' with
  | ZodDefault _ returned, ZodDefault _ returned' => returned = returned'
  | ZodOptional t, ZodOptional t'
  | ZodNullable t, ZodNullable t'
  | ZodArray t, ZodArray t'
  | ZodRecord t, ZodRecord t'
  | ZodPromise t, ZodPromise t'
  | ZodEffects t, ZodEffects t' => sameCalls (_def t) (_def t')
  | ZodObject shape, ZodObject shape' =>
      (fix fields (l l' : list (string * ZodType)) : Prop :=
         match l, l' with
         | [], [] => True
         | (key, t) :: rest, (key', t') :: rest' =>
             key = key' /\ sameCalls (_def t) (_def t') /\ fields rest rest'
         | _, _ => False
         end) shape shape'
  | ZodTuple items, ZodTuple items' =>
      (fix each (l l' : list ZodType) : Prop :=
         match l, l' with
         | [], [] => True
         | t :: rest, t' :: rest' => sameCalls (_def t) (_def t') /\ each rest rest'
         | _, _ => False
         end) items items'
  | ZodUnion options, ZodUnion options' =>
      match options, options' with
      | [], [] => True
      | firstOpt :: _, firstOpt' :: _ => sameCalls (_def firstOpt) (_def firstOpt')
      | _, _ => False
      end
  | ZodDiscriminatedUnion options, ZodDiscriminatedUnion options' =>
      match options, options' with
      | [], [] => True
      | (_, firstOption) :: _, (_, firstOption') :: _ =>
          sameCalls (_def firstOption) (_def firstOption')
      | _, _ => False
      end
  | _, _ => d = d'
  end.

(** A computation whose promise always resolves. *)
Definition alwaysResolves {A} (m : M A) : Prop :=
  forall st, exists r st', m st = (Resolved r, st').

(** A computation whose promise always settles (resolves or rejects). *)
Definition settles {A} (m : M A) : Prop :=
  forall st, fst (m st) <> Pending.

(** An AI response that contains no parseable JSON array: the pattern finds
    no bracketed text, or [JSON.parse] throws on what it finds. *)
Definition unparseable (X : Nodes.Externals) (responseText : string) : Prop :=
  match Nodes.matchBetween "[" "]" responseText with
  | None => True
  | Some jsonText => exists e, Nodes.JSON_parse_analysis X jsonText = inl e
  end.

(** The analysis prompt can be built for every batch. *)
Definition promptsBuilt (X : Nodes.Externals) : Prop :=
  forall topic intent batch,
    exists prompt, Nodes.buildAnalysisPrompt X topic intent batch = inr prompt.

(** The text-generation endpoint answers every call with a well-formed
    response (whatever its text says). *)
Definition answersEveryCall (W : Nodes.World) : Prop :=
  forall k apiKey prompt,
    exists status raw blocks,
      Nodes.anthropicMessages W k apiKey prompt
      = inr (Nodes.mkResponse true status raw
               (inr (Nodes.mkMessages (Some blocks)))).

(** A post that passed the relevance threshold. *)
Definition relevant (X : Nodes.Externals) (p : Nodes.AnalyzedPost) : Prop :=
  Nodes.MIN_RELEVANCE_SCORE X <= Nodes.relevanceScore p.

(** [a] may stand before [b] in an order of non-increasing relevance. *)
Definition notBelow (a b : Nodes.AnalyzedPost) : Prop :=
  Nodes.relevanceScore b <= Nodes.relevanceScore a.

(** The comparison function the analyser sorts with. *)
Definition byRelevance (a b : Nodes.AnalyzedPost) : Q :=
  Nodes.relevanceScore b - Nodes.relevanceScore a.


End Properties.

Import Properties.

(* ================================================================== *)
(** ** Sample inputs, helpers and worlds *)
(* ================================================================== *)

Module Samples.

Import Nodes.

Definition analysis (i : string) (score : Q) (urgency : string) (complaint : bool)
  : Analysis :=
  {| an_id := Some i;
     an_relevanceScore := Some score;
     an_sentiment := Some "negative";
     an_isComplaint := Some complaint;
     an_urgencyLevel := Some urgency;
     an_aiSummary := None;
     an_matchedKeywords := Some ["slow"] |}.

(** Stand-ins for the prompt helpers: a batch size of 2, a relevance
    threshold of 30, and a parser that understands one analysis text. *)
Definition externals : Externals :=
  {| buildKeywordPrompt := fun topic _ => inr ("keywords for " ++ topic);
     buildEmailPrompt := fun contact product _ _ =>
       inr ("email to " ++ contact_name contact ++ " about " ++ product);
     buildSubjectPrompt := fun contact _ =>
       inr ("subject for " ++ contact_name contact);
     cleanEmailBody := fun raw => inr (trim raw);
     cleanSubjectLine := fun raw => inr (trim raw);
     buildAnalysisPrompt := fun topic _ batch =>
       inr ("analyze " ++ String.concat "," (map post_id batch) ++ " for " ++ topic);
     normalizeSentiment := fun s => inr (orS s "neutral");
     normalizeUrgency := fun s => inr (orS s "low");
     MIN_RELEVANCE_SCORE := 30;
     ANALYSIS_BATCH_SIZE := 2;
     JSON_parse_keywords := fun _ => inl (JsError "Unexpected token");
     JSON_parse_analysis := fun text =>
       if String.eqb text "[p1: 50 low, p2: 90 high, p9: 10 low]"
       then inr [Some (analysis "p1" 50 "low" true);
                 Some (analysis "p2" 90 "high" false);
                 Some (analysis "p9" 10 "low" false)]
       else inl (JsError "Unexpected token") |}.

Definition said (reply : string) : exn + Response AnthropicMessagesResponse :=
  inr (mkResponse true 200 (inr reply)
         (inr (mkMessages (Some [mkTextBlock (Some reply)])))).

Definition noSearch : nat -> string -> obj -> exn + Response ApolloSearchResponse :=
  fun _ _ _ => inl (JsError "fetch failed").

Definition noEnrich : nat -> string -> string -> exn + Response ApolloEnrichResponse :=
  fun _ _ _ => inl (JsError "fetch failed").

(** The model answers the first batch with an analysis and the second
    with prose. *)
Definition analysisWorld : World :=
  {| anthropicMessages := fun k _ _ =>
       match k with
       | O => said "Here you go: [p1: 50 low, p2: 90 high, p9: 10 low] Done."
       | _ => said "I could not analyse these posts."
       end;
     apolloSearch := noSearch;
     apolloEnrich := noEnrich;
     clock := fun _ => 1700000000000%Z |}.

(** The third call (the body of the second contact's email) fails. *)
Definition draftWorld : World :=
  {| anthropicMessages := fun k _ _ =>
       match k with
       | 0%nat => said " Hello John, "
       | 1%nat => said "A tool for you"
       | 2%nat => inl (JsError "Request failed after 4 attempts")
       | 3%nat => said "Hello Ann,"
       | _ => said "Ann, a tool for you"
       end;
     apolloSearch := noSearch;
     apolloEnrich := noEnrich;
     clock := fun _ => 1700000000000%Z |}.

Definition person (i : string) (mail : option string) (flag : option bool)
  : ApolloPerson :=
  {| id := Some i; first_name := Some "Pat"; last_name := None;
     last_name_obfuscated := Some "L."; name := None; email := mail;
     has_email := flag; title := Some "CTO"; linkedin_url := None;
     organization_name := None; organization := Some (mkOrg (Some "Acme"));
     city := Some "Paris"; state := None; country := Some "France" |}.

(** Three people are found, two of them flagged as having an email; the
    enrichment of the first reveals it, the enrichment of the other fails. *)
Definition searchWorld : World :=
  {| anthropicMessages := fun _ _ _ => inl (JsError "fetch failed");
     apolloSearch := fun _ _ _ =>
       inr (mkResponse true 200 (inr "")
              (inr (mkSearchResponse
                      (Some [person "a1" None (Some true);
                             person "a2" None (Some false);
                             person "a3" None (Some true)]))));
     apolloEnrich := fun _ _ personId =>
       if String.eqb personId "a1"
       then inr (mkResponse true 200 (inr "")
                   (inr (mkEnrichResponse
                           (Some (person "a1" (Some "pat@acme.io") (Some true))))))
       else inr (mkResponse false 429 (inr "Too Many Requests")
                   (inl (JsError "Unexpected token")));
     clock := fun _ => 1700000000000%Z |}.

Definition context : NodeExecutionContext :=
  {| credentials :=
       Some {| anthropic := Some (mkCred (Some "sk-ant-test"));
               apollo := Some (mkCred (Some "apollo-test")) |};
     variables := [("senderName", VStr "Sam")] |}.

Definition post (i : string) : SocialPost :=
  {| post_id := i; post_fields := [("platform", VStr "twitter")] |}.

Definition analyzeInput : SocialAiAnalyzeInput :=
  {| twitterPosts := Some [post "p1"; post "p2"];
     redditPosts := None;
     linkedinPosts := None;
     posts := Some [post "p3"];
     an_topic := "project management";
     userIntent := "find frustrated users" |}.

Definition john : Contact := mkContact "c1" "John" (Some "john@acme.com") (Some "CTO") None.
Definition bob : Contact := mkContact "c2" "Bob" (Some "bob@acme.com") None None.
Definition ann : Contact := mkContact "c3" "Ann" (Some "ann@acme.com") None (Some "Acme").

Definition draftInput : DraftEmailsInput :=
  {| contacts := [john; bob; ann];
     productDescription := "an SEO tool";
     emailTemplate := None |}.

Definition searchInput : SearchContactsInput :=
  {| personTitles := Some ["CTO"]; personLocations := None;
     organizationLocations := None; employeeRanges := None;
     keywords := None; limit := 10; includeSimilarTitles := None;
     personSeniorities := None; technologies := None;
     industryTagIds := None; departments := None |}.

(** The draft the sample run makes for [john]. *)
Definition johnDraft : DraftEmailInfo :=
  {| draft_id := "draft-c1-1700000000000";
     toEmail := "john@acme.com";
     toName := "John";
     toCompany := "";
     toTitle := "CTO";
     subject := "A tool for you";
     body := "Hello John,";
     draft_status := "draft" |}.

End Samples.

(* ================================================================== *)
(** ** Further predicates *)
(* ================================================================== *)

Module Further.

(** The descriptions on which the web playground's generator has the same
    cases as the CLI playground's: no Array (whose item counts differ) and
    none of the variants the web generator lacks, at any depth that
    synthesis reaches. *)
Fixpoint webCovers (d : ZodDef) : bool :=
  match d with
  | ZodString | ZodNumber | ZodBoolean | ZodNull | ZodUndefined
  | ZodLiteral _ | ZodEnum _ | ZodDefault _ _ => true
  | ZodObject shape => forallb (fun entry => webCovers (_def (snd entry))) shape
  | ZodOptional innerType | ZodNullable innerType => webCovers (_def innerType)
  | _ => false
  end.

(** [l1] is [l2] with some elements left out, the others in order. *)
Inductive Subseq {A : Type} : list A -> list A -> Prop :=
| Subseq_nil : Subseq [] []
| Subseq_skip : forall x l1 l2, Subseq l1 l2 -> Subseq l1 (x :: l2)
| Subseq_take : forall x l1 l2, Subseq l1 l2 -> Subseq (x :: l1) (x :: l2).

(** The value an example or a default may take in a field of a given
    type. *)
Definition fits (fieldType : InputForm.FieldType) (v : value) : Prop :=
  match fieldType with
  | InputForm.number => exists n, v = VNum n
  | InputForm.checkbox => v = VBool true
  | InputForm.array => exists items, v = VArr items
  | InputForm.textarea => exists props, v = VObj props
  | InputForm.text | InputForm.select => exists s, v = VStr s
  end.

(** The emails of the contacts that have one, in order. *)
Definition contactEmails (contacts : list Nodes.Contact) : list string :=
  flat_map (fun c => match Nodes.nonEmpty (Nodes.contact_email c) with
                     | Some e => [e]
                     | None => []
                     end) contacts.

(** A text of ASCII characters only, on which the string helpers of the
    embedding do what the language's do. *)
Fixpoint isAscii (s : string) : bool :=
  match s with
  | EmptyString => true
  | String c r => (nat_of_ascii c <? 128)%nat && isAscii r
  end.

(** A character occurs in a string. *)
Fixpoint occurs (c : ascii) (s : string) : bool :=
  match s with
  | EmptyString => false
  | String a r => Ascii.eqb a c || occurs c r
  end.

(** An API key that is not configured: absent, or the empty string. *)
Definition missing (key : option string) : Prop :=
  key = None \/ key = Some "".

(** Every post handed to the analyser, in the order it collects them. *)
Definition allPostsOf (input : Nodes.SocialAiAnalyzeInput) : list Nodes.SocialPost :=
  (Nodes.orNil (Nodes.twitterPosts input) ++ Nodes.orNil (Nodes.redditPosts input)
   ++ Nodes.orNil (Nodes.linkedinPosts input) ++ Nodes.orNil (Nodes.posts input))%list.

(** A contact of the search output whose optional texts are absent rather
    than empty and whose name and company are filled in. *)
Definition filledIn (c : Nodes.FoundContact) : Prop :=
  Nodes.found_name c <> "" /\ Nodes.company c <> "" /\
  Nodes.lastName c <> Some "" /\ Nodes.location c <> Some "".

(** Helpers as in [Samples.externals], with a parser that understands one
    keyword text. *)
Definition keywordExternals : Nodes.Externals :=
  {| Nodes.buildKeywordPrompt := Nodes.buildKeywordPrompt Samples.externals;
     Nodes.buildEmailPrompt := Nodes.buildEmailPrompt Samples.externals;
     Nodes.buildSubjectPrompt := Nodes.buildSubjectPrompt Samples.externals;
     Nodes.cleanEmailBody := Nodes.cleanEmailBody Samples.externals;
     Nodes.cleanSubjectLine := Nodes.cleanSubjectLine Samples.externals;
     Nodes.buildAnalysisPrompt := Nodes.buildAnalysisPrompt Samples.externals;
     Nodes.normalizeSentiment := Nodes.normalizeSentiment Samples.externals;
     Nodes.normalizeUrgency := Nodes.normalizeUrgency Samples.externals;
     Nodes.MIN_RELEVANCE_SCORE := Nodes.MIN_RELEVANCE_SCORE Samples.externals;
     Nodes.ANALYSIS_BATCH_SIZE := Nodes.ANALYSIS_BATCH_SIZE Samples.externals;
     Nodes.JSON_parse_keywords := fun text =>
       if String.eqb text "{keywords}"
       then inr {| Nodes.twitter :=
                     Some {| Nodes.tw_keywords := Some ["slow app"; "lag"];
                             Nodes.searchQuery := Some "slow app OR lag" |};
                   Nodes.reddit :=
                     Some {| Nodes.rd_keywords := Some ["lag"; "lag"] |};
                   Nodes.linkedin :=
                     Some {| Nodes.li_keywords := Some ["latency"];
                             Nodes.searchQueries := None |} |}
       else inl (JsError "Unexpected token");
     Nodes.JSON_parse_analysis := Nodes.JSON_parse_analysis Samples.externals |}.

Definition keywordWorld : Nodes.World :=
  {| Nodes.anthropicMessages := fun _ _ _ => Samples.said "Here: {keywords}";
     Nodes.apolloSearch := Samples.noSearch;
     Nodes.apolloEnrich := Samples.noEnrich;
     Nodes.clock := fun _ => 1700000000000%Z |}.

Definition keywordInput : Nodes.SocialKeywordGeneratorInput :=
  {| Nodes.kw_topic := "app speed";
     Nodes.userKeywords := Some ["lag"; "crash"] |}.

(** A name under which the assignment [o[k] = v] gives a plain object an own
    property, listed after the ones it has: not [__proto__], which the
    assignment hands to the setter inherited from [Object.prototype] (no own
    property comes of it), and not an array index, which the language lists
    before every other name. *)
Definition plainName (k : string) : bool :=
  negb (String.eqb k "__proto__")
  && match array_index k with
     | Some _ => false
     | None => true
     end.

(** The run has made [calls] more requests, taken [reads] more clock
    readings and slept [ms] more milliseconds at [st'] than at [st]. *)
Definition consumed (st st' : St) (calls reads : nat) (ms : Z) : Prop :=
  fetches st' = (fetches st + calls)%nat /\
  clockReads st' = (clockReads st + reads)%nat /\
  slept st' = (slept st + ms)%Z.

End Further.

Import Further.

(* ================================================================== *)
(** ** The specification's reading of resolveNestedPath *)
(* ================================================================== *)

Module PathSpec.

Import ExecutionContext.



Section Segments.

Variable arrayMethods : list string.







End Segments.

End PathSpec.

(* ================================================================== *)
(** ** The values of the web form
       (packages/playground-web/src/components/InputForm.tsx) *)
(* ================================================================== *)

Module FormValues.

Import InputForm.

Definition generateExampleFromSchema (nowISO : string) (schema : ZodType) : obj :=
  let fields := extractFieldsFromSchema nowISO schema in
  fold_left
    (fun example field =>
       if negb (is_undefined (default field))
       then obj_set example (name field) (default field)
       else example)
    fields [].

(** [value === '' || value === undefined || value === null] *)
Definition isEmptyValue (v : value) : bool :=
  match v with
  | VStr EmptyString | VUndefined | VNull => true
  | _ => false
  end.

(** [value.split(',').map(s => s.trim()).filter(Boolean)] *)
Definition commaSeparated (value : string) : list string :=
  filter (fun s => negb (String.eqb s "")) (map trim (split "," value)).

(** [fields.find(f => f.name === key)?.type] *)
Definition typeOfField (fields : list FieldConfig) (key : string)
  : option FieldType :=
  option_map type (find (fun f => String.eqb (name f) key) fields).

Section Values.

(** [JSON.parse], [JSON.stringify(v, null, 2)] on an array, an object or
    null, and the conversion to a string of a value that is neither a string
    nor undefined nor null, which throws a TypeError for an object that
    cannot be converted. *)
Variable JSON_parse : string -> exn + value.
Variable JSON_stringify : value -> string.
Variable ToString : value -> exn + string.

(** The texts that [arr.join] joins: a string as it is, the empty text for
    [undefined] and [null], the conversion of every other item. *)
Fixpoint texts (arr : list value) : exn + list string :=
  match arr with
  | [] => inr []
  | item :: rest =>
      match match item with
            | VStr s => inr s
            | VUndefined | VNull => inr ""
            | _ => ToString item
            end with
      | inl e => inl e
      | inr converted =>
          match texts rest with
          | inl e => inl e
          | inr more => inr (converted :: more)
          end
      end
  end.

(** [arr.join(sep)] *)
Definition join (sep : string) (arr : list value) : exn + string :=
  match texts arr with
  | inl e => inl e
  | inr parts => inr (String.concat sep parts)
  end.

(** One round of the [reduce] that builds [defaultValues]. *)
Definition defaultValue (acc : obj) (field : FieldConfig) : exn + obj :=
  if negb (is_undefined (default field)) then
    match type field, default field with
    | array, VArr arr =>
        if match arr with
           | first :: _ => String.eqb (typeof first) "object"
           | [] => false
           end
        then inr (obj_set acc (name field) (VStr (JSON_stringify (VArr arr))))
        else match join ", " arr with
             | inl e => inl e
             | inr joined => inr (obj_set acc (name field) (VStr joined))
             end
    | textarea, d =>
        if String.eqb (typeof d) "object"
        then inr (obj_set acc (name field) (VStr (JSON_stringify d)))
        else inr (obj_set acc (name field) d)
    | _, d => inr (obj_set acc (name field) d)
    end
  else inr acc.

(** The [reduce]: the object of the default values, or what a round
    throws. *)
Definition defaultValues (fields : list FieldConfig) : exn + obj :=
  fold_left
    (fun acc field =>
       match acc with
       | inl e => inl e
       | inr held => defaultValue held field
       end)
    fields (inr []).

(** One round of the loop of [onFormSubmit]. *)
Definition cleanEntry (fields : list FieldConfig) (cleaned : obj)
  (entry : string * value) : obj :=
  let '(key, value) := entry in
  if isEmptyValue value then cleaned
  else
    match typeOfField fields key, value with
    | Some array, VStr entered =>
        let trimmed := trim entered in
        let fromCommas :=
          let arr := commaSeparated entered in
          if (0 <? List.length arr)%nat then obj_set cleaned key (strs arr)
          else cleaned in
        if String.prefix "[" trimmed then
          match JSON_parse trimmed with
          | inr parsed => obj_set cleaned key parsed
          | inl _ => fromCommas
          end
        else fromCommas
    | Some textarea, VStr entered =>
        match JSON_parse entered with
        | inr parsed => obj_set cleaned key parsed
        | inl _ => obj_set cleaned key value
        end
    | _, _ => obj_set cleaned key value
    end.

(** The object [onFormSubmit] hands to [onSubmit]. *)
Definition onFormSubmit (fields : list FieldConfig) (data : obj) : obj :=
  fold_left (cleanEntry fields) data [].

(** One round of the loop of [transformingResolver]. *)
Definition transformEntry (fields : list FieldConfig) (transformed : obj)
  (entry : string * value) : obj :=
  let '(key, value) := entry in
  let otherwise :=
    if isEmptyValue value then transformed else obj_set transformed key value in
  match typeOfField fields key, value with
  | Some array, VStr entered =>
      let trimmed := trim entered in
      let fromCommas :=
        let arr := commaSeparated entered in
        obj_set transformed key
          (if (0 <? List.length arr)%nat then strs arr else VUndefined) in
      if String.prefix "[" trimmed then
        match JSON_parse trimmed with
        | inr parsed => obj_set transformed key parsed
        | inl _ => fromCommas
        end
      else fromCommas
  | Some textarea, VStr entered =>
      if negb (String.eqb (trim entered) "") then
        match JSON_parse entered with
        | inr parsed => obj_set transformed key parsed
        | inl _ => obj_set transformed key value
        end
      else otherwise
  | _, _ => otherwise
  end.

(** The object [transformingResolver] hands to the Zod resolver. *)
Definition transformingResolver (fields : list FieldConfig) (values : obj) : obj :=
  fold_left (transformEntry fields) values [].

End Values.

(** A text that survives the way through a comma-separated form field:
    not empty, without a comma, without white space at its ends. *)
Definition plainItem (s : string) : Prop :=
  s <> "" /\ Further.occurs "," s = false /\ trim s = s.

(** Two objects in which every key reads the same. *)
Definition sameReads (a b : obj) : Prop :=
  forall key, obj_get a key = obj_get b key.

End FormValues.

(* ================================================================== *)
(** ** Sample forms *)
(* ================================================================== *)

Module FormSamples.

(** A parser that understands two texts. *)
Definition parse (entered : string) : exn + value :=
  if String.eqb entered "[1, 2]" then inr (VArr [VNum 1; VNum 2])
  else if String.eqb entered "{}" then inr (VObj [])
  else inl (JsError "Unexpected token").

Definition stringify (v : value) : string :=
  match v with
  | VObj [] => "{}"
  | _ => "[1, 2]"
  end.

(** The conversion to a string on the values the samples use: an object
    converts unless it has an own member [toString]; the samples hold whole
    numbers only and convert no array. *)
Definition ToString (v : value) : exn + string :=
  match v with
  | VObj props =>
      if existsb (fun entry => String.eqb (fst entry) "toString") props
      then inl (JsError "Cannot convert object to primitive value")
      else inr "[object Object]"
  | VUndefined => inr "undefined"
  | VNull => inr "null"
  | VBool true => inr "true"
  | VBool false => inr "false"
  | VNum n => inr (Nodes.string_of_Z (Qfloor n))
  | VStr s => inr s
  | VArr _ => inr ""
  end.

Definition field (name : string) (type : InputForm.FieldType) (default : value)
  : InputForm.FieldConfig :=
  {| InputForm.name := name;
     InputForm.label := name;
     InputForm.type := type;
     InputForm.required := true;
     InputForm.default := default;
     InputForm.options := None;
     InputForm.description := None |}.

Definition fields : list InputForm.FieldConfig :=
  [ field "limit" InputForm.number (VNum 10);
    field "keywords" InputForm.array (strs ["technology"; "startup"; "SaaS"]);
    field "locations" InputForm.array (strs ["San Francisco, CA"; "New York, NY"]);
    field "headers" InputForm.textarea (VObj []);
    field "note" InputForm.text (VStr "") ].

(** What the form holds before it is edited. *)
Definition untouched : obj :=
  [ ("limit", VNum 10);
    ("keywords", VStr "technology, startup, SaaS");
    ("locations", VStr "San Francisco, CA, New York, NY");
    ("headers", VStr "{}");
    ("note", VStr "") ].

(** What the form holds when the keywords were blanked out. *)
Definition blankKeywords : obj := [("limit", VNum 5); ("keywords", VStr " , ")].

End FormSamples.

(* ================================================================== *)
(** ** The social monitors: text helpers
       (packages/nodes/src/integrations/social) *)
(* ================================================================== *)

Module SocialText.

(** [\w] of a regular expression without the unicode flag. *)
Definition is_word (c : ascii) : bool :=
  is_upper c || is_lower c || is_digit c || Ascii.eqb c "_".

(** A tag that has at least one character. *)
Definition emit (tag : string) : list string :=
  match tag with
  | EmptyString => []
  | _ => [tag]
  end.

(** The scan behind [text.match(/#\w+/g)] followed by [tag.slice(1)]: the
    matches from left to right, each as long as it can be, without their
    [#]. [current] is the tag being read, when the scan is behind a [#]. *)
Fixpoint hashtags_go (current : option string) (text : string) : list string :=
  match text with
  | EmptyString =>
      match current with
      | Some tag => emit tag
      | None => []
      end
  | String c rest =>
      let next := if Ascii.eqb c "#" then Some EmptyString else None in
      match current with
      | Some tag =>
          if is_word c then hashtags_go (Some (tag ++ String c EmptyString)) rest
          else (emit tag ++ hashtags_go next rest)%list
      | None => hashtags_go next rest
      end
  end.

Definition extractHashtags (text : string) : list string :=
  hashtags_go None text.

(** [l.indexOf(x)] *)
Fixpoint indexOf (x : string) (l : list string) : option nat :=
  match l with
  | [] => None
  | y :: rest =>
      if String.eqb y x then Some 0%nat
      else option_map S (indexOf x rest)
  end.

(** [s.split('?')[0] ?? 'unknown'] *)
Definition beforeQuery (s : string) : string :=
  match split "?" s with
  | first :: _ => first
  | [] => "unknown"
  end.

(** The part after the first part that is [marker], when it is not empty. *)
Definition partAfter (marker : string) (parts : list string) : option string :=
  match indexOf marker parts with
  | Some i => Nodes.nonEmpty (nth_error parts (S i))
  | None => None
  end.

(** Nothing in the [try] block throws on a string; its [catch] is never
    entered. *)
Definition extractHandleFromUrl (url : option string) : string :=
  match Nodes.nonEmpty url with
  | None => "unknown"
  | Some url =>
      let parts := split "/" url in
      match partAfter "in" parts with
      | Some handle => beforeQuery handle
      | None =>
          match partAfter "company" parts with
          | Some handle => beforeQuery handle
          | None =>
              match nth_error parts (List.length parts - 1) with
              | Some lastPart => beforeQuery lastPart
              | None => "unknown"
              end
          end
      end
  end.

(** The double quote. *)
Definition quote : string := String (ascii_of_nat 34) EmptyString.

Record QueryOptions : Type := mkQueryOptions {
  opt_excludeRetweets : option bool;
  opt_minLikes : option Q;
  opt_since : option string;
  opt_lang : option string
}.

Section Query.

(** [`${n}`] for a number. *)
Variable numberToString : Q -> string.

Definition buildTwitterSearchQuery (keywords : list string)
  (options : QueryOptions) : string :=
  let keywordQuery :=
    String.concat " OR "
      (map (fun k => if includes k " " then quote ++ k ++ quote else k) keywords) in
  let query := "(" ++ keywordQuery ++ ")" in
  let query :=
    match opt_excludeRetweets options with
    | Some true => query ++ " -is:retweet"
    | _ => query
    end in
  let query :=
    match opt_minLikes options with
    | Some n => if Qeq_bool n 0 then query
                else query ++ " min_faves:" ++ numberToString n
    | None => query
    end in
  let query :=
    match Nodes.nonEmpty (opt_since options) with
    | Some since => query ++ " since:" ++ since
    | None => query
    end in
  match Nodes.nonEmpty (opt_lang options) with
  | Some lang => query ++ " lang:" ++ lang
  | None => query
  end.

End Query.

(** Every character of a string is a word character. *)
Fixpoint wordOnly (s : string) : bool :=
  match s with
  | EmptyString => true
  | String c r => is_word c && wordOnly r
  end.

End SocialText.

(* ================================================================== *)
(** ** The social monitors: executors
       (packages/nodes/src/integrations/social) *)
(* ================================================================== *)

Module Social.

(** *** Context and world *)

Record TwitterCredentials : Type := mkTwitterCredentials {
  twitterApiIoKey : option string
}.

Record ForumScoutCredentials : Type := mkForumScoutCredentials {
  apiKey : option string
}.

Record Credentials : Type := mkCredentials {
  twitter : option TwitterCredentials;
  forumScout : option ForumScoutCredentials
}.

Record NodeExecutionContext : Type := mkContext {
  credentials : option Credentials
}.

(** [context.credentials?.twitter?.twitterApiIoKey] *)
Definition twitterKey (context : NodeExecutionContext) : option string :=
  match credentials context with
  | Some c => match twitter c with Some t => twitterApiIoKey t | None => None end
  | None => None
  end.

(** [context.credentials?.forumScout?.apiKey] *)
Definition forumScoutKey (context : NodeExecutionContext) : option string :=
  match credentials context with
  | Some c => match forumScout c with Some f => apiKey f | None => None end
  | None => None
  end.

(** *** Payloads, at the types the sources declare *)

Record TweetAuthor : Type := mkTweetAuthor {
  userName : option string;
  author_name : value;
  followers : value
}.

Record TwitterApiTweet : Type := mkTweet {
  tweet_id : value;
  tweet_url : value;
  tweet_text : value;
  retweetCount : value;
  replyCount : value;
  likeCount : value;
  viewCount : value;
  createdAt : value;
  author : option TweetAuthor
}.

Record TwitterApiSearchResponse : Type := mkTwitterResponse {
  tweets : option (list TwitterApiTweet);
  has_next_page : value;
  next_cursor : option string
}.

Record ForumScoutLinkedInPost : Type := mkForumScoutPost {
  fs_author : option string;
  fs_date : option string;
  fs_snippet : option string;
  fs_url : option string;
  fs_text : option string;
  fs_content : option string;
  fs_authorName : option string;
  fs_authorUrl : option string;
  fs_authorProfileUrl : option string;
  fs_authorHeadline : option string;
  fs_authorFollowers : option Q;
  fs_likes : option Q;
  fs_numLikes : option Q;
  fs_comments : option Q;
  fs_numComments : option Q;
  fs_shares : option Q;
  fs_numShares : option Q;
  fs_reactions : option Q;
  fs_postedAt : option string;
  fs_datePosted : option string;
  fs_postedDate : option string;
  fs_hashtags : option (list string);
  fs_id : option string;
  fs_urn : option string
}.

(** What [response.json()] of the LinkedIn search gives: an array of posts,
    something with (or without) the members [posts], [results] and [data],
    or [null]. *)
Inductive LinkedInData : Type :=
| DataArray (found : list ForumScoutLinkedInPost)
| DataObject (posts results data : option (list ForumScoutLinkedInPost))
| DataNull.

(** Each request is answered by the endpoint it addresses, given the number
    of requests made before it in the run and what the request carries.
    [clock k] is the [k]-th reading of the clock. *)
Record World : Type := mkWorld {
  twitterSearch :
    nat -> string -> string -> string
    -> exn + Nodes.Response TwitterApiSearchResponse;
  linkedinSearch :
    nat -> string -> string -> string -> exn + Nodes.Response LinkedInData;
  clock : nat -> Z
}.

(** The built-ins the executors use on numbers and dates:
    [`${n}`] and [new Date(ms).toISOString()], which throws a RangeError
    when [ms] is out of the range of dates. *)
Record Externals : Type := mkExternals {
  numberToString : Q -> string;
  dateToISOString : Q -> exn + string
}.

(** *** Inputs and outputs *)

Record TwitterMonitorInput : Type := mkTwitterInput {
  tw_keywords : option (list string);
  excludeRetweets : option bool;
  minLikes : option Q;
  tw_maxResults : option Q;
  lang : option string;
  sinceDays : option Q
}.

Record TwitterPost : Type := mkTwitterPost {
  tp_id : value;
  tp_platform : string;
  tp_url : value;
  tp_text : value;
  tp_authorName : value;
  tp_authorHandle : option string;
  tp_authorUrl : string;
  tp_authorFollowers : value;
  tp_likes : value;
  tp_comments : value;
  tp_shares : value;
  tp_views : value;
  tp_postedAt : value
}.

Record TwitterMonitorOutput : Type := mkTwitterOutput {
  tw_posts : list TwitterPost;
  tw_totalFound : nat;
  hasMore : value;
  cursor : option string
}.

Record LinkedInMonitorInput : Type := mkLinkedInInput {
  li_keywords : option (list string);
  timeFilter : option string;
  li_maxResults : option Q
}.

Record LinkedInPost : Type := mkLinkedInPost {
  lp_id : string;
  lp_platform : string;
  lp_url : string;
  lp_text : string;
  lp_authorName : string;
  lp_authorHandle : string;
  lp_authorUrl : string;
  lp_authorFollowers : Q;
  lp_authorHeadline : option string;
  lp_likes : Q;
  lp_comments : Q;
  lp_shares : Q;
  lp_hashtags : list string;
  lp_postedAt : string
}.

Record LinkedInMonitorOutput : Type := mkLinkedInOutput {
  li_posts : list LinkedInPost;
  li_totalFound : nat
}.

(** *** Helpers on numbers and arrays *)

(** The integral part of a number. *)
Definition truncate (q : Q) : Z :=
  if Qle_bool 0 q then Qfloor q else Qceiling q.

(** [l.slice(0, end)] *)
Definition sliceTo {A} (last : Q) (l : list A) : list A :=
  let len := Z.of_nat (List.length l) in
  let relativeEnd := truncate last in
  let final :=
    if (relativeEnd <? 0)%Z then Z.max (len + relativeEnd) 0
    else Z.min relativeEnd len in
  firstn (Z.to_nat final) l.

(** [a || b] on optional numbers. *)
Definition orQ (a : option Q) (b : Q) : Q :=
  match a with
  | Some q => if Qeq_bool q 0 then b else q
  | None => b
  end.

(** [a || b] on optional strings, the result optional. *)
Definition orElse (a b : option string) : option string :=
  match Nodes.nonEmpty a with
  | Some s => Some s
  | None => b
  end.

Section Executors.

Variable X : Externals.
Variable W : World.

(** [Date.now()] *)
Definition DateNow : M Z :=
  fun st =>
    (Resolved (clock W (clockReads st)),
     mkSt (fetches st) (S (clockReads st)) (slept st)).

(** **** twitter-monitor.ts *)

Definition searchTwitter (apiKey query queryType : string)
  : M TwitterApiSearchResponse :=
  response <-
    Nodes.fetchWithRetry (fun k => twitterSearch W k apiKey query queryType) ;;
  if negb (Nodes.ok response) then
    errorText <- await (Nodes.text response) ;;
    throw (JsError ("Twitter API error: " ++ Nodes.string_of_Z (Nodes.status response)
                    ++ " - " ++ errorText))
  else await (Nodes.json response).

(** The callback of [.map((tweet) => ...)]. *)
Definition twitterPost (tweet : TwitterApiTweet) : M TwitterPost :=
  tweetAuthor <- defined "name" (author tweet) ;;
  ret {| tp_id := tweet_id tweet;
         tp_platform := "twitter";
         tp_url := tweet_url tweet;
         tp_text := tweet_text tweet;
         tp_authorName := author_name tweetAuthor;
         tp_authorHandle := userName tweetAuthor;
         tp_authorUrl :=
           "https://twitter.com/"
           ++ match userName tweetAuthor with
              | Some handle => handle
              | None => "undefined"
              end;
         tp_authorFollowers := followers tweetAuthor;
         tp_likes := likeCount tweet;
         tp_comments := replyCount tweet;
         tp_shares := retweetCount tweet;
         tp_views := if truthy (viewCount tweet) then viewCount tweet else VNum 0;
         tp_postedAt := createdAt tweet |}.

(** [input.sinceDays ? new Date(Date.now() - ...).toISOString().split('T')[0]
    : undefined] *)
Definition sinceDate (input : TwitterMonitorInput) : M (option string) :=
  match sinceDays input with
  | Some days =>
      if Qeq_bool days 0 then ret None
      else
        now <- DateNow ;;
        iso <- call (dateToISOString X
                       (inject_Z now - days * 24 * 60 * 60 * 1000)) ;;
        ret (match split "T" iso with
             | day :: _ => Some day
             | [] => None
             end)
  | None => ret None
  end.

Definition twitterMonitorNode_try
  (input : TwitterMonitorInput) (context : NodeExecutionContext)
  : M (Nodes.NodeExecutionResult TwitterMonitorOutput) :=
  match tw_keywords input with
  | None | Some [] =>
      ret (Nodes.Failure "No keywords provided for Twitter search")
  | Some keywords =>
      match Nodes.nonEmpty (twitterKey context) with
      | None =>
          ret (Nodes.Failure
            "Twitter API key not configured. Please provide context.credentials.twitter.twitterApiIoKey.")
      | Some apiKey =>
          since <- sinceDate input ;;
          let query :=
            SocialText.buildTwitterSearchQuery (numberToString X) keywords
              {| SocialText.opt_excludeRetweets :=
                   Some (match excludeRetweets input with
                         | Some b => b
                         | None => true
                         end);
                 SocialText.opt_minLikes := minLikes input;
                 SocialText.opt_since := since;
                 SocialText.opt_lang := lang input |} in
          response <- searchTwitter apiKey query "Latest" ;;
          posts <-
            forOf (sliceTo (orQ (tw_maxResults input) 50)
                     (Nodes.orNil (tweets response)))
              (fun tweet posts =>
                 post <- twitterPost tweet ;;
                 ret (posts ++ [post])%list)
              [] ;;
          ret (Nodes.Success
                 {| tw_posts := posts;
                    tw_totalFound := List.length posts;
                    hasMore := has_next_page response;
                    cursor := Nodes.nonEmpty (next_cursor response) |})
      end
  end.

Definition twitterMonitorNode_executor
  (input : TwitterMonitorInput) (context : NodeExecutionContext)
  : M (Nodes.NodeExecutionResult TwitterMonitorOutput) :=
  tryCatch (twitterMonitorNode_try input context)
    (fun error =>
       ret (Nodes.Failure (messageOr "Failed to monitor Twitter" error))).

(** **** linkedin-monitor.ts *)

Definition searchLinkedIn (apiKey keyword : string) (sortBy : option string)
  : M (list ForumScoutLinkedInPost) :=
  response <-
    Nodes.fetchWithRetry
      (fun k => linkedinSearch W k apiKey keyword (orS sortBy "date_posted")) ;;
  if negb (Nodes.ok response) then
    errorText <- await (Nodes.text response) ;;
    throw (JsError ("ForumScout API error: "
                    ++ Nodes.string_of_Z (Nodes.status response)
                    ++ " - " ++ errorText))
  else
    data <- await (Nodes.json response) ;;
    match data with
    | DataArray found => ret found
    | DataObject posts results data =>
        ret (match posts, results, data with
             | Some l, _, _ => l
             | None, Some l, _ => l
             | None, None, Some l => l
             | None, None, None => []
             end)
    | DataNull =>
        throw (JsError "Cannot read properties of null (reading 'posts')")
    end.

(** The callback of [.map((post, index) => ...)]. *)
Definition linkedinPost (post : ForumScoutLinkedInPost) (index : nat)
  : M LinkedInPost :=
  postId <-
    match Nodes.nonEmpty (orElse (fs_id post) (fs_urn post)) with
    | Some i => ret i
    | None =>
        now <- DateNow ;;
        ret ("linkedin-" ++ Nodes.string_of_Z (Z.of_nat index) ++ "-"
             ++ Nodes.string_of_Z now)
    end ;;
  let postUrl := orS (fs_url post) "" in
  let postText :=
    orS (orElse (fs_text post) (orElse (fs_content post) (fs_snippet post))) "" in
  let authorName := orS (orElse (fs_authorName post) (fs_author post)) "Unknown" in
  let authorUrl := orS (orElse (fs_authorUrl post) (fs_authorProfileUrl post)) "" in
  postedAt <-
    match Nodes.nonEmpty
            (orElse (fs_postedAt post)
               (orElse (fs_datePosted post)
                  (orElse (fs_postedDate post) (fs_date post)))) with
    | Some posted => ret posted
    | None =>
        now <- DateNow ;;
        call (dateToISOString X (inject_Z now))
    end ;;
  ret {| lp_id := postId;
         lp_platform := "linkedin";
         lp_url := postUrl;
         lp_text := postText;
         lp_authorName := authorName;
         lp_authorHandle := SocialText.extractHandleFromUrl (Some authorUrl);
         lp_authorUrl := authorUrl;
         lp_authorFollowers := orQ (fs_authorFollowers post) 0;
         lp_authorHeadline := fs_authorHeadline post;
         lp_likes :=
           orQ (fs_likes post) (orQ (fs_numLikes post) (orQ (fs_reactions post) 0));
         lp_comments := orQ (fs_comments post) (orQ (fs_numComments post) 0);
         lp_shares := orQ (fs_shares post) (orQ (fs_numShares post) 0);
         lp_hashtags :=
           match fs_hashtags post with
           | Some tags => tags
           | None => SocialText.extractHashtags postText
           end;
         lp_postedAt := postedAt |}.

(** [input.keywords.map(k => k.trim()).filter(Boolean)] *)
Definition validKeywords (keywords : list string) : list string :=
  filter (fun k => negb (String.eqb k "")) (map trim keywords).

Definition linkedinMonitorNode_try
  (input : LinkedInMonitorInput) (context : NodeExecutionContext)
  : M (Nodes.NodeExecutionResult LinkedInMonitorOutput) :=
  given <- defined "map" (li_keywords input) ;;
  let keywords := validKeywords given in
  if (List.length keywords =? 0)%nat then
    ret (Nodes.Failure "No valid keywords provided")
  else
    match Nodes.nonEmpty (forumScoutKey context) with
    | None =>
        ret (Nodes.Failure
          "ForumScout API key not configured. Please provide context.credentials.forumScout.apiKey.")
    | Some apiKey =>
        let searchKeyword := String.concat " " keywords in
        results <- searchLinkedIn apiKey searchKeyword (Some "date_posted") ;;
        indexed <-
          forOf (sliceTo (orQ (li_maxResults input) 50) results)
            (fun post (state : nat * list LinkedInPost) =>
               mapped <- linkedinPost post (fst state) ;;
               ret (S (fst state), (snd state ++ [mapped])%list))
            (0%nat, []) ;;
        let posts := snd indexed in
        ret (Nodes.Success
               {| li_posts := posts; li_totalFound := List.length posts |})
    end.

Definition linkedinMonitorNode_executor
  (input : LinkedInMonitorInput) (context : NodeExecutionContext)
  : M (Nodes.NodeExecutionResult LinkedInMonitorOutput) :=
  tryCatch (linkedinMonitorNode_try input context)
    (fun error =>
       ret (Nodes.Failure (messageOr "Failed to monitor LinkedIn" error))).

End Executors.

(** A post of the linkedin_monitor output whose identifier and author name
    are filled in and whose handle holds no separator. *)
Definition wellFormedPost (p : LinkedInPost) : Prop :=
  lp_id p <> "" /\ lp_authorName p <> "" /\
  occurs "/" (lp_authorHandle p) = false /\
  occurs "?" (lp_authorHandle p) = false.

End Social.

(* ================================================================== *)
(** ** Sample runs of the social monitors *)
(* ================================================================== *)

Module SocialSamples.

Import Social.

Definition externals : Externals :=
  {| numberToString := fun _ => "5";
     dateToISOString := fun _ => inr "2024-01-08T00:00:00.000Z" |}.

Definition tweet (i : string) (by_ : option TweetAuthor) : TwitterApiTweet :=
  {| tweet_id := VStr i; tweet_url := VStr ("https://x.com/i/" ++ i);
     tweet_text := VStr "shipping today"; retweetCount := VNum 1;
     replyCount := VNum 0; likeCount := VNum 7; viewCount := VUndefined;
     createdAt := VStr "Mon Jan 08 2024"; author := by_ |}.

Definition ann : TweetAuthor :=
  {| userName := Some "ann"; author_name := VStr "Ann"; followers := VNum 12 |}.

Definition forumPost (address profile : option string) : ForumScoutLinkedInPost :=
  {| fs_author := None; fs_date := None; fs_snippet := Some "We are #hiring";
     fs_url := address; fs_text := None; fs_content := None;
     fs_authorName := None; fs_authorUrl := profile;
     fs_authorProfileUrl := None; fs_authorHeadline := None;
     fs_authorFollowers := None; fs_likes := None; fs_numLikes := Some 3;
     fs_comments := None; fs_numComments := None; fs_shares := None;
     fs_numShares := None; fs_reactions := None; fs_postedAt := None;
     fs_datePosted := None; fs_postedDate := None; fs_hashtags := None;
     fs_id := None; fs_urn := None |}.

(** Three tweets are found and three posts, the posts wrapped in
    [results]. *)
Definition world : World :=
  {| twitterSearch := fun _ _ _ _ =>
       inr (Nodes.mkResponse true 200 (inr "")
              (inr {| tweets := Some [tweet "1" (Some ann); tweet "2" (Some ann);
                                      tweet "3" None];
                      has_next_page := VBool true;
                      next_cursor := Some "" |}));
     linkedinSearch := fun _ _ _ _ =>
       inr (Nodes.mkResponse true 200 (inr "")
              (inr (DataObject None
                      (Some [forumPost (Some "https://lnkd.in/p/1")
                               (Some "https://www.linkedin.com/in/jane-doe/");
                             forumPost None None;
                             forumPost None None])
                      None)));
     clock := fun _ => 1700000000000%Z |}.

Definition context : NodeExecutionContext :=
  {| credentials :=
       Some {| twitter := Some (mkTwitterCredentials (Some "tw-test"));
               forumScout := Some (mkForumScoutCredentials (Some "fs-test")) |} |}.

Definition twitterInput : TwitterMonitorInput :=
  {| tw_keywords := Some ["typescript"; "node js"]; excludeRetweets := None;
     minLikes := None; tw_maxResults := Some 2; lang := Some "en";
     sinceDays := Some 7 |}.

Definition linkedinInput : LinkedInMonitorInput :=
  {| li_keywords := Some [" hiring "; "  "; "remote"]; timeFilter := None;
     li_maxResults := Some 2 |}.

End SocialSamples.

(* ================================================================== *)
(** ** The execute route of the web playground
       (packages/playground-web/src/app/api/execute/route.ts) *)
(* ================================================================== *)

Module Route.

(** The context the handler builds; [resolveNestedPath] is
    [ExecutionContext.resolveNestedPath] on its [variables]. A service is
    the placeholder object or [undefined]. *)
Record NodeExecutionContext : Type := mkContext {
  userId : string;
  workflowExecutionId : string;
  variables : obj;
  services : obj
}.

(** What the handler uses of a node definition: [inputSchema.parse], which
    returns or throws, the output schema and the executor. *)
Record NodeDefinition : Type := mkNode {
  parse : value -> exn + value;
  outputSchema : ZodType;
  executor : value -> NodeExecutionContext -> M value
}.

(** [const { nodeType, input, credentials, mockMode } = await request.json()] *)
Record RequestBody : Type := mkBody {
  nodeType : value;
  input : value;
  credentials : value;
  mockMode : value
}.

(** [NextResponse.json(body, { status })], the status 200 when not given. *)
Record NextResponse : Type := mkNextResponse {
  body : value;
  status : Z
}.

(** A placeholder service object; its members are functions. *)
Definition placeholder : value := VObj [].

(** [credentials.name ? { ... } : undefined] *)
Definition service (credentials : value) (name : string) : value :=
  match get_prop credentials name with
  | inr member => if truthy member then placeholder else VUndefined
  | inl _ => VUndefined
  end.

Definition createServices (credentials : value) : obj :=
  [ ("apollo", service credentials "apollo");
    ("forumScout", service credentials "forumscout");
    ("twitter", service credentials "twitter");
    ("openai", service credentials "openai");
    ("anthropic", service credentials "anthropic");
    ("dataForSeo", service credentials "dataforseo") ].

Definition failure (message : string) : value :=
  VObj [("success", VBool false); ("error", VStr message)].

Section Handler.

(** [registry.getDefinition], the conversion of a value that is not a
    string to a string (which throws a TypeError for an object that cannot
    be converted, such as one with an own member [toString] that is no
    function), the time the module of the mock outputs was loaded, and the
    clock. *)
Variable getDefinition : value -> option NodeDefinition.
Variable ToString : value -> exn + string.
Variable loadTime : string.
Variable clock : nat -> Z.

(** [`${v}`], and [v] as a property key. *)
Definition text (v : value) : exn + string :=
  match v with
  | VStr s => inr s
  | _ => ToString v
  end.

(** [Date.now()] *)
Definition DateNow : M Z :=
  fun st =>
    (Resolved (clock (clockReads st)),
     mkSt (fetches st) (S (clockReads st)) (slept st)).

(** The body of the handler's [try]; [requested] is what awaiting
    [request.json()] and taking it apart gives or throws. *)
Definition POST_try (requested : exn + RequestBody) : M NextResponse :=
  request <- await requested ;;
  match getDefinition (nodeType request) with
  | None =>
      named <- call (text (nodeType request)) ;;
      ret (mkNextResponse (failure ("Node not found: " ++ named)) 404)
  | Some node =>
      if truthy (mockMode request) then
        key <- call (text (nodeType request)) ;;
        let mockOutput :=
          WebUtils.getMockOutput loadTime key (outputSchema node) in
        ret (mkNextResponse
               (VObj [("success", VBool true); ("output", mockOutput)]) 200)
      else
        match parse node (input request) with
        | inl zodError =>
            ret (mkNextResponse
                   (failure ("Invalid input: "
                             ++ messageOr "Validation failed" zodError)) 400)
        | inr validatedInput =>
            now <- DateNow ;;
            let context :=
              {| userId := "playground";
                 workflowExecutionId := "playground_" ++ Nodes.string_of_Z now;
                 variables := [];
                 services :=
                   createServices (if truthy (credentials request)
                                   then credentials request
                                   else VObj []) |} in
            result <- executor node validatedInput context ;;
            ret (mkNextResponse result 200)
        end
  end.

Definition POST (requested : exn + RequestBody) : M NextResponse :=
  tryCatch (POST_try requested)
    (fun error =>
       ret (mkNextResponse (failure (messageOr "Unknown error" error)) 500)).

End Handler.

(** Every executor of the registry settles. *)
Definition executorsSettle (getDefinition : value -> option NodeDefinition) : Prop :=
  forall nodeType node validatedInput context,
    getDefinition nodeType = Some node ->
    Properties.settles (executor node validatedInput context).

End Route.

(* ================================================================== *)
(** ** A sample registry for the execute route *)
(* ================================================================== *)

Module RouteSamples.

(** A node that takes an object and reports the services it was given. *)
Definition echo : Route.NodeDefinition :=
  {| Route.parse := fun given =>
       match given with
       | VObj _ => inr given
       | _ => inl (JsError "Expected object")
       end;
     Route.outputSchema := z (ZodObject [("done", z ZodBoolean)]);
     Route.executor := fun validatedInput context =>
       ret (VObj [("success", VBool true);
                  ("output", VObj (Route.services context))]) |}.

Definition getDefinition (nodeType : value) : option Route.NodeDefinition :=
  match nodeType with
  | VStr s => if String.eqb s "echo" then Some echo else None
  | _ => None
  end.

(** The conversion to a string, as in [FormSamples.ToString]. *)
Definition ToString (v : value) : exn + string := FormSamples.ToString v.

Definition clock (k : nat) : Z := 1700000000000%Z.

(** A request for a node type that no conversion turns into a string. *)
Definition unnamed : Route.RequestBody :=
  {| Route.nodeType := VObj [("toString", VNum 1)];
     Route.input := VObj [];
     Route.credentials := VUndefined;
     Route.mockMode := VUndefined |}.

Definition request (mockMode : bool) (given : value) : Route.RequestBody :=
  {| Route.nodeType := VStr "echo";
     Route.input := given;
     Route.credentials := VObj [("forumScout", VObj [("apiKey", VStr "k")])];
     Route.mockMode := VBool mockMode |}.

End RouteSamples.

(* ================================================================== *)
(** ** Listing the nodes by category
       (the list command of the CLI playground, and
        packages/playground-web/src/components/Sidebar.tsx) *)
(* ================================================================== *)

Module Listing.

Record NodeMetadata : Type := mkMetadata {
  type : string;
  name : string;
  description : string;
  category : string
}.

(** The object [byCategory] / [groupedNodes]: its own properties, each an
    array of nodes. *)
Definition Groups : Type := list (string * list NodeMetadata).

(** [acc[key]], for a key that names no member of [Object.prototype]: none
    of the four categories does. *)
Fixpoint lookup (acc : Groups) (key : string) : option (list NodeMetadata) :=
  match acc with
  | [] => None
  | (k, nodes) :: rest => if String.eqb k key then Some nodes else lookup rest key
  end.

(** [acc[key] = nodes] *)
Fixpoint assign (acc : Groups) (key : string) (nodes : list NodeMetadata)
  : Groups :=
  match acc with
  | [] => [(key, nodes)]
  | (k, old) :: rest =>
      if String.eqb k key then (k, nodes) :: rest
      else (k, old) :: assign rest key nodes
  end.

(** The callback of the [reduce]:
    [if (!acc[cat]) acc[cat] = []; acc[cat].push(node); return acc]. *)
Definition group (acc : Groups) (node : NodeMetadata) : Groups :=
  let cat := category node in
  let acc :=
    match lookup acc cat with
    | None => assign acc cat []
    | Some _ => acc
    end in
  match lookup acc cat with
  | Some nodes => assign acc cat (nodes ++ [node])
  | None => acc
  end.

Definition categories : list string :=
  ["logic"; "transform"; "integration"; "action"].

(** The nodes are typed: [NodeCategory] is the union of the four names, so
    the category of a node is one of them. *)
Definition typed (nodes : list NodeMetadata) : Prop :=
  Forall (fun node => In (category node) categories) nodes.

(** The sections that are displayed, in order: for each of the four
    categories whose group exists and is not empty, the category and its
    nodes. *)
Definition sections (nodes : list NodeMetadata) : list (string * list NodeMetadata) :=
  let byCategory := fold_left group nodes [] in
  flat_map
    (fun category =>
       match lookup byCategory category with
       | Some (node :: more) => [(category, node :: more)]
       | _ => []
       end)
    categories.


(** [filteredNodes] of the sidebar. *)
Definition filteredNodes (search categoryFilter : string) (nodes : list NodeMetadata)
  : list NodeMetadata :=
  filter
    (fun node =>
       let matchesSearch :=
         String.eqb search ""
         || includes (toLowerCase (name node)) (toLowerCase search)
         || includes (toLowerCase (type node)) (toLowerCase search)
         || includes (toLowerCase (description node)) (toLowerCase search) in
       let matchesCategory :=
         String.eqb categoryFilter "all"
         || String.eqb (category node) categoryFilter in
       matchesSearch && matchesCategory)
    nodes.

(** The nodes of a category, in the order given. *)
Definition ofCategory (wanted : string) (nodes : list NodeMetadata)
  : list NodeMetadata :=
  filter (fun node => String.eqb (category node) wanted) nodes.

End Listing.

(* ================================================================== *)
(** ** Video generation
       (packages/nodes/src/integrations/openai/sora-video.ts) *)
(* ================================================================== *)

Module Sora.

Record OpenAICredentials : Type := mkOpenAICredentials {
  apiKey : option string
}.

Record Credentials : Type := mkCredentials {
  openai : option OpenAICredentials
}.

Record NodeExecutionContext : Type := mkContext {
  credentials : option Credentials
}.

(** [context.credentials?.openai?.apiKey] *)
Definition openaiKey (context : NodeExecutionContext) : option string :=
  match credentials context with
  | Some c => match openai c with Some o => apiKey o | None => None end
  | None => None
  end.

Record SoraVideoCreateResponse : Type := mkCreateResponse {
  create_id : option string;
  create_status : option string
}.

Record VideoOutput : Type := mkVideoOutput { url : option string }.

Record VideoError : Type := mkVideoError { message : option string }.

Record SoraVideoStatusResponse : Type := mkStatusResponse {
  status_id : option string;
  status : option string;
  output : option VideoOutput;
  error : option VideoError
}.

Record SoraVideoInput : Type := mkInput {
  prompt : string;
  model : option string;
  seconds : option Q;
  size : option string
}.

Record CreateParams : Type := mkParams {
  p_prompt : string;
  p_model : string;
  p_seconds : Q;
  p_size : string
}.

Record Video : Type := mkVideo {
  video_url : string;
  durationSeconds : Q;
  video_size : string;
  video_model : string
}.

Record SoraVideoOutput : Type := mkOutput {
  video : Video;
  processingTimeSeconds : Z
}.

(** Each request is answered by the endpoint it addresses, given the number
    of requests made before it in the run and what the request carries (for
    the creation: the key and the four fields of the form; for the status:
    the key and the identifier in the address). [clock k] is the [k]-th
    reading of the clock. *)
Record World : Type := mkWorld {
  videoCreate :
    nat -> string -> string -> string -> string -> string
    -> exn + Nodes.Response SoraVideoCreateResponse;
  videoStatus :
    nat -> string -> option string
    -> exn + Nodes.Response SoraVideoStatusResponse;
  clock : nat -> Z
}.

Section Executor.

(** [n.toString()] *)
Variable numberToString : Q -> string.
Variable W : World.

(** [Date.now()] *)
Definition DateNow : M Z :=
  fun st =>
    (Resolved (clock W (clockReads st)),
     mkSt (fetches st) (S (clockReads st)) (slept st)).

Definition createSoraVideo (apiKey : string) (params : CreateParams)
  : M SoraVideoCreateResponse :=
  response <-
    Nodes.fetchWithRetry
      (fun k => videoCreate W k apiKey (p_prompt params) (p_model params)
                  (numberToString (p_seconds params)) (p_size params)) ;;
  if negb (Nodes.ok response) then
    errorText <- await (Nodes.text response) ;;
    throw (JsError ("OpenAI API error: " ++ Nodes.string_of_Z (Nodes.status response)
                    ++ " - " ++ errorText))
  else await (Nodes.json response).

Definition getSoraVideoStatus (apiKey : string) (videoId : option string)
  : M SoraVideoStatusResponse :=
  response <- Nodes.fetchWithRetry (fun k => videoStatus W k apiKey videoId) ;;
  if negb (Nodes.ok response) then
    errorText <- await (Nodes.text response) ;;
    throw (JsError ("OpenAI API error: " ++ Nodes.string_of_Z (Nodes.status response)
                    ++ " - " ++ errorText))
  else await (Nodes.json response).

(** [status.status === expected] *)
Definition statusIs (response : SoraVideoStatusResponse) (expected : string) : bool :=
  match status response with
  | Some s => String.eqb s expected
  | None => false
  end.

(** The loop [while (Date.now() - startTime < maxWaitMs)] of
    [waitForVideoCompletion]. [rounds] bounds the number of rounds the model
    follows; the loop is [Pending] beyond it. *)
Fixpoint poll (rounds : nat) (apiKey : string) (videoId : option string)
  (startTime maxWaitMs : Z) : M SoraVideoStatusResponse :=
  now <- DateNow ;;
  if (now - startTime <? maxWaitMs)%Z then
    match rounds with
    | O => diverge
    | S rounds' =>
        response <- getSoraVideoStatus apiKey videoId ;;
        if statusIs response "completed" then ret response
        else if statusIs response "failed" then
          throw (JsError
                   (orS (match error response with
                         | Some e => message e
                         | None => None
                         end) "Video generation failed"))
        else
          _ <- sleep 5000 ;;
          poll rounds' apiKey videoId startTime maxWaitMs
    end
  else throw (JsError "Video generation timed out").

Definition waitForVideoCompletion (rounds : nat) (apiKey : string)
  (videoId : option string) (maxWaitMs : Z) : M SoraVideoStatusResponse :=
  startTime <- DateNow ;;
  poll rounds apiKey videoId startTime maxWaitMs.

Definition soraVideoNode_try (rounds : nat)
  (input : SoraVideoInput) (context : NodeExecutionContext)
  : M (Nodes.NodeExecutionResult SoraVideoOutput) :=
  match Nodes.nonEmpty (openaiKey context) with
  | None =>
      ret (Nodes.Failure
        "OpenAI API key not configured. Please provide context.credentials.openai.apiKey.")
  | Some apiKey =>
      startTime <- DateNow ;;
      createResponse <-
        createSoraVideo apiKey
          {| p_prompt := prompt input;
             p_model := orS (model input) "sora-2";
             p_seconds := Social.orQ (seconds input) 4;
             p_size := orS (size input) "1280x720" |} ;;
      completedVideo <-
        waitForVideoCompletion rounds apiKey (create_id createResponse) 300000 ;;
      finished <- DateNow ;;
      let processingTimeSeconds :=
        Nodes.round (inject_Z (finished - startTime) / 1000) in
      match Nodes.nonEmpty (match output completedVideo with
                            | Some o => url o
                            | None => None
                            end) with
      | None =>
          ret (Nodes.Failure "Video generation completed but no URL returned")
      | Some videoUrl =>
          ret (Nodes.Success
                 {| video :=
                      {| video_url := videoUrl;
                         durationSeconds := Social.orQ (seconds input) 4;
                         video_size := orS (size input) "1280x720";
                         video_model := orS (model input) "sora-2" |};
                    processingTimeSeconds := processingTimeSeconds |})
      end
  end.

Definition soraVideoNode_executor (rounds : nat)
  (input : SoraVideoInput) (context : NodeExecutionContext)
  : M (Nodes.NodeExecutionResult SoraVideoOutput) :=
  tryCatch (soraVideoNode_try rounds input context)
    (fun error =>
       ret (Nodes.Failure (messageOr "Failed to generate video" error))).

End Executor.

(** The clock passes the deadline of the wait (300000 ms after the wait's
    first reading, which is the second reading of the run) at the latest
    with the [polls]-th check of the loop. *)
Definition deadlinePasses (W : World) (st : St) (polls : nat) : Prop :=
  (300000 <= clock W (clockReads st + 2 + polls) - clock W (clockReads st + 1))%Z.

End Sora.

Module SoraSamples.

(** The video is created, is in progress at the first poll and completed at
    the second; the clock advances by a second with every reading. *)
Definition world : Sora.World :=
  {| Sora.videoCreate := fun _ _ _ _ _ _ =>
       inr (Nodes.mkResponse true 200 (inr "")
              (inr (Sora.mkCreateResponse (Some "video_1") (Some "pending"))));
     Sora.videoStatus := fun k _ _ =>
       inr (Nodes.mkResponse true 200 (inr "")
              (inr (match k with
                    | 1%nat =>
                        Sora.mkStatusResponse (Some "video_1") (Some "processing")
                          None None
                    | _ =>
                        Sora.mkStatusResponse (Some "video_1") (Some "completed")
                          (Some (Sora.mkVideoOutput (Some "https://cdn/video_1.mp4")))
                          None
                    end)));
     Sora.clock := fun k => (1700000000000 + 1000 * Z.of_nat k)%Z |}.

Definition context : Sora.NodeExecutionContext :=
  {| Sora.credentials :=
       Some {| Sora.openai := Some (Sora.mkOpenAICredentials (Some "sk-test")) |} |}.

Definition input : Sora.SoraVideoInput :=
  {| Sora.prompt := "A serene ocean sunset"; Sora.model := None;
     Sora.seconds := Some 8; Sora.size := None |}.

End SoraSamples.

(* ================================================================== *)
(** ** Mock synthesis *)
(* ================================================================== *)

(** Mock synthesis gives the same value for a description and for what is
    left of it once the Optional and Nullable wrappers are gone. *)
Lemma generateFromDef_mockInspects (t : ZodType) :
  MockGenerator.generateFromDef (_def t)
  = MockGenerator.generateFromDef (mockInspects (_def t)).
Proof.
  revert t.
  fix IH 1.
  intros [descr d]; destruct d; try reflexivity; simpl; apply IH.
Qed.

(** C2, as stated, fails for the web playground's generator: for an array of
    strings it returns one item, not two. *)
Lemma C2_web_array_has_one_item :
  ~ twoItems WebUtils.generateFromDef (z ZodString).
Proof.
  unfold twoItems; simpl; discriminate.
Qed.

(** C2 (amended): for every Array(item) schema node the CLI playground's
    mock synthesis returns exactly two items, each the synthesis of the item
    schema, and the web playground's mock synthesis returns exactly one. *)
Theorem C2_array_items :
  forall item : ZodType,
    twoItems MockGenerator.generateFromDef item /\
    WebUtils.generateFromDef (ZodArray item)
    = VArr [WebUtils.generateFromDef (_def item)].
Proof.
  intro item; split; reflexivity.
Qed.

(** C3, as stated, fails for the CLI playground's override table: the mock
    of [reddit_monitor] carries the time of the call, so two calls made at
    different times differ. *)
Lemma C3_reddit_mock_depends_on_clock :
  ~ sameOutput (fun _ => "2024-01-01T00:00:00.000Z")
               (fun _ => "2024-01-02T00:00:00.000Z")
               "reddit_monitor" (z ZodNull).
Proof.
  unfold sameOutput; cbv; discriminate.
Qed.

(** Reading a name the object has no property of. *)
Lemma obj_get_absent (o : obj) (k : string) :
  ~ In k (map fst o) -> obj_get o k = VUndefined.
Proof.
  induction o as [| [k0 v0] o IH]; simpl; intro Hk; [reflexivity |].
  destruct (String.eqb_spec k0 k) as [-> | Hne]; [exfalso; auto |].
  apply IH; intro Hin; apply Hk; right; exact Hin.
Qed.

(** A description agrees with itself: two calls to which every thunk
    returns the same value find the same description. *)
Lemma sameCalls_refl : forall d, sameCalls d d.
Proof.
  fix IH 1.
  intro d; destruct d; simpl; try reflexivity; try apply IH.
  - induction shape as [| [k [descr dk]] shape IHs]; simpl; [exact I |].
    split; [reflexivity | split; [apply IH | exact IHs]].
  - destruct options as [| [descr d1] rest]; [exact I | apply IH].
  - destruct options as [| [k [descr d1]] rest]; [exact I | apply IH].
  - induction items as [| [descr dk] items IHs]; simpl; [exact I |].
    split; [apply IH | exact IHs].
Qed.

(** Schema-driven synthesis depends on the description only where
    [sameCalls] compares it. *)
Lemma sameCalls_generate :
  forall d d',
    sameCalls d d' ->
    MockGenerator.generateFromDef d = MockGenerator.generateFromDef d' /\
    WebUtils.generateFromDef d = WebUtils.generateFromDef d'.
Proof.
  fix IH 1.
  intros d d' H; destruct d; destruct d'; simpl in H;
    try discriminate H; try (inversion H; subst; split; reflexivity).
  all: try (destruct (IH _ _ H) as [Hcli Hweb]; split; simpl; congruence).
  - (* ZodObject *)
    assert (Hfold : forall acc acc' : obj,
               fold_left
                 (fun result entry =>
                    obj_set result (fst entry)
                      (MockGenerator.generateFromDef (_def (snd entry))))
                 shape acc
               = fold_left
                   (fun result entry =>
                      obj_set result (fst entry)
                        (MockGenerator.generateFromDef (_def (snd entry))))
                   shape0 acc /\
               fold_left
                 (fun result entry =>
                    obj_set result (fst entry)
                      (WebUtils.generateFromDef (_def (snd entry))))
                 shape acc'
               = fold_left
                   (fun result entry =>
                      obj_set result (fst entry)
                        (WebUtils.generateFromDef (_def (snd entry))))
                   shape0 acc').
    { revert shape0 H.
      induction shape as [| [key [descr dk]] shape IHs];
        intros [| [key' [descr' dk']] shape0] H acc acc';
        try contradiction; [split; reflexivity |].
      destruct H as [<- [Hfield Hrest]].
      destruct (IH dk dk' Hfield) as [Hcli Hweb].
      simpl; rewrite Hcli, Hweb.
      apply IHs, Hrest. }
    destruct (Hfold [] []) as [Hcli Hweb].
    split; simpl; f_equal; assumption.
  - (* ZodUnion *)
    destruct options as [| [descr d1] rest];
      destruct options0 as [| [descr' d1'] rest']; try contradiction;
      [split; reflexivity |].
    destruct (IH d1 d1' H) as [Hcli _]; split; [exact Hcli | reflexivity].
  - (* ZodDiscriminatedUnion *)
    destruct options as [| [k [descr d1]] rest];
      destruct options0 as [| [k' [descr' d1']] rest']; try contradiction;
      [split; reflexivity |].
    destruct (IH d1 d1' H) as [Hcli _]; split; [exact Hcli | reflexivity].
  - (* ZodTuple *)
    split; [| reflexivity].
    simpl; f_equal.
    revert items0 H.
    induction items as [| [descr dk] items IHs];
      intros [| [descr' dk'] items0] H; try contradiction; [reflexivity |].
    destruct H as [Hitem Hrest].
    destruct (IH dk dk' Hitem) as [Hcli _].
    simpl; rewrite Hcli; f_equal; apply IHs, Hrest.
Qed.

(** C3 (amended): two calls of the CLI playground's [generateMockOutput]
    with the same node type and schema return structurally equal output
    when the node type is neither [reddit_monitor] nor [twitter_monitor], or
    the two calls read the same times from the clock, and every
    [defaultValue] thunk that synthesis calls returns the same value to both
    calls ([seen] and [seen'] are the descriptions the two calls find in the
    schema). Under the same condition on the node type, or when the override
    table was built at the same time, and the same condition on the thunks,
    so do two calls of the web playground's [getMockOutput], whose table is
    built once, when the module is loaded. The condition on the thunks
    cannot be dropped: for a node type without an override (and naming no
    member of [Object.prototype]) and a Default schema, the two outputs are
    equal exactly when the thunk returned the same value to both calls. *)
Theorem C3_mock_output_deterministic :
  (forall (now now' : nat -> string) (loadTime loadTime' : string)
          (nodeType : string) (seen seen' : ZodType),
     sameCalls (_def seen) (_def seen') ->
     (nodeType <> "reddit_monitor" /\ nodeType <> "twitter_monitor") \/
     (now 0%nat = now' 0%nat /\ now 1%nat = now' 1%nat /\ loadTime = loadTime') ->
     MockGenerator.generateMockOutput now nodeType seen
     = MockGenerator.generateMockOutput now' nodeType seen' /\
     WebUtils.getMockOutput loadTime nodeType seen
     = WebUtils.getMockOutput loadTime' nodeType seen') /\
  (forall (now now' : nat -> string) (nodeType : string)
          (inner inner' : ZodType) (returned returned' : value),
     ~ In nodeType (map fst (MockGenerator.customMocks now)) ->
     ~ In nodeType inheritedNames ->
     (MockGenerator.generateMockOutput now nodeType (z (ZodDefault inner returned))
      = MockGenerator.generateMockOutput now' nodeType
          (z (ZodDefault inner' returned'))
      <-> returned = returned')).
Proof.
  split.
  - intros now now' loadTime loadTime' nodeType seen seen' Hcalls Hclock.
    destruct (sameCalls_generate _ _ Hcalls) as [Hcli Hweb].
    unfold MockGenerator.generateMockOutput, WebUtils.getMockOutput,
      MockGenerator.generateMockFromSchema, WebUtils.generateMockFromSchema.
    rewrite Hcli, Hweb.
    destruct Hclock as [[Hr Ht] | [H0 [H1 Hl]]].
    + split.
      * unfold MockGenerator.customMocks.
        cbn [obj_get].
        repeat match goal with
               | |- context [String.eqb ?k nodeType] =>
                   let E := fresh "E" in
                   destruct (String.eqb k nodeType) eqn:E;
                   [ try reflexivity;
                     apply String.eqb_eq in E; symmetry in E; contradiction
                   | ]
               end.
        reflexivity.
      * unfold WebUtils.MOCK_OUTPUTS.
        cbn [obj_get].
        repeat match goal with
               | |- context [String.eqb ?k nodeType] =>
                   let E := fresh "E" in
                   destruct (String.eqb k nodeType) eqn:E;
                   [ try reflexivity;
                     apply String.eqb_eq in E; symmetry in E; contradiction
                   | ]
               end.
        reflexivity.
    + split.
      * unfold MockGenerator.customMocks.
        rewrite H0, H1; reflexivity.
      * rewrite Hl; reflexivity.
  - intros now now' nodeType inner inner' returned returned' Hplain _.
    assert (Hnone : forall clock,
               obj_get (MockGenerator.customMocks clock) nodeType = VUndefined).
    { intro clock; apply obj_get_absent.
      intro Hin; apply Hplain; exact Hin. }
    unfold MockGenerator.generateMockOutput.
    rewrite !Hnone; simpl.
    reflexivity.
Qed.

(** The theorem at a node type without a clock reading, at clocks that
    agree on the two readings a call takes, and at a schema whose default
    is the time of the call. *)
Lemma C3_mock_output_deterministic_witness :
  sameOutput (fun _ => "2024-01-01T00:00:00.000Z")
             (fun _ => "2024-01-02T00:00:00.000Z")
             "search_contacts" (z ZodNull)
  /\ sameOutput (fun _ => "2024-01-01T00:00:00.000Z")
                (fun k => if (k <? 2)%nat then "2024-01-01T00:00:00.000Z" else "later")
                "twitter_monitor" (z ZodNull)
  /\ WebUtils.getMockOutput "2024-01-01T00:00:00.000Z" "delay" (z ZodNumber)
     = WebUtils.getMockOutput "2024-01-02T00:00:00.000Z" "delay" (z ZodNumber)
  /\ MockGenerator.generateMockOutput (fun _ => "2024-01-01T00:00:00.000Z")
       "stamp" (z (ZodDefault (z ZodString) (VStr "2024-01-01T00:00:00.000Z")))
     <> MockGenerator.generateMockOutput (fun _ => "2024-01-02T00:00:00.000Z")
          "stamp" (z (ZodDefault (z ZodString) (VStr "2024-01-02T00:00:00.000Z"))).
Proof.
  destruct C3_mock_output_deterministic as [Hsame Hthunk].
  split; [| split; [| split]].
  - apply (Hsame
             (fun _ => "2024-01-01T00:00:00.000Z")
             (fun _ => "2024-01-02T00:00:00.000Z") "" "").
    + reflexivity.
    + left; split; discriminate.
  - apply (Hsame
             (fun _ => "2024-01-01T00:00:00.000Z")
             (fun k => if (k <? 2)%nat then "2024-01-01T00:00:00.000Z" else "later")
             "" "").
    + reflexivity.
    + right; repeat split.
  - apply (Hsame (fun _ => "") (fun _ => "")
             "2024-01-01T00:00:00.000Z" "2024-01-02T00:00:00.000Z"
             "delay" (z ZodNumber) (z ZodNumber)).
    + reflexivity.
    + left; split; discriminate.
  - intro Hequal.
    apply (Hthunk (fun _ => "2024-01-01T00:00:00.000Z")
             (fun _ => "2024-01-02T00:00:00.000Z") "stamp"
             (z ZodString) (z ZodString)
             (VStr "2024-01-01T00:00:00.000Z") (VStr "2024-01-02T00:00:00.000Z"))
      in Hequal.
    + discriminate Hequal.
    + simpl; intuition discriminate.
    + unfold inheritedNames; simpl; intuition discriminate.
Defined.

(* ================================================================== *)
(** ** Field derivation *)
(* ================================================================== *)

(** C1, as stated, fails: for a Nullable(Number) field the two field
    derivations classify the Nullable node itself, while mock synthesis
    looks through it at the Number. *)
Lemma C1_nullable_not_unwrapped_by_fields :
  ~ (forall d : ZodDef, isWrapper d = true -> unwrapIdentically d).
Proof.
  intro H.
  destruct (H (ZodNullable (z ZodNumber)) eq_refl) as [Hfield _].
  discriminate Hfield.
Qed.

(** C1 (amended): field derivation strips one wrapper, and only Optional or
    Default; mock synthesis follows Optional and Nullable to the end and
    answers Default(t, v) with v. For a field Optional(t) or Default(t, v)
    whose inner type t is not itself a wrapper, the two traversals agree:
    the field is not required, it is classified on t, mock synthesis of
    Optional(t) is the synthesis of t, and the default value of Default(t, v)
    is v on both sides (the web form replaces an undefined default by an
    example value). A Nullable(t) field is not unwrapped by field derivation:
    it is required and classified as text, whereas mock synthesis
    synthesizes t. *)
Theorem C1_wrappers_in_both_traversals :
  forall (nowISO prefix key : string) (descr : option string)
         (t : ZodType) (v : value),
    isWrapper (_def t) = false ->
    let optional := Schema descr (ZodOptional t) in
    let defaulted := Schema descr (ZodDefault t v) in
    let nullable := Schema descr (ZodNullable t) in
    (* Optional(t) *)
    (unwrapIdentically (_def optional) /\
     mockInspects (_def optional) = _def t /\
     InputForm.required (InputForm.fieldOf nowISO key optional) = false /\
     InputForm.type (InputForm.fieldOf nowISO key optional)
     = fst (InputForm.fieldTypeOf (_def t)) /\
     Prompts.required (Prompts.promptOfField prefix key optional) = false /\
     Prompts.type (Prompts.promptOfField prefix key optional)
     = fst (Prompts.promptTypeOf (_def t)) /\
     MockGenerator.generateFromDef (_def optional)
     = MockGenerator.generateFromDef (_def t)) /\
    (* Default(t, v) *)
    (unwrapIdentically (_def defaulted) /\
     fieldInspects (_def defaulted) = _def t /\
     promptInspects (_def defaulted) = _def t /\
     InputForm.required (InputForm.fieldOf nowISO key defaulted) = false /\
     InputForm.type (InputForm.fieldOf nowISO key defaulted)
     = fst (InputForm.fieldTypeOf (_def t)) /\
     Prompts.required (Prompts.promptOfField prefix key defaulted) = false /\
     Prompts.type (Prompts.promptOfField prefix key defaulted)
     = fst (Prompts.promptTypeOf (_def t)) /\
     Prompts.default (Prompts.promptOfField prefix key defaulted) = v /\
     (InputForm.is_undefined v = false ->
      InputForm.default (InputForm.fieldOf nowISO key defaulted) = v) /\
     MockGenerator.generateFromDef (_def defaulted) = v) /\
    (* Nullable(t) *)
    (~ unwrapIdentically (_def nullable) /\
     fieldInspects (_def nullable) = ZodNullable t /\
     promptInspects (_def nullable) = ZodNullable t /\
     mockInspects (_def nullable) = _def t /\
     InputForm.required (InputForm.fieldOf nowISO key nullable) = true /\
     InputForm.type (InputForm.fieldOf nowISO key nullable) = InputForm.text /\
     Prompts.required (Prompts.promptOfField prefix key nullable) = true /\
     Prompts.type (Prompts.promptOfField prefix key nullable) = Prompts.input /\
     MockGenerator.generateFromDef (_def nullable)
     = MockGenerator.generateFromDef (_def t)).
Proof.
  intros nowISO prefix key descr [dt d] v Hw; simpl in Hw.
  assert (Hm : mockInspects d = d) by (destruct d; try reflexivity; discriminate).
  cbv zeta.
  split; [| split].
  - unfold unwrapIdentically, fieldInspects, promptInspects; simpl.
    rewrite Hm.
    repeat split; unfold InputForm.fieldOf, Prompts.promptOfField; simpl;
      try (destruct (InputForm.fieldTypeOf d); reflexivity);
      try (destruct (Prompts.promptTypeOf d); reflexivity).
  - unfold unwrapIdentically, fieldInspects, promptInspects; simpl.
    repeat split; unfold InputForm.fieldOf, Prompts.promptOfField; simpl;
      try (destruct (InputForm.fieldTypeOf d); reflexivity);
      try (destruct (Prompts.promptTypeOf d); reflexivity).
    intro Hv; destruct (InputForm.fieldTypeOf d); simpl; rewrite Hv; reflexivity.
  - unfold unwrapIdentically, fieldInspects, promptInspects; simpl.
    rewrite Hm.
    split; [| repeat split].
    intros [Hfield _]; destruct d; discriminate.
Qed.

(** The theorem at a [limit] field of inner type Number. *)
Lemma C1_wrappers_in_both_traversals_witness :
  InputForm.type
    (InputForm.fieldOf "2024-01-01T00:00:00.000Z" "limit"
       (z (ZodOptional (z ZodNumber))))
  = InputForm.number
  /\ InputForm.default
       (InputForm.fieldOf "2024-01-01T00:00:00.000Z" "limit"
          (z (ZodDefault (z ZodNumber) (VNum 10))))
     = VNum 10
  /\ InputForm.type
       (InputForm.fieldOf "2024-01-01T00:00:00.000Z" "limit"
          (z (ZodNullable (z ZodNumber))))
     = InputForm.text.
Proof.
  pose proof (C1_wrappers_in_both_traversals
                "2024-01-01T00:00:00.000Z" "" "limit" None
                (z ZodNumber) (VNum 10) eq_refl) as H.
  cbv zeta in H.
  destruct H as [Hopt [Hdef Hnull]].
  split; [| split].
  - apply Hopt.
  - apply Hdef; reflexivity.
  - apply Hnull.
Defined.

(** C5: field derivation (the web form's [extractFieldsFromSchema] and the
    CLI's [generatePromptsFromSchema]) returns the empty sequence for every
    root that is not an Object; for the Object schema with fields
    a: Optional(Number), b: String it returns exactly two descriptors, in
    declaration order a then b, a not required and b required. *)
Theorem C5_field_derivation :
  (forall (nowISO prefix : string) (schema : ZodType),
     match _def schema with
     | ZodObject _ => True
     | _ =>
         InputForm.extractFieldsFromSchema nowISO schema = [] /\
         Prompts.generatePromptsFromSchema schema prefix = []
     end) /\
  (forall (nowISO : string) (descr da db : option string),
     let schema :=
       Schema descr
         (ZodObject [("a", Schema da (ZodOptional (z ZodNumber)));
                     ("b", Schema db ZodString)]) in
     map (fun f => (InputForm.name f, InputForm.required f))
         (InputForm.extractFieldsFromSchema nowISO schema)
     = [("a", false); ("b", true)] /\
     map (fun p => (Prompts.name p, Prompts.required p))
         (Prompts.generatePromptsFromSchema schema "")
     = [("a", false); ("b", true)]).
Proof.
  split.
  - intros nowISO prefix [descr d]; destruct d; simpl; auto.
  - intros nowISO descr da db; split; reflexivity.
Qed.

(** The [limit] field of the search_contacts input schema,
    [z.number().optional().default(10)], is Default(Optional(Number), 10):
    field derivation strips the Default only and classifies the Optional
    node, as text. *)
Example limit_field_is_text :
  let limit := z (ZodDefault (z (ZodOptional (z ZodNumber))) (VNum 10)) in
  InputForm.type (InputForm.fieldOf "2024-01-01T00:00:00.000Z" "limit" limit)
  = InputForm.text
  /\ Prompts.type (Prompts.promptOfField "" "limit" limit) = Prompts.input
  /\ MockGenerator.generateMockFromSchema limit = VNum 10.
Proof.
  repeat split.
Qed.

(* ================================================================== *)
(** ** resolveNestedPath *)
(* ================================================================== *)

Import ExecutionContext.

(** *** Splitting and joining *)

Lemma string_app_assoc (a b c : string) : ((a ++ b) ++ c = a ++ (b ++ c))%string.
Proof.
  induction a as [| x a IH]; simpl; [reflexivity | now rewrite IH].
Qed.

Lemma string_app_empty (a : string) : (a ++ "" = a)%string.
Proof.
  induction a as [| x a IH]; simpl; [reflexivity | now rewrite IH].
Qed.

Lemma occurs_app (c : ascii) (a b : string) :
  occurs c (a ++ b) = occurs c a || occurs c b.
Proof.
  induction a as [| x a IH]; simpl; [reflexivity |].
  rewrite IH, orb_assoc; reflexivity.
Qed.

(** Splitting a string that has a separator in the middle. *)
Lemma split_go_app (sep : ascii) (p q : string) :
  forall cur,
    split_go sep cur (p ++ String sep q)
    = (split_go sep cur p ++ split_go sep "" q)%list.
Proof.
  induction p as [| c p IH]; intro cur; simpl.
  - rewrite Ascii.eqb_refl; reflexivity.
  - destruct (Ascii.eqb c sep); [rewrite IH; reflexivity | apply IH].
Qed.

Lemma split_go_no_sep (sep : ascii) (s : string) :
  forall cur, occurs sep s = false -> split_go sep cur s = [(cur ++ s)%string].
Proof.
  induction s as [| c s IH]; intros cur H; simpl in *.
  - now rewrite string_app_empty.
  - apply orb_false_iff in H; destruct H as [Hc Hs].
    rewrite Hc, IH by exact Hs.
    rewrite string_app_assoc; reflexivity.
Qed.

Lemma split_go_not_nil (sep : ascii) (s : string) :
  forall cur, split_go sep cur s <> [].
Proof.
  induction s as [| c s IH]; intro cur; simpl.
  - discriminate.
  - destruct (Ascii.eqb c sep); [discriminate | apply IH].
Qed.

(** No part of a split holds the separator. *)
Lemma split_go_parts (sep : ascii) (s : string) :
  forall cur,
    occurs sep cur = false ->
    Forall (fun part => occurs sep part = false) (split_go sep cur s).
Proof.
  induction s as [| c s IH]; intros cur Hcur; simpl.
  - constructor; [exact Hcur | constructor].
  - destruct (Ascii.eqb c sep) eqn:Ec.
    + constructor; [exact Hcur | apply IH; reflexivity].
    + apply IH; rewrite occurs_app; simpl.
      rewrite Hcur, Ec; reflexivity.
Qed.





(** *** Array indices *)








(** *** The walk *)

Lemma existsb_eqb_In (x : string) (seen : list string) :
  existsb (String.eqb x) seen = true <-> In x seen.
Proof.
  rewrite existsb_exists; split.
  - intros [y [Hy Hxy]]; apply String.eqb_eq in Hxy; subst; exact Hy.
  - intro H; exists x; split; [exact H | apply String.eqb_refl].
Qed.



(** The guard of the loop lets through what is indexable. *)
Lemma guard_indexable (current : found) :
  isTruthy current && String.eqb (typeOf current) "object" = indexable current.
Proof.
  destruct current as [[| | b | n | s | l | o] | p | p name]; simpl;
    try reflexivity; apply andb_false_r.
Qed.

Lemma walk_undefined (arrayMethods : list string) (parts : list string) :
  walk arrayMethods (Data VUndefined) parts = inr (Data VUndefined).
Proof.
  destruct parts; reflexivity.
Qed.

Section PathFacts.

Import PathSpec.

Variable arrayMethods : list string.












End PathFacts.



(* ================================================================== *)
(** ** fetchWithRetry *)
(* ================================================================== *)

(** Against an endpoint that answers every attempt with a server error,
    the call makes one attempt more than the retries it has left and fails
    with the status of the last answer. *)
Lemma attemptFrom_server_errors
  (endpoint : nat -> Http.Attempt) (policy : Http.Policy) (status : Z) :
  Http.isServerError status = true ->
  (forall k, exists body, endpoint k = Http.Responded status body) ->
  forall retriesLeft k,
    let r := Http.attemptFrom endpoint policy k retriesLeft in
    Http.attempts r = (k + retriesLeft + 1)%nat /\
    (exists e, Http.result r = inl e /\ Http.lastStatus e = Some status) /\
    Http.delays r = repeat (Http.backoffMs policy) retriesLeft.
Proof.
  intros Hs Hall retriesLeft.
  induction retriesLeft as [| n IH]; intro k; cbv zeta.
  - destruct (Hall k) as [body Hk]; simpl; rewrite Hk, Hs; simpl.
    repeat split; [lia | eexists; split; reflexivity].
  - destruct (Hall k) as [body Hk]; simpl; rewrite Hk, Hs; simpl.
    specialize (IH (S k)); cbv zeta in IH.
    destruct IH as [Ha [He Hd]].
    repeat split; [lia | exact He | now rewrite Hd].
Qed.

(** C7: with [maxRetries = 3], against an endpoint that always answers
    status 500 [fetchWithRetry] makes exactly 4 physical attempts and then
    fails with the typed error carrying status 500; against an endpoint
    answering status 404 it makes exactly 1 attempt and returns a handle
    that is not ok, with status 404. *)
Theorem C7_fetchWithRetry_attempts :
  forall (always500 answers404 : nat -> Http.Attempt)
         (backoffMs timeoutMs : Z) (policy : Http.Policy) (body : string),
    (forall k, exists b, always500 k = Http.Responded 500 b) ->
    answers404 0%nat = Http.Responded 404 body ->
    (let r := Http.fetchWithRetry always500 (Http.mkPolicy 3 backoffMs timeoutMs) in
     Http.attempts r = 4%nat /\
     exists e, Http.result r = inl e /\ Http.lastStatus e = Some 500%Z) /\
    (let r := Http.fetchWithRetry answers404 policy in
     Http.attempts r = 1%nat /\
     Http.result r = inr (Http.mkHandle false 404 body)).
Proof.
  intros always500 answers404 backoffMs timeoutMs policy body H500 H404.
  split; cbv zeta.
  - destruct (attemptFrom_server_errors always500
                (Http.mkPolicy 3 backoffMs timeoutMs) 500 eq_refl H500 3 0)
      as [Ha [He _]].
    split; [exact Ha | exact He].
  - unfold Http.fetchWithRetry.
    destruct (Http.maxRetries policy); simpl; rewrite H404; simpl; split; reflexivity.
Qed.

(** The theorem at two constant endpoints. *)
Lemma C7_fetchWithRetry_attempts_witness :
  Http.attempts
    (Http.fetchWithRetry (fun _ => Http.Responded 500 "Internal Server Error")
       (Http.mkPolicy 3 1000 30000)) = 4%nat
  /\ Http.attempts
       (Http.fetchWithRetry (fun _ => Http.Responded 404 "Not Found")
          (Http.mkPolicy 3 1000 30000)) = 1%nat.
Proof.
  destruct (C7_fetchWithRetry_attempts
              (fun _ => Http.Responded 500 "Internal Server Error")
              (fun _ => Http.Responded 404 "Not Found")
              1000 30000 (Http.mkPolicy 3 1000 30000) "Not Found"
              (fun _ => ex_intro _ "Internal Server Error" eq_refl) eq_refl)
    as [[H4 _] [H1 _]].
  split; [exact H4 | exact H1].
Defined.

(* ================================================================== *)
(** ** The executors' monad *)
(* ================================================================== *)

Create HintDb settle discriminated.

Lemma settles_ret {A} (a : A) : settles (ret a).
Proof. intros st; discriminate. Qed.

Lemma settles_throw {A} (e : exn) : settles (@throw A e).
Proof. intros st; discriminate. Qed.

Lemma settles_await {A} (p : exn + A) : settles (await p).
Proof. destruct p; intros st; discriminate. Qed.

Lemma settles_call {A} (returned : exn + A) : settles (call returned).
Proof. apply settles_await. Qed.

Lemma settles_defined {A} (what : string) (o : option A) :
  settles (defined what o).
Proof. destruct o; intros st; discriminate. Qed.

Lemma settles_sleep (ms : Z) : settles (sleep ms).
Proof. intros st; discriminate. Qed.

Lemma settles_bind {A B} (m : M A) (k : A -> M B) :
  settles m -> (forall a, settles (k a)) -> settles (bind m k).
Proof.
  intros Hm Hk st; unfold bind.
  specialize (Hm st).
  destruct (m st) as [[a | e |] st']; simpl in *.
  - apply Hk.
  - discriminate.
  - contradiction.
Qed.

Lemma settles_tryCatch {A} (m : M A) (handler : exn -> M A) :
  settles m -> (forall e, settles (handler e)) -> settles (tryCatch m handler).
Proof.
  intros Hm Hh st; unfold tryCatch.
  specialize (Hm st).
  destruct (m st) as [[a | e |] st']; simpl in *.
  - discriminate.
  - apply Hh.
  - contradiction.
Qed.

Lemma settles_forOf {A S} (body : A -> S -> M S) (l : list A) :
  (forall x acc, settles (body x acc)) ->
  forall acc, settles (forOf l body acc).
Proof.
  intros Hb; induction l as [| x l IH]; intro acc; simpl.
  - apply settles_ret.
  - apply settles_bind; [apply Hb | exact IH].
Qed.

#[local] Hint Resolve settles_ret settles_throw settles_await settles_call
  settles_defined settles_sleep : settle.

(** A [try] whose body settles and whose [catch] always returns resolves:
    nothing is thrown past it. *)
Lemma tryCatch_alwaysResolves {A} (m : M A) (handler : exn -> M A) :
  settles m ->
  (forall e, alwaysResolves (handler e)) ->
  alwaysResolves (tryCatch m handler).
Proof.
  intros Hm Hh st; unfold tryCatch.
  specialize (Hm st).
  destruct (m st) as [[a | e |] st']; simpl in *.
  - exists a, st'; reflexivity.
  - apply Hh.
  - contradiction.
Qed.

Lemma ret_alwaysResolves {A} (a : A) : alwaysResolves (ret a).
Proof. intro st; exists a, st; reflexivity. Qed.

Lemma forOf_alwaysResolves {A S} (body : A -> S -> M S) (l : list A) :
  (forall x acc, alwaysResolves (body x acc)) ->
  forall acc, alwaysResolves (forOf l body acc).
Proof.
  intros Hb; induction l as [| x l IH]; intros acc st; simpl.
  - exists acc, st; reflexivity.
  - unfold bind.
    destruct (Hb x acc st) as [acc' [st' E]]; rewrite E.
    apply IH.
Qed.

(** The loop over a list that is split in two runs the first part, then the
    second from where the first part ended. *)
Lemma forOf_app {A S} (body : A -> S -> M S) (l1 l2 : list A) (acc : S) (st : St) :
  forOf (l1 ++ l2) body acc st
  = match forOf l1 body acc st with
    | (Resolved acc1, st1) => forOf l2 body acc1 st1
    | other => other
    end.
Proof.
  revert acc st; induction l1 as [| x l1 IH]; intros acc st; simpl.
  - reflexivity.
  - unfold bind.
    destruct (body x acc st) as [[acc' | e |] st']; try reflexivity.
    apply IH.
Qed.

Section ExecutorFacts.

Variable X : Nodes.Externals.
Variable W : Nodes.World.

Lemma settles_fetchWithRetry {T} (endpoint : nat -> exn + Nodes.Response T) :
  settles (Nodes.fetchWithRetry endpoint).
Proof.
  intros st; unfold Nodes.fetchWithRetry; simpl.
  destruct (endpoint (fetches st)); discriminate.
Qed.

Lemma settles_DateNow : settles (Nodes.DateNow W).
Proof. intros st; discriminate. Qed.

Lemma settles_generateText (apiKey prompt : string) :
  settles (Nodes.generateText W apiKey prompt).
Proof.
  unfold Nodes.generateText.
  apply settles_bind; [apply settles_fetchWithRetry |].
  intro response; destruct (negb (Nodes.ok response)).
  - apply settles_bind; auto with settle.
  - apply settles_bind; [auto with settle |]; intro data.
    apply settles_bind; auto with settle.
Qed.

(** **** The keyword generator *)

Lemma settles_socialKeywordGeneratorNode_try input context :
  settles (Nodes.socialKeywordGeneratorNode_try X W input context).
Proof.
  unfold Nodes.socialKeywordGeneratorNode_try.
  destruct (Nodes.nonEmpty (Nodes.anthropicKey context)); [| auto with settle].
  apply settles_bind; [auto with settle |]; intro prompt.
  apply settles_bind; [apply settles_generateText |]; intro responseText.
  destruct (Nodes.matchBetween "{" "}" responseText) as [jsonText |];
    [| auto with settle].
  destruct (Nodes.JSON_parse_keywords X jsonText); [auto with settle |].
  repeat (apply settles_bind; [auto with settle |]; intro).
  auto with settle.
Qed.

(** **** Drafting emails *)

Lemma draftContact_alwaysResolves apiKey senderName input contact emails :
  alwaysResolves (Nodes.draftContact X W apiKey senderName input contact emails).
Proof.
  unfold Nodes.draftContact.
  destruct (Nodes.nonEmpty (Nodes.contact_email contact)).
  - apply tryCatch_alwaysResolves.
    + unfold Nodes.draftContact_try.
      apply settles_bind; [auto with settle |]; intro emailPrompt.
      apply settles_bind; [apply settles_generateText |]; intro rawBody.
      apply settles_bind; [auto with settle |]; intro emailBody.
      apply settles_bind; [auto with settle |]; intro subjectPrompt.
      apply settles_bind; [apply settles_generateText |]; intro rawSubject.
      apply settles_bind; [auto with settle |]; intro emailSubject.
      apply settles_bind; [apply settles_DateNow |]; intro now.
      apply settles_bind; auto with settle.
    + intro e; apply ret_alwaysResolves.
  - apply ret_alwaysResolves.
Qed.

Lemma settles_of_alwaysResolves {A} (m : M A) : alwaysResolves m -> settles m.
Proof.
  intros H st; destruct (H st) as [r [st' E]]; rewrite E; discriminate.
Qed.

Lemma settles_draftEmailsNode_try input context :
  settles (Nodes.draftEmailsNode_try X W input context).
Proof.
  unfold Nodes.draftEmailsNode_try.
  destruct (Nodes.nonEmpty (Nodes.anthropicKey context)); [| auto with settle].
  destruct (negb (truthy (obj_get (Nodes.variables context) "senderName")));
    [auto with settle |].
  apply settles_bind; [| auto with settle].
  apply settles_of_alwaysResolves, forOf_alwaysResolves.
  intros; apply draftContact_alwaysResolves.
Qed.

(** **** Analysing posts *)

(** With a positive batch size, as many rounds as there are posts left are
    enough for the batch loop to end. *)
Lemma settles_analyzeBatches apiKey input allPosts :
  (0 < Nodes.ANALYSIS_BATCH_SIZE X)%nat ->
  forall rounds i acc,
    (List.length allPosts <= i + rounds)%nat ->
    settles (Nodes.analyzeBatches X W apiKey input allPosts rounds i acc).
Proof.
  intros Hsize rounds.
  induction rounds as [| rounds IH]; intros i acc Hlen; simpl.
  - destruct (Nat.ltb_spec i (List.length allPosts)); [lia | auto with settle].
  - destruct (Nat.ltb_spec i (List.length allPosts)); [| auto with settle].
    apply settles_bind; [auto with settle |]; intro prompt.
    apply settles_bind; [apply settles_generateText |]; intro responseText.
    assert (Hnext : forall acc',
               settles (Nodes.analyzeBatches X W apiKey input allPosts rounds
                          (i + Nodes.ANALYSIS_BATCH_SIZE X) acc'))
      by (intro acc'; apply IH; lia).
    destruct (Nodes.matchBetween "[" "]" responseText) as [jsonText |];
      [| apply Hnext].
    destruct (Nodes.JSON_parse_analysis X jsonText); apply Hnext.
Qed.

Lemma settles_socialAiAnalyzeNode_try input context :
  (0 < Nodes.ANALYSIS_BATCH_SIZE X)%nat ->
  settles (Nodes.socialAiAnalyzeNode_try X W input context).
Proof.
  intro Hsize; unfold Nodes.socialAiAnalyzeNode_try.
  destruct (Nodes.nonEmpty (Nodes.anthropicKey context)); [| auto with settle].
  match goal with |- context [(List.length ?l =? 0)%nat] =>
    destruct (List.length l =? 0)%nat end; [auto with settle |].
  apply settles_bind; [| auto with settle].
  apply settles_analyzeBatches; [exact Hsize | lia].
Qed.

(** **** Searching contacts *)

Lemma settles_searchApolloContacts apiKey params :
  settles (Nodes.searchApolloContacts W apiKey params).
Proof.
  unfold Nodes.searchApolloContacts.
  apply settles_bind; [apply settles_fetchWithRetry |].
  intro response; destruct (negb (Nodes.ok response)).
  - apply settles_bind; auto with settle.
  - apply settles_bind; auto with settle.
Qed.

Lemma settles_enrichApolloContact apiKey personId :
  settles (Nodes.enrichApolloContact W apiKey personId).
Proof.
  unfold Nodes.enrichApolloContact.
  apply settles_bind; [apply settles_fetchWithRetry |].
  intro response; destruct (negb (Nodes.ok response)).
  - apply settles_bind; auto with settle.
  - apply settles_bind; auto with settle.
Qed.

Lemma enrichContact_alwaysResolves apiKey contact enrichedContacts :
  alwaysResolves (Nodes.enrichContact W apiKey contact enrichedContacts).
Proof.
  unfold Nodes.enrichContact.
  destruct (Nodes.nonEmpty (Nodes.id contact)).
  - apply tryCatch_alwaysResolves.
    + apply settles_bind; [apply settles_enrichApolloContact |]; intro enriched.
      apply settles_bind; auto with settle.
    + intro e; apply ret_alwaysResolves.
  - apply ret_alwaysResolves.
Qed.

Lemma settles_searchContactsNode_try input context :
  settles (Nodes.searchContactsNode_try W input context).
Proof.
  unfold Nodes.searchContactsNode_try.
  destruct (Nodes.nonEmpty (Nodes.apolloKey context)); [| auto with settle].
  apply settles_bind; [apply settles_searchApolloContacts |]; intro results.
  destruct (List.length results =? 0)%nat; [auto with settle |].
  apply settles_bind; [| auto with settle].
  apply settles_of_alwaysResolves, forOf_alwaysResolves.
  intros; apply enrichContact_alwaysResolves.
Qed.

End ExecutorFacts.

(** C4: no exception crosses the executor boundary. For the keyword
    generator, the email drafter, the post analyser and the contact search,
    for every input, every execution context and every behaviour of the
    outside world, the executor's promise resolves to a Result and does not
    reject (the post analyser's batch size being positive). *)
Theorem C4_no_exception_crosses_executor :
  forall (X : Nodes.Externals) (W : Nodes.World),
    (0 < Nodes.ANALYSIS_BATCH_SIZE X)%nat ->
    (forall input context,
       alwaysResolves (Nodes.socialKeywordGeneratorNode_executor X W input context)) /\
    (forall input context,
       alwaysResolves (Nodes.draftEmailsNode_executor X W input context)) /\
    (forall input context,
       alwaysResolves (Nodes.socialAiAnalyzeNode_executor X W input context)) /\
    (forall input context,
       alwaysResolves (Nodes.searchContactsNode_executor W input context)).
Proof.
  intros X W Hsize; repeat split; intros input context;
    apply tryCatch_alwaysResolves;
    try (intro e; apply ret_alwaysResolves).
  - apply settles_socialKeywordGeneratorNode_try.
  - apply settles_draftEmailsNode_try.
  - apply settles_socialAiAnalyzeNode_try; exact Hsize.
  - apply settles_searchContactsNode_try.
Qed.

(** The theorem at the sample runs of the analyser and of the drafter. *)
Lemma C4_no_exception_crosses_executor_witness :
  (exists r st',
     Nodes.socialAiAnalyzeNode_executor Samples.externals Samples.analysisWorld
       Samples.analyzeInput Samples.context start = (Resolved r, st')) /\
  (exists r st',
     Nodes.draftEmailsNode_executor Samples.externals Samples.draftWorld
       Samples.draftInput Samples.context start = (Resolved r, st')).
Proof.
  split.
  - destruct (C4_no_exception_crosses_executor Samples.externals
                Samples.analysisWorld) as [_ [_ [H _]]].
    + simpl; lia.
    + apply H.
  - destruct (C4_no_exception_crosses_executor Samples.externals
                Samples.draftWorld) as [_ [H _]].
    + simpl; lia.
    + apply H.
Defined.

(* ================================================================== *)
(** ** One failed unit of work does not abort the run *)
(* ================================================================== *)

Section SkippedUnits.

Variable X : Nodes.Externals.
Variable W : Nodes.World.

(** The [try] block of a drafting round, when it completes, has appended one
    draft. *)
Lemma draftContact_try_extends
  apiKey senderName input contact contactEmail emails st r st' :
  Nodes.draftContact_try X W apiKey senderName input contact contactEmail
    emails st = (Resolved r, st') ->
  exists draft, r = (emails ++ [draft])%list.
Proof.
  unfold Nodes.draftContact_try, bind, call, await, ret, throw, sleep,
    Nodes.DateNow.
  repeat match goal with
         | |- context [match ?x with _ => _ end] =>
             destruct x; simpl; try discriminate
         end.
  intro H; inversion H; subst; eexists; reflexivity.
Qed.

(** A round of the drafting loop only ever appends to the drafts. *)
Lemma draftContact_extends apiKey senderName input contact emails st r st' :
  Nodes.draftContact X W apiKey senderName input contact emails st
  = (Resolved r, st') ->
  exists more, r = (emails ++ more)%list.
Proof.
  unfold Nodes.draftContact.
  destruct (Nodes.nonEmpty (Nodes.contact_email contact)) as [contactEmail |].
  - unfold tryCatch.
    destruct (Nodes.draftContact_try X W apiKey senderName input contact
                contactEmail emails st) as [[r0 | e |] st0] eqn:E.
    + intro H; inversion H; subst.
      destruct (draftContact_try_extends _ _ _ _ _ _ _ _ _ E) as [draft ->].
      exists [draft]; reflexivity.
    + simpl; intro H; inversion H; subst; exists []; now rewrite app_nil_r.
    + discriminate.
  - simpl; intro H; inversion H; subst; exists []; now rewrite app_nil_r.
Qed.

Lemma draftLoop_extends apiKey senderName input contacts :
  forall emails st r st',
    forOf contacts (Nodes.draftContact X W apiKey senderName input) emails st
    = (Resolved r, st') ->
    exists more, r = (emails ++ more)%list.
Proof.
  induction contacts as [| contact contacts IH]; intros emails st r st'; simpl.
  - intro H; inversion H; subst; exists []; now rewrite app_nil_r.
  - unfold bind.
    destruct (Nodes.draftContact X W apiKey senderName input contact emails st)
      as [[emails1 | e |] st1] eqn:E1; try discriminate.
    intro H.
    destruct (draftContact_extends _ _ _ _ _ _ _ _ E1) as [more1 ->].
    destruct (IH _ _ _ _ H) as [more2 ->].
    exists (more1 ++ more2)%list; now rewrite app_assoc.
Qed.

(** An exception in the [try] block of one contact leaves the drafts as
    they were; the loop goes on with the contacts after it and the executor
    reports success with the drafts of all the others. *)
Lemma draftEmails_skips_failed_contact
  input context apiKey before contact contactEmail after st drafted st1 e st2 :
  let senderName := obj_get (Nodes.variables context) "senderName" in
  Nodes.nonEmpty (Nodes.anthropicKey context) = Some apiKey ->
  truthy senderName = true ->
  Nodes.contacts input = (before ++ contact :: after)%list ->
  Nodes.nonEmpty (Nodes.contact_email contact) = Some contactEmail ->
  forOf before (Nodes.draftContact X W apiKey senderName input) [] st
  = (Resolved drafted, st1) ->
  Nodes.draftContact_try X W apiKey senderName input contact contactEmail
    drafted st1 = (Rejected e, st2) ->
  exists later st3,
    forOf after (Nodes.draftContact X W apiKey senderName input) drafted st2
    = (Resolved (drafted ++ later)%list, st3) /\
    Nodes.draftEmailsNode_executor X W input context st
    = (Resolved
         (Nodes.Success
            {| Nodes.emails := (drafted ++ later)%list;
               Nodes.draftedCount := List.length (drafted ++ later)%list |}),
       st3).
Proof.
  intros senderName Hkey Hsender Hcontacts Hemail Hbefore Htry.
  destruct (forOf_alwaysResolves
              (Nodes.draftContact X W apiKey senderName input) after
              (fun c acc => draftContact_alwaysResolves X W apiKey senderName input c acc)
              drafted st2) as [r [st3 Hafter]].
  destruct (draftLoop_extends _ _ _ _ _ _ _ _ Hafter) as [later ->].
  exists later, st3; split; [exact Hafter |].
  unfold Nodes.draftEmailsNode_executor, tryCatch, Nodes.draftEmailsNode_try.
  rewrite Hkey.
  fold senderName; rewrite Hsender; cbn [negb].
  unfold bind.
  rewrite Hcontacts, forOf_app, Hbefore.
  simpl forOf; unfold bind.
  unfold Nodes.draftContact at 1.
  rewrite Hemail.
  unfold tryCatch at 1.
  rewrite Htry.
  unfold ret at 1.
  rewrite Hafter.
  reflexivity.
Qed.

(** A batch whose response has no parseable JSON array adds nothing to the
    analysed posts, and the loop goes on with the next batch. *)
Lemma analyzeBatches_skips_unparseable
  apiKey input allPosts rounds i acc st prompt responseText st1 :
  (i < List.length allPosts)%nat ->
  Nodes.buildAnalysisPrompt X (Nodes.an_topic input) (Nodes.userIntent input)
    (Nodes.slice i (i + Nodes.ANALYSIS_BATCH_SIZE X) allPosts) = inr prompt ->
  Nodes.generateText W apiKey prompt st = (Resolved responseText, st1) ->
  unparseable X responseText ->
  Nodes.analyzeBatches X W apiKey input allPosts (S rounds) i acc st
  = Nodes.analyzeBatches X W apiKey input allPosts rounds
      (i + Nodes.ANALYSIS_BATCH_SIZE X) acc st1.
Proof.
  intros Hi Hprompt Htext Hbad.
  simpl.
  destruct (Nat.ltb_spec i (List.length allPosts)); [| lia].
  unfold bind at 1; rewrite Hprompt; simpl.
  unfold bind; rewrite Htext.
  unfold unparseable in Hbad.
  destruct (Nodes.matchBetween "[" "]" responseText) as [jsonText |];
    [| reflexivity].
  destruct Hbad as [e ->]; reflexivity.
Qed.

(** Whatever the batches contributed, the analyser reports success once the
    batch loop has ended. *)
Lemma socialAiAnalyze_succeeds_after_loop input context apiKey st found st3 :
  let allPosts :=
    (Nodes.orNil (Nodes.twitterPosts input) ++ Nodes.orNil (Nodes.redditPosts input)
     ++ Nodes.orNil (Nodes.linkedinPosts input) ++ Nodes.orNil (Nodes.posts input))%list in
  Nodes.nonEmpty (Nodes.anthropicKey context) = Some apiKey ->
  Nodes.analyzeBatches X W apiKey input allPosts (List.length allPosts) 0 [] st
  = (Resolved found, st3) ->
  exists out,
    Nodes.socialAiAnalyzeNode_executor X W input context st
    = (Resolved (Nodes.Success out), st3) /\
    (allPosts <> [] ->
     Nodes.analyzedPosts out
     = Nodes.sort (fun a b => Nodes.relevanceScore b - Nodes.relevanceScore a) found).
Proof.
  intros allPosts Hkey Hloop.
  unfold Nodes.socialAiAnalyzeNode_executor, tryCatch, Nodes.socialAiAnalyzeNode_try.
  rewrite Hkey.
  fold allPosts.
  destruct (Nat.eqb_spec (List.length allPosts) 0) as [Hz | Hnz].
  - rewrite Hz in Hloop; simpl in Hloop; rewrite Hz in Hloop; simpl in Hloop.
    inversion Hloop; subst.
    eexists; split; [reflexivity |].
    intro Hne; apply length_zero_iff_nil in Hz; contradiction.
  - unfold bind; rewrite Hloop; simpl.
    eexists; split; [reflexivity | intros _; reflexivity].
Qed.

(** With the API key and the sender's name in place, drafting succeeds
    whatever happens to the individual contacts. *)
Lemma draftEmails_always_succeeds input context apiKey st :
  Nodes.nonEmpty (Nodes.anthropicKey context) = Some apiKey ->
  truthy (obj_get (Nodes.variables context) "senderName") = true ->
  exists drafted st',
    Nodes.draftEmailsNode_executor X W input context st
    = (Resolved
         (Nodes.Success
            {| Nodes.emails := drafted;
               Nodes.draftedCount := List.length drafted |}),
       st').
Proof.
  intros Hkey Hsender.
  unfold Nodes.draftEmailsNode_executor, tryCatch, Nodes.draftEmailsNode_try.
  rewrite Hkey, Hsender; cbn [negb].
  unfold bind.
  destruct (forOf_alwaysResolves
              (Nodes.draftContact X W apiKey
                 (obj_get (Nodes.variables context) "senderName") input)
              (Nodes.contacts input)
              (fun c acc => draftContact_alwaysResolves X W apiKey _ input c acc)
              [] st) as [drafted [st' Hloop]].
  rewrite Hloop.
  exists drafted, st'; reflexivity.
Qed.

Lemma generateText_answered apiKey prompt st :
  answersEveryCall W ->
  exists responseText,
    Nodes.generateText W apiKey prompt st
    = (Resolved responseText,
       mkSt (S (fetches st)) (clockReads st) (slept st)).
Proof.
  intro Hw.
  destruct (Hw (fetches st) apiKey prompt) as [status [raw [blocks Hk]]].
  unfold Nodes.generateText, bind, Nodes.fetchWithRetry.
  rewrite Hk; simpl.
  eexists; reflexivity.
Qed.

Lemma analyzeBatches_answered apiKey input allPosts :
  promptsBuilt X ->
  answersEveryCall W ->
  (0 < Nodes.ANALYSIS_BATCH_SIZE X)%nat ->
  forall rounds i acc st,
    (List.length allPosts <= i + rounds)%nat ->
    exists found st',
      Nodes.analyzeBatches X W apiKey input allPosts rounds i acc st
      = (Resolved found, st').
Proof.
  intros Hx Hw Hsize rounds.
  induction rounds as [| rounds IH]; intros i acc st Hlen; simpl.
  - destruct (Nat.ltb_spec i (List.length allPosts)); [lia |].
    exists acc, st; reflexivity.
  - destruct (Nat.ltb_spec i (List.length allPosts));
      [| exists acc, st; reflexivity].
    destruct (Hx (Nodes.an_topic input) (Nodes.userIntent input)
                (Nodes.slice i (i + Nodes.ANALYSIS_BATCH_SIZE X) allPosts))
      as [prompt Hprompt].
    unfold bind at 1; rewrite Hprompt; simpl.
    unfold bind.
    destruct (generateText_answered apiKey prompt st Hw) as [responseText ->].
    destruct (Nodes.matchBetween "[" "]" responseText) as [jsonText |];
      [| apply IH; lia].
    destruct (Nodes.JSON_parse_analysis X jsonText); apply IH; lia.
Qed.

(** When the prompts are built and the text-generation endpoint answers
    every call, the analyser succeeds whether or not the answers can be
    parsed. *)
Lemma socialAiAnalyze_always_succeeds input context apiKey st :
  promptsBuilt X ->
  answersEveryCall W ->
  (0 < Nodes.ANALYSIS_BATCH_SIZE X)%nat ->
  Nodes.nonEmpty (Nodes.anthropicKey context) = Some apiKey ->
  exists out st',
    Nodes.socialAiAnalyzeNode_executor X W input context st
    = (Resolved (Nodes.Success out), st').
Proof.
  intros Hx Hw Hsize Hkey.
  match goal with
  | |- context [Nodes.socialAiAnalyzeNode_executor X W input context st] =>
      set (allPosts :=
             (Nodes.orNil (Nodes.twitterPosts input)
              ++ Nodes.orNil (Nodes.redditPosts input)
              ++ Nodes.orNil (Nodes.linkedinPosts input)
              ++ Nodes.orNil (Nodes.posts input))%list)
  end.
  destruct (analyzeBatches_answered apiKey input allPosts Hx Hw Hsize
              (List.length allPosts) 0 [] st) as [found [st' Hloop]]; [lia |].
  destruct (socialAiAnalyze_succeeds_after_loop input context apiKey st found st'
              Hkey Hloop) as [out [Hout _]].
  exists out, st'; exact Hout.
Qed.

End SkippedUnits.

(** C8: a failure that affects one unit of work is skipped without aborting
    the run. In draft_emails, when the drafting of one contact throws, the
    drafts made so far are kept, the contacts after it are still processed,
    and the executor returns a success Result with the drafts of all the
    other contacts. In social_ai_analyze, a batch whose AI response contains
    no parseable JSON array contributes nothing and the loop goes on with
    the next batch; when the loop has ended the executor returns a success
    Result with the posts the other batches contributed. Hence draft_emails
    succeeds whatever happens to its contacts (once the API key and the
    sender's name are set), and social_ai_analyze succeeds whatever the
    answers say, as long as its prompts are built and the text-generation
    calls themselves are answered. *)
Theorem C8_failed_unit_is_skipped :
  forall (X : Nodes.Externals) (W : Nodes.World),
    (forall input context apiKey before contact contactEmail after
            st drafted st1 e st2,
       let senderName := obj_get (Nodes.variables context) "senderName" in
       Nodes.nonEmpty (Nodes.anthropicKey context) = Some apiKey ->
       truthy senderName = true ->
       Nodes.contacts input = (before ++ contact :: after)%list ->
       Nodes.nonEmpty (Nodes.contact_email contact) = Some contactEmail ->
       forOf before (Nodes.draftContact X W apiKey senderName input) [] st
       = (Resolved drafted, st1) ->
       Nodes.draftContact_try X W apiKey senderName input contact contactEmail
         drafted st1 = (Rejected e, st2) ->
       exists later st3,
         forOf after (Nodes.draftContact X W apiKey senderName input) drafted st2
         = (Resolved (drafted ++ later)%list, st3) /\
         Nodes.draftEmailsNode_executor X W input context st
         = (Resolved
              (Nodes.Success
                 {| Nodes.emails := (drafted ++ later)%list;
                    Nodes.draftedCount := List.length (drafted ++ later)%list |}),
            st3)) /\
    (forall apiKey input allPosts rounds i acc st prompt responseText st1,
       (i < List.length allPosts)%nat ->
       Nodes.buildAnalysisPrompt X (Nodes.an_topic input) (Nodes.userIntent input)
         (Nodes.slice i (i + Nodes.ANALYSIS_BATCH_SIZE X) allPosts) = inr prompt ->
       Nodes.generateText W apiKey prompt st = (Resolved responseText, st1) ->
       unparseable X responseText ->
       Nodes.analyzeBatches X W apiKey input allPosts (S rounds) i acc st
       = Nodes.analyzeBatches X W apiKey input allPosts rounds
           (i + Nodes.ANALYSIS_BATCH_SIZE X) acc st1) /\
    (forall input context apiKey st found st3,
       let allPosts :=
         (Nodes.orNil (Nodes.twitterPosts input)
          ++ Nodes.orNil (Nodes.redditPosts input)
          ++ Nodes.orNil (Nodes.linkedinPosts input)
          ++ Nodes.orNil (Nodes.posts input))%list in
       Nodes.nonEmpty (Nodes.anthropicKey context) = Some apiKey ->
       Nodes.analyzeBatches X W apiKey input allPosts (List.length allPosts) 0 [] st
       = (Resolved found, st3) ->
       exists out,
         Nodes.socialAiAnalyzeNode_executor X W input context st
         = (Resolved (Nodes.Success out), st3) /\
         (allPosts <> [] ->
          Nodes.analyzedPosts out
          = Nodes.sort (fun a b => Nodes.relevanceScore b - Nodes.relevanceScore a)
              found)) /\
    (forall input context apiKey st,
       Nodes.nonEmpty (Nodes.anthropicKey context) = Some apiKey ->
       truthy (obj_get (Nodes.variables context) "senderName") = true ->
       exists drafted st',
         Nodes.draftEmailsNode_executor X W input context st
         = (Resolved
              (Nodes.Success
                 {| Nodes.emails := drafted;
                    Nodes.draftedCount := List.length drafted |}),
            st')) /\
    (forall input context apiKey st,
       promptsBuilt X ->
       answersEveryCall W ->
       (0 < Nodes.ANALYSIS_BATCH_SIZE X)%nat ->
       Nodes.nonEmpty (Nodes.anthropicKey context) = Some apiKey ->
       exists out st',
         Nodes.socialAiAnalyzeNode_executor X W input context st
         = (Resolved (Nodes.Success out), st')).
Proof.
  intros X W; split; [| split; [| split; [| split]]].
  - intros; eapply draftEmails_skips_failed_contact; eassumption.
  - intros; eapply analyzeBatches_skips_unparseable; eassumption.
  - intros; eapply socialAiAnalyze_succeeds_after_loop; eassumption.
  - intros; eapply draftEmails_always_succeeds; eassumption.
  - intros; eapply socialAiAnalyze_always_succeeds; eassumption.
Qed.

(** The theorem at the sample runs: the drafting of the second of three
    contacts fails, and the second of two batches is answered with prose. *)
Lemma C8_failed_unit_is_skipped_witness :
  (exists later st3,
     forOf [Samples.ann]
       (Nodes.draftContact Samples.externals Samples.draftWorld "sk-ant-test"
          (VStr "Sam") Samples.draftInput)
       [Samples.johnDraft] (mkSt 3 1 200)
     = (Resolved ([Samples.johnDraft] ++ later)%list, st3) /\
     Nodes.draftEmailsNode_executor Samples.externals Samples.draftWorld
       Samples.draftInput Samples.context start
     = (Resolved
          (Nodes.Success
             {| Nodes.emails := ([Samples.johnDraft] ++ later)%list;
                Nodes.draftedCount := List.length ([Samples.johnDraft] ++ later)%list |}),
        st3)) /\
  (forall acc,
     Nodes.analyzeBatches Samples.externals Samples.analysisWorld "sk-ant-test"
       Samples.analyzeInput [Samples.post "p1"; Samples.post "p2"; Samples.post "p3"]
       2 2 acc (mkSt 1 0 0)
     = Nodes.analyzeBatches Samples.externals Samples.analysisWorld "sk-ant-test"
         Samples.analyzeInput [Samples.post "p1"; Samples.post "p2"; Samples.post "p3"]
         1 4 acc (mkSt 2 0 0)) /\
  (exists out,
     Nodes.socialAiAnalyzeNode_executor Samples.externals Samples.analysisWorld
       Samples.analyzeInput Samples.context start
     = (Resolved (Nodes.Success out), mkSt 2 0 0) /\
     List.length (Nodes.analyzedPosts out) = 2%nat).
Proof.
  destruct (C8_failed_unit_is_skipped Samples.externals Samples.draftWorld)
    as [Hdraft _].
  destruct (C8_failed_unit_is_skipped Samples.externals Samples.analysisWorld)
    as [_ [Hskip [Hdone _]]].
  split; [| split].
  - apply (Hdraft Samples.draftInput Samples.context "sk-ant-test"
             [Samples.john] Samples.bob "bob@acme.com" [Samples.ann]
             start [Samples.johnDraft] (mkSt 2 1 200)
             (JsError "Request failed after 4 attempts") (mkSt 3 1 200));
      reflexivity.
  - intro acc.
    apply (Hskip "sk-ant-test" Samples.analyzeInput
             [Samples.post "p1"; Samples.post "p2"; Samples.post "p3"]
             1%nat 2%nat acc (mkSt 1 0 0)
             "analyze p3 for project management"
             "I could not analyse these posts." (mkSt 2 0 0)).
    + simpl; lia.
    + reflexivity.
    + reflexivity.
    + exact I.
  - destruct (Hdone Samples.analyzeInput Samples.context "sk-ant-test" start
                [ {| Nodes.originalPost := Samples.post "p1";
                     Nodes.relevanceScore := 50;
                     Nodes.sentiment := "negative";
                     Nodes.isComplaint := true;
                     Nodes.urgencyLevel := "low";
                     Nodes.aiSummary := "";
                     Nodes.matchedKeywords := ["slow"] |};
                  {| Nodes.originalPost := Samples.post "p2";
                     Nodes.relevanceScore := 90;
                     Nodes.sentiment := "negative";
                     Nodes.isComplaint := false;
                     Nodes.urgencyLevel := "high";
                     Nodes.aiSummary := "";
                     Nodes.matchedKeywords := ["slow"] |} ]
                (mkSt 2 0 0) eq_refl eq_refl) as [out [Hout Hsorted]].
    exists out; split; [exact Hout |].
    rewrite Hsorted; [reflexivity | discriminate].
Defined.

(* ================================================================== *)
(** ** The output of social_ai_analyze *)
(* ================================================================== *)

Section AnalyzeOutput.

Variable X : Nodes.Externals.
Variable W : Nodes.World.

Lemma mergeAnalysis_relevant batch analysis acc pushed :
  Nodes.mergeAnalysis X batch analysis acc = inr pushed ->
  Forall (relevant X) acc -> Forall (relevant X) pushed.
Proof.
  unfold Nodes.mergeAnalysis.
  destruct (find _ batch) as [originalPost |];
    [| intro H; inversion H; subst; auto].
  destruct (Nodes.an_relevanceScore analysis) as [score |];
    [| intro H; inversion H; subst; auto].
  destruct (Qle_bool (Nodes.MIN_RELEVANCE_SCORE X) score) eqn:E;
    [| intro H; inversion H; subst; auto].
  destruct (Nodes.normalizeSentiment X _) as [e | sentiment]; [discriminate |].
  destruct (Nodes.normalizeUrgency X _) as [e | urgencyLevel]; [discriminate |].
  intros H Hacc; inversion H; subst.
  apply Forall_app; split; [exact Hacc |].
  constructor; [| constructor].
  unfold relevant; simpl; now apply Qle_bool_iff.
Qed.

Lemma mergeBatch_relevant batch analyzed :
  forall acc, Forall (relevant X) acc ->
              Forall (relevant X) (Nodes.mergeBatch X batch analyzed acc).
Proof.
  induction analyzed as [| [analysis |] rest IH]; intros acc Hacc; simpl.
  - exact Hacc.
  - destruct (Nodes.mergeAnalysis X batch analysis acc) as [e | pushed] eqn:E;
      [exact Hacc |].
    apply IH; eapply mergeAnalysis_relevant; eassumption.
  - exact Hacc.
Qed.

Lemma analyzeBatches_relevant apiKey input allPosts rounds :
  forall i acc st found st',
    Nodes.analyzeBatches X W apiKey input allPosts rounds i acc st
    = (Resolved found, st') ->
    Forall (relevant X) acc -> Forall (relevant X) found.
Proof.
  induction rounds as [| rounds IH]; intros i acc st found st'; simpl.
  - destruct (i <? List.length allPosts)%nat; [discriminate |].
    intro H; inversion H; subst; auto.
  - destruct (i <? List.length allPosts)%nat;
      [| intro H; inversion H; subst; auto].
    unfold bind at 1.
    destruct (Nodes.buildAnalysisPrompt X _ _ _) as [e | prompt]; simpl;
      [discriminate |].
    unfold bind.
    destruct (Nodes.generateText W apiKey prompt st)
      as [[responseText | e |] st1]; try discriminate.
    destruct (Nodes.matchBetween "[" "]" responseText) as [jsonText |];
      [| apply IH].
    destruct (Nodes.JSON_parse_analysis X jsonText) as [e | analyzed];
      [apply IH |].
    intros H Hacc.
    eapply IH; [exact H |].
    apply mergeBatch_relevant, Hacc.
Qed.

Lemma sortInsert_Forall (P : Nodes.AnalyzedPost -> Prop) x l :
  P x -> Forall P l -> Forall P (Nodes.sortInsert byRelevance x l).
Proof.
  intros Hx Hl; induction Hl as [| y l Hy Hl IH]; simpl.
  - constructor; [exact Hx | constructor].
  - destruct (Qle_bool (byRelevance x y) 0).
    + constructor; [exact Hx | constructor; assumption].
    + constructor; assumption.
Qed.

Lemma sort_Forall (P : Nodes.AnalyzedPost -> Prop) l :
  Forall P l -> Forall P (Nodes.sort byRelevance l).
Proof.
  intro Hl; induction Hl as [| x l Hx Hl IH]; simpl.
  - constructor.
  - apply sortInsert_Forall; assumption.
Qed.

Lemma sortInsert_sorted x l :
  StronglySorted notBelow l ->
  StronglySorted notBelow (Nodes.sortInsert byRelevance x l).
Proof.
  intro Hl; induction Hl as [| y l Hl IH Hy]; simpl.
  - constructor; constructor.
  - destruct (Qle_bool (byRelevance x y) 0) eqn:E.
    + apply Qle_bool_iff in E; unfold byRelevance in E.
      assert (Hxy : notBelow x y) by (unfold notBelow; lra).
      constructor; [constructor; assumption |].
      constructor; [exact Hxy |].
      eapply Forall_impl; [| exact Hy].
      intros z Hz; unfold notBelow in *; lra.
    + assert (Hyx : notBelow y x).
      { unfold notBelow.
        destruct (Qlt_le_dec (Nodes.relevanceScore y) (Nodes.relevanceScore x))
          as [Hlt | Hle]; [| exact Hle].
        assert (Qle_bool (byRelevance x y) 0 = true)
          by (apply Qle_bool_iff; unfold byRelevance; lra).
        congruence. }
      constructor; [exact IH |].
      apply sortInsert_Forall; assumption.
Qed.

Lemma sort_sorted l : StronglySorted notBelow (Nodes.sort byRelevance l).
Proof.
  induction l as [| x l IH]; simpl.
  - constructor.
  - apply sortInsert_sorted, IH.
Qed.

(** What a successful run of the analyser returns. *)
Lemma socialAiAnalyze_success input context st out st' :
  Nodes.socialAiAnalyzeNode_executor X W input context st
  = (Resolved (Nodes.Success out), st') ->
  exists found,
    Forall (relevant X) found /\
    Nodes.analyzedPosts out = Nodes.sort byRelevance found /\
    Nodes.highPriorityPosts out
    = filter Nodes.isHighPriority (Nodes.analyzedPosts out) /\
    Nodes.complaints out = filter Nodes.isComplaint (Nodes.analyzedPosts out) /\
    Nodes.totalAnalyzed out = List.length (Nodes.analyzedPosts out) /\
    Nodes.highPriorityCount out = List.length (Nodes.highPriorityPosts out) /\
    Nodes.complaintCount out = List.length (Nodes.complaints out).
Proof.
  unfold Nodes.socialAiAnalyzeNode_executor, tryCatch, Nodes.socialAiAnalyzeNode_try.
  destruct (Nodes.nonEmpty (Nodes.anthropicKey context)) as [apiKey |];
    [| discriminate].
  match goal with |- context [(List.length ?l =? 0)%nat] =>
    set (allPosts := l); destruct (List.length allPosts =? 0)%nat end.
  - simpl; intro H; inversion H; subst.
    exists []; simpl; repeat split; constructor.
  - unfold bind.
    destruct (Nodes.analyzeBatches X W apiKey input allPosts _ 0 [] st)
      as [[found | e |] st1] eqn:Eloop; try discriminate.
    simpl; intro H; inversion H; subst; simpl.
    exists found; repeat split.
    eapply analyzeBatches_relevant; [exact Eloop | constructor].
Qed.

End AnalyzeOutput.

(** C9: when social_ai_analyze succeeds, every analysed post has a
    relevance score of at least MIN_RELEVANCE_SCORE; the analysed posts are
    in non-increasing order of relevance score; the high-priority posts are
    exactly the analysed posts whose urgency level is 'high' or whose
    relevance score is at least 80, and the complaints exactly those flagged
    as complaints, both in the order of the analysed posts; and
    totalAnalyzed, highPriorityCount and complaintCount are the lengths of
    the three lists. *)
Theorem C9_analyze_output_invariants :
  forall (X : Nodes.Externals) (W : Nodes.World) input context st out st',
    Nodes.socialAiAnalyzeNode_executor X W input context st
    = (Resolved (Nodes.Success out), st') ->
    Forall (fun p => Nodes.MIN_RELEVANCE_SCORE X <= Nodes.relevanceScore p)
      (Nodes.analyzedPosts out) /\
    StronglySorted
      (fun a b => Nodes.relevanceScore b <= Nodes.relevanceScore a)
      (Nodes.analyzedPosts out) /\
    Nodes.totalAnalyzed out = List.length (Nodes.analyzedPosts out) /\
    Nodes.highPriorityCount out = List.length (Nodes.highPriorityPosts out) /\
    Nodes.complaintCount out = List.length (Nodes.complaints out) /\
    Nodes.highPriorityPosts out
    = filter (fun p => String.eqb (Nodes.urgencyLevel p) "high"
                       || Qle_bool 80 (Nodes.relevanceScore p))
        (Nodes.analyzedPosts out) /\
    (forall p, In p (Nodes.highPriorityPosts out) <->
               In p (Nodes.analyzedPosts out) /\
               (Nodes.urgencyLevel p = "high" \/ 80 <= Nodes.relevanceScore p)) /\
    Nodes.complaints out = filter Nodes.isComplaint (Nodes.analyzedPosts out) /\
    (forall p, In p (Nodes.complaints out) <->
               In p (Nodes.analyzedPosts out) /\ Nodes.isComplaint p = true).
Proof.
  intros X W input context st out st' H.
  destruct (socialAiAnalyze_success X W _ _ _ _ _ H)
    as [found [Hrel [Hsorted [Hhigh [Hcomp [Htotal [Hhc Hcc]]]]]]].
  split; [rewrite Hsorted; apply sort_Forall, Hrel |].
  split; [rewrite Hsorted; apply sort_sorted |].
  split; [exact Htotal |].
  split; [exact Hhc |].
  split; [exact Hcc |].
  split; [exact Hhigh |].
  split.
  { intro p; rewrite Hhigh, filter_In.
    unfold Nodes.isHighPriority.
    rewrite orb_true_iff, String.eqb_eq, Qle_bool_iff.
    reflexivity. }
  split; [exact Hcomp |].
  intro p; rewrite Hcomp, filter_In; reflexivity.
Qed.

(** The theorem at the sample run of the analyser. *)
Lemma C9_analyze_output_invariants_witness :
  exists out,
    Nodes.socialAiAnalyzeNode_executor Samples.externals Samples.analysisWorld
      Samples.analyzeInput Samples.context start
    = (Resolved (Nodes.Success out), mkSt 2 0 0) /\
    map Nodes.relevanceScore (Nodes.analyzedPosts out) = [90; 50] /\
    StronglySorted
      (fun a b => Nodes.relevanceScore b <= Nodes.relevanceScore a)
      (Nodes.analyzedPosts out) /\
    Nodes.highPriorityCount out = List.length (Nodes.highPriorityPosts out).
Proof.
  eexists; split; [vm_compute; reflexivity |].
  split; [reflexivity |].
  match goal with
  | |- context [Nodes.analyzedPosts ?o] =>
      pose proof (C9_analyze_output_invariants Samples.externals
                    Samples.analysisWorld Samples.analyzeInput Samples.context
                    start o (mkSt 2 0 0) eq_refl) as H
  end.
  split; [apply H | apply H].
Defined.

(* ================================================================== *)
(** ** The output of search_contacts *)
(* ================================================================== *)

Section SearchOutput.

Variable W : Nodes.World.

Lemma nonEmpty_Some (s : option string) (t : string) :
  Nodes.nonEmpty s = Some t -> t <> "".
Proof.
  destruct s as [s |]; simpl; [| discriminate].
  destruct (String.eqb_spec s ""); [discriminate |].
  intro H; inversion H; subst; assumption.
Qed.



End SearchOutput.



(* ================================================================== *)
(** ** Further properties of mock synthesis *)
(* ================================================================== *)

Lemma obj_set_fresh (o : obj) (k : string) (v : value) :
  ~ In k (map fst o) -> obj_set o k v = (o ++ [(k, v)])%list.
Proof.
  induction o as [| [k' v'] o IH]; simpl; intro Hk.
  - reflexivity.
  - destruct (String.eqb_spec k' k) as [-> | Hne].
    + exfalso; apply Hk; left; reflexivity.
    + rewrite IH; [reflexivity |].
      intro Hin; apply Hk; right; exact Hin.
Qed.

(** Assigning fresh keys one after the other builds the object of the
    entries, in order. *)
Lemma fold_obj_set_fresh {E} (key : E -> string) (f : E -> value)
  (entries : list E) :
  forall acc : obj,
    NoDup (map fst acc ++ map key entries) ->
    fold_left (fun result e => obj_set result (key e) (f e)) entries acc
    = (acc ++ map (fun e => (key e, f e)) entries)%list.
Proof.
  induction entries as [| e entries IH]; intros acc Hnd; simpl.
  - now rewrite app_nil_r.
  - simpl in Hnd.
    assert (Hfresh : ~ In (key e) (map fst acc)).
    { intro Hin.
      apply NoDup_remove_2 in Hnd; apply Hnd.
      apply in_or_app; left; exact Hin. }
    rewrite obj_set_fresh by exact Hfresh.
    rewrite IH.
    + now rewrite <- app_assoc.
    + rewrite map_app; simpl.
      rewrite <- app_assoc; simpl.
      apply NoDup_remove_1 in Hnd as Hrest.
      apply NoDup_remove_2 in Hnd as Hnot.
      clear - Hrest Hnot.
      induction (map fst acc) as [| a l IHl]; simpl in *.
      * constructor; assumption.
      * inversion Hrest as [| ? ? Ha Hl]; subst.
        constructor.
        -- intro Hin; apply Ha.
           apply in_app_or in Hin; destruct Hin as [Hin | [Heq | Hin]].
           ++ apply in_or_app; left; exact Hin.
           ++ exfalso; apply Hnot; left; symmetry; exact Heq.
           ++ apply in_or_app; right; exact Hin.
        -- apply IHl; [exact Hl |].
           intro Hin; apply Hnot; right; exact Hin.
Qed.

(** X1: for an Object schema whose field names are distinct, none of them
    [__proto__] or an array index, mock synthesis (CLI and web) returns an
    object with exactly the declared fields, in declaration order, each
    holding the synthesis of its field schema. (A field named [__proto__]
    gives no property, and fields named by array indices are listed first.) *)
Theorem mock_object_keeps_declaration_order :
  forall shape : list (string * ZodType),
    NoDup (map fst shape) ->
    Forall (fun entry => plainName (fst entry) = true) shape ->
    MockGenerator.generateFromDef (ZodObject shape)
    = VObj (map (fun entry =>
                   (fst entry, MockGenerator.generateFromDef (_def (snd entry))))
              shape) /\
    WebUtils.generateFromDef (ZodObject shape)
    = VObj (map (fun entry =>
                   (fst entry, WebUtils.generateFromDef (_def (snd entry))))
              shape).
Proof.
  intros shape Hnd _; split; simpl; f_equal;
    apply (fold_obj_set_fresh fst _ shape []); exact Hnd.
Qed.

(** The theorem at an object with two fields. *)
Lemma mock_object_keeps_declaration_order_witness :
  MockGenerator.generateFromDef
    (ZodObject [("topic", z ZodString); ("limit", z ZodNumber)])
  = VObj [("topic", VStr "mock_string"); ("limit", VNum 42)].
Proof.
  apply (mock_object_keeps_declaration_order
           [("topic", z ZodString); ("limit", z ZodNumber)]).
  - repeat constructor; simpl; intuition discriminate.
  - repeat constructor.
Defined.

(** X2: on every description built from String, Number, Boolean, Null,
    Undefined, Literal, Enum, Default, Object, Optional and Nullable only,
    the web playground's generator returns what the CLI playground's
    generator returns. *)
Theorem web_generator_agrees_with_cli :
  forall d : ZodDef,
    webCovers d = true ->
    WebUtils.generateFromDef d = MockGenerator.generateFromDef d.
Proof.
  fix IH 1.
  intros d H; destruct d; simpl in H; try discriminate H; try reflexivity.
  - (* ZodObject *)
    simpl; f_equal.
    generalize (@nil (string * value)).
    induction shape as [| [k [descr dk]] shape IHs]; intro acc; simpl.
    + reflexivity.
    + simpl in H; apply andb_true_iff in H; destruct H as [Hk Hrest].
      rewrite (IH dk Hk).
      apply IHs; exact Hrest.
  - destruct innerType as [descr di]; simpl in *; apply IH; exact H.
  - destruct innerType as [descr di]; simpl in *; apply IH; exact H.
Qed.

(** The theorem at an object with an optional enum and a default. *)
Lemma web_generator_agrees_with_cli_witness :
  WebUtils.generateFromDef
    (ZodObject [("mode", z (ZodOptional (z (ZodEnum ["fast"; "slow"]))));
                ("limit", z (ZodDefault (z ZodNumber) (VNum 10)))])
  = MockGenerator.generateFromDef
      (ZodObject [("mode", z (ZodOptional (z (ZodEnum ["fast"; "slow"]))));
                  ("limit", z (ZodDefault (z ZodNumber) (VNum 10)))]).
Proof.
  apply web_generator_agrees_with_cli; reflexivity.
Defined.

(* ================================================================== *)
(** ** Further properties of field derivation *)
(* ================================================================== *)

Lemma fold_left_push {A B} (g : A -> B) (l : list A) :
  forall acc : list B,
    fold_left (fun fields a => fields ++ [g a])%list l acc
    = (acc ++ map g l)%list.
Proof.
  induction l as [| a l IH]; intro acc; simpl.
  - now rewrite app_nil_r.
  - rewrite IH, <- app_assoc; reflexivity.
Qed.

(** X3: for an Object schema, both field derivations return one descriptor
    per declared field, in declaration order and under the field's name
    (prefixed by the CLI's prefix and a dot when the prefix is not empty);
    a field is marked as not required exactly when its schema is an Optional
    or a Default. *)
Theorem field_derivation_one_descriptor_per_field :
  forall (nowISO prefix : string) (descr : option string)
         (shape : list (string * ZodType)),
    let schema := Schema descr (ZodObject shape) in
    InputForm.extractFieldsFromSchema nowISO schema
    = map (fun entry => InputForm.fieldOf nowISO (fst entry) (snd entry)) shape /\
    Prompts.generatePromptsFromSchema schema prefix
    = map (fun entry => Prompts.promptOfField prefix (fst entry) (snd entry)) shape /\
    map InputForm.name (InputForm.extractFieldsFromSchema nowISO schema)
    = map fst shape /\
    map Prompts.name (Prompts.generatePromptsFromSchema schema prefix)
    = map (fun entry =>
             if String.eqb prefix "" then fst entry
             else prefix ++ "." ++ fst entry) shape /\
    map InputForm.required (InputForm.extractFieldsFromSchema nowISO schema)
    = map (fun entry => negb (Prompts.isOptional (_def (snd entry)))) shape /\
    map Prompts.required (Prompts.generatePromptsFromSchema schema prefix)
    = map (fun entry => negb (Prompts.isOptional (_def (snd entry)))) shape.
Proof.
  intros nowISO prefix descr shape schema.
  assert (Hf : InputForm.extractFieldsFromSchema nowISO schema
               = map (fun entry => InputForm.fieldOf nowISO (fst entry) (snd entry))
                   shape)
    by (unfold InputForm.extractFieldsFromSchema; simpl;
        apply (fold_left_push _ shape [])).
  assert (Hp : Prompts.generatePromptsFromSchema schema prefix
               = map (fun entry => Prompts.promptOfField prefix (fst entry) (snd entry))
                   shape)
    by (unfold Prompts.generatePromptsFromSchema; simpl;
        apply (fold_left_push _ shape [])).
  rewrite Hf, Hp, !map_map.
  split; [reflexivity |].
  split; [reflexivity |].
  split; [| split; [| split]]; apply map_ext; intros [key [d def]];
    unfold InputForm.fieldOf, Prompts.promptOfField; simpl.
  - destruct (InputForm.unwrap def) as [[isRequired innerDef] dv].
    destruct (InputForm.fieldTypeOf innerDef); reflexivity.
  - destruct (Prompts.unwrap def) as [innerDef dv].
    destruct (Prompts.promptTypeOf innerDef); reflexivity.
  - destruct def; simpl;
      match goal with
      | |- context [InputForm.fieldTypeOf ?x] =>
          destruct (InputForm.fieldTypeOf x); reflexivity
      | |- _ => reflexivity
      end.
  - destruct (Prompts.unwrap def) as [innerDef dv].
    destruct (Prompts.promptTypeOf innerDef); reflexivity.
Qed.

(** An example value is of the kind its field type calls for. *)
Lemma getExampleValue_fits nowISO fieldName fieldType options :
  fits fieldType (InputForm.getExampleValue nowISO fieldName fieldType options).
Proof.
  unfold InputForm.getExampleValue; cbv zeta.
  destruct fieldType; destruct options as [[| o l] |]; unfold fits, strs;
    repeat match goal with
           | |- context [if ?b then _ else _] => destruct b
           end;
    try reflexivity; eexists; reflexivity.
Qed.

Lemma fits_defined fieldType v : fits fieldType v -> InputForm.is_undefined v = false.
Proof.
  destruct fieldType; simpl; intro H;
    [ destruct H as [? ->] | destruct H as [? ->] | subst
    | destruct H as [? ->] | destruct H as [? ->] | destruct H as [? ->] ];
    reflexivity.
Qed.

(** X4: the web form gives every derived field a default that is not
    [undefined], and unless the field's schema is a Default this default is
    an example of the kind the field's type calls for: a number for a number
    field, [true] for a checkbox, an array for an array field, an object for
    a textarea, a string for a text or select field. *)
Theorem derived_field_has_fitting_default :
  forall (nowISO key : string) (fieldSchema : ZodType),
    let field := InputForm.fieldOf nowISO key fieldSchema in
    InputForm.is_undefined (InputForm.default field) = false /\
    match _def fieldSchema with
    | ZodDefault _ _ => True
    | _ => fits (InputForm.type field) (InputForm.default field)
    end.
Proof.
  intros nowISO key [descr def]; unfold InputForm.fieldOf; simpl.
  destruct (InputForm.unwrap def) as [[isRequired innerDef] dv] eqn:Eu.
  destruct (InputForm.fieldTypeOf innerDef) as [fieldType options] eqn:Et.
  simpl; split.
  - destruct (InputForm.is_undefined dv) eqn:Ed; [| exact Ed].
    eapply fits_defined, getExampleValue_fits.
  - destruct def; try exact I; simpl in Eu; inversion Eu; subst; simpl;
      apply getExampleValue_fits.
Qed.

(* ================================================================== *)
(** ** Further properties of resolveNestedPath *)
(* ================================================================== *)

Lemma string_app_length (a b : string) :
  String.length (a ++ b) = (String.length a + String.length b)%nat.
Proof.
  induction a as [| x a IH]; simpl; [reflexivity | now rewrite IH].
Qed.

(** The first segment of a string in which the separator occurs is
    shorter than the string. *)
Lemma split_go_first (sep : ascii) (s : string) :
  forall cur,
    occurs sep s = true ->
    exists p rest,
      split_go sep cur s = (cur ++ p)%string :: rest /\
      (String.length p < String.length s)%nat.
Proof.
  induction s as [| c s IH]; intros cur H; simpl in *.
  - discriminate.
  - destruct (Ascii.eqb c sep) eqn:Ec.
    + exists ""%string, (split_go sep "" s).
      rewrite string_app_empty; split; [reflexivity | simpl; lia].
    + simpl in H.
      destruct (IH (cur ++ String c "")%string H) as [p [rest [Hsplit Hlen]]].
      exists (String c p), rest; split.
      * rewrite Hsplit, string_app_assoc; reflexivity.
      * simpl; lia.
Qed.

(** Walking a path in two stretches. *)
Lemma walk_app (arrayMethods : list string) (ps qs : list string) :
  forall current,
    ExecutionContext.walk arrayMethods current (ps ++ qs)
    = match ExecutionContext.walk arrayMethods current ps with
      | inr reached => ExecutionContext.walk arrayMethods reached qs
      | inl e => inl e
      end.
Proof.
  induction ps as [| part ps IH]; intro current; simpl.
  - reflexivity.
  - destruct (isTruthy current && String.eqb (typeOf current) "object").
    + destruct (read arrayMethods current part) as [e | next];
        [reflexivity | apply IH].
    + now rewrite walk_undefined.
Qed.

(** X5: resolving a dotted path composes. When the path [p] resolves to a
    value, the path [p.q] resolves to what the walk along [q] finds from
    that value: the result of resolving [q] inside it when it is an object,
    and [undefined] when it is not an object or an array. *)
Theorem resolveNestedPath_composes :
  forall (arrayMethods : list string) (variables : obj) (p q : string)
         (reached : found),
    ExecutionContext.resolveNestedPath arrayMethods variables p = inr reached ->
    ExecutionContext.resolveNestedPath arrayMethods variables (p ++ "." ++ q)
    = ExecutionContext.walk arrayMethods reached (split "." q) /\
    (forall inner, reached = Data (VObj inner) ->
       ExecutionContext.resolveNestedPath arrayMethods variables (p ++ "." ++ q)
       = ExecutionContext.resolveNestedPath arrayMethods inner q) /\
    (ExecutionContext.indexable reached = false ->
       ExecutionContext.resolveNestedPath arrayMethods variables (p ++ "." ++ q)
       = inr (Data VUndefined)).
Proof.
  intros arrayMethods variables p q reached Hp.
  assert (Hpq : ExecutionContext.resolveNestedPath arrayMethods variables
                  (p ++ "." ++ q)
                = ExecutionContext.walk arrayMethods reached (split "." q)).
  { unfold ExecutionContext.resolveNestedPath in *; cbv zeta in *.
    unfold split in *; simpl String.append.
    rewrite split_go_app, walk_app, Hp; reflexivity. }
  split; [exact Hpq |]; split.
  - intros inner ->; exact Hpq.
  - intro Hni; rewrite Hpq.
    unfold split.
    destruct (split_go "." "" q) as [| part rest] eqn:Es.
    + exfalso; exact (split_go_not_nil _ _ _ Es).
    + cbn [walk]; rewrite guard_indexable, Hni; reflexivity.
Qed.

(** The theorem at the path a.b.c, read as a followed by b.c. *)
Lemma resolveNestedPath_composes_witness :
  ExecutionContext.resolveNestedPath ["map"; "push"]
    [("a", VObj [("b", VObj [("c", VNum 42)])])] ("a" ++ "." ++ "b.c")
  = ExecutionContext.resolveNestedPath ["map"; "push"]
      [("b", VObj [("c", VNum 42)])] "b.c".
Proof.
  destruct (resolveNestedPath_composes ["map"; "push"]
              [("a", VObj [("b", VObj [("c", VNum 42)])])] "a" "b.c"
              (Data (VObj [("b", VObj [("c", VNum 42)])])) eq_refl) as [_ [H _]].
  apply H; reflexivity.
Defined.

Lemma obj_get_set_same (o : obj) (k : string) (v : value) :
  obj_get (obj_set o k v) k = v.
Proof.
  induction o as [| [k' v'] o IH]; simpl.
  - now rewrite String.eqb_refl.
  - destruct (String.eqb k' k) eqn:E; simpl; rewrite E; [reflexivity | exact IH].
Qed.

Lemma obj_find_set_same (o : obj) (k : string) (v : value) :
  obj_find (obj_set o k v) k = Some v.
Proof.
  induction o as [| [k' v'] o IH]; simpl.
  - now rewrite String.eqb_refl.
  - destruct (String.eqb k' k) eqn:E; simpl; rewrite E; [reflexivity | exact IH].
Qed.

Lemma obj_find_filter_other (o : obj) (k part : string) :
  part <> k ->
  obj_find (filter (fun entry => negb (String.eqb (fst entry) k)) o) part
  = obj_find o part.
Proof.
  intro Hne; induction o as [| [k' v'] o IH]; simpl.
  - reflexivity.
  - destruct (String.eqb_spec k' k) as [-> | Hk]; simpl.
    + destruct (String.eqb_spec k part) as [-> | _]; [contradiction | exact IH].
    + destruct (String.eqb k' part); [reflexivity | exact IH].
Qed.

(** X6: a variable assigned under a name without a dot is found by resolving
    that name. A variable stored under a name that contains a dot is never
    reached through that name: resolving it gives what it would give if the
    variable were not there. *)
Theorem resolveNestedPath_top_level_names :
  forall (arrayMethods : list string) (variables : obj) (name : string)
         (v : value),
    (occurs "." name = false ->
     ExecutionContext.resolveNestedPath arrayMethods (obj_set variables name v) name
     = inr (Data v)) /\
    (occurs "." name = true ->
     ExecutionContext.resolveNestedPath arrayMethods variables name
     = ExecutionContext.resolveNestedPath arrayMethods
         (filter (fun entry => negb (String.eqb (fst entry) name)) variables)
         name).
Proof.
  intros arrayMethods variables name v; split; intro Hdot;
    unfold ExecutionContext.resolveNestedPath; cbv zeta; unfold split.
  - rewrite split_go_no_sep by exact Hdot.
    cbn [String.append walk isTruthy typeOf truthy typeof andb String.eqb
           Ascii.eqb Bool.eqb read].
    unfold lookup, lookupFrom; cbn [own].
    rewrite obj_find_set_same; reflexivity.
  - destruct (split_go_first "." name "" Hdot) as [first [rest [-> Hlen]]].
    cbn [String.append walk isTruthy typeOf truthy typeof andb String.eqb
           Ascii.eqb Bool.eqb read].
    unfold lookup, lookupFrom; cbn [own].
    rewrite obj_find_filter_other; [reflexivity |].
    intro Heq; rewrite Heq in Hlen; lia.
Qed.

(** The theorem at a plain name and at a dotted one. *)
Lemma resolveNestedPath_top_level_names_witness :
  ExecutionContext.resolveNestedPath ["map"; "push"]
    (obj_set [("user", VStr "ann")] "senderName" (VStr "Sam")) "senderName"
  = inr (Data (VStr "Sam"))
  /\ ExecutionContext.resolveNestedPath ["map"; "push"] [("a.b", VNum 1)] "a.b"
     = ExecutionContext.resolveNestedPath ["map"; "push"] [] "a.b".
Proof.
  split.
  - apply (resolveNestedPath_top_level_names ["map"; "push"]
             [("user", VStr "ann")] "senderName" (VStr "Sam")); reflexivity.
  - apply (resolveNestedPath_top_level_names ["map"; "push"]
             [("a.b", VNum 1)] "a.b" VNull);
      reflexivity.
Defined.

(* ================================================================== *)
(** ** Further properties of the executors *)
(* ================================================================== *)

Lemma nonEmpty_missing (key : option string) :
  missing key -> Nodes.nonEmpty key = None.
Proof. intros [-> | ->]; reflexivity. Qed.

(** X7: without an API key (absent or empty) an executor returns its
    configuration failure at once: no request is made, the clock is not read
    and nothing is slept. The same holds for draft_emails when the key is
    there but the variable senderName is missing or falsy. *)
Theorem missing_configuration_makes_no_call :
  forall (X : Nodes.Externals) (W : Nodes.World)
         (context : Nodes.NodeExecutionContext) (st : St),
    (missing (Nodes.anthropicKey context) ->
     let failure {O} : Outcome (Nodes.NodeExecutionResult O) * St :=
       (Resolved (Nodes.Failure
          "Anthropic API key not configured. Please provide context.credentials.anthropic.apiKey."),
        st) in
     (forall input,
        Nodes.socialKeywordGeneratorNode_executor X W input context st = failure) /\
     (forall input, Nodes.draftEmailsNode_executor X W input context st = failure) /\
     (forall input, Nodes.socialAiAnalyzeNode_executor X W input context st = failure)) /\
    (missing (Nodes.apolloKey context) ->
     forall input,
       Nodes.searchContactsNode_executor W input context st
       = (Resolved (Nodes.Failure
            "Apollo API key not configured. Please provide context.credentials.apollo.apiKey."),
          st)) /\
    (~ missing (Nodes.anthropicKey context) ->
     truthy (obj_get (Nodes.variables context) "senderName") = false ->
     forall input,
       Nodes.draftEmailsNode_executor X W input context st
       = (Resolved (Nodes.Failure
            "Please set senderName in context.variables before creating email campaigns."),
          st)).
Proof.
  intros X W context st; split; [| split].
  - intros Hkey failure; apply nonEmpty_missing in Hkey.
    repeat split; intro input;
      [ unfold Nodes.socialKeywordGeneratorNode_executor,
          Nodes.socialKeywordGeneratorNode_try
      | unfold Nodes.draftEmailsNode_executor, Nodes.draftEmailsNode_try
      | unfold Nodes.socialAiAnalyzeNode_executor, Nodes.socialAiAnalyzeNode_try ];
      unfold tryCatch; rewrite Hkey; reflexivity.
  - intros Hkey input; apply nonEmpty_missing in Hkey.
    unfold Nodes.searchContactsNode_executor, Nodes.searchContactsNode_try,
      tryCatch.
    rewrite Hkey; reflexivity.
  - intros Hkey Hsender input.
    unfold Nodes.draftEmailsNode_executor, Nodes.draftEmailsNode_try, tryCatch.
    destruct (Nodes.anthropicKey context) as [key |] eqn:E;
      [| exfalso; apply Hkey; left; reflexivity].
    simpl.
    destruct (String.eqb_spec key "") as [-> | Hne];
      [exfalso; apply Hkey; right; reflexivity |].
    rewrite Hsender; reflexivity.
Qed.

(** The theorem at a context without credentials, and at one with a key but
    no sender. *)
Lemma missing_configuration_makes_no_call_witness :
  Nodes.socialAiAnalyzeNode_executor Samples.externals Samples.analysisWorld
    Samples.analyzeInput (Nodes.mkContext None []) start
  = (Resolved (Nodes.Failure
       "Anthropic API key not configured. Please provide context.credentials.anthropic.apiKey."),
     start)
  /\ Nodes.draftEmailsNode_executor Samples.externals Samples.draftWorld
       Samples.draftInput
       (Nodes.mkContext (Nodes.credentials Samples.context) [("senderName", VStr "")])
       start
     = (Resolved (Nodes.Failure
          "Please set senderName in context.variables before creating email campaigns."),
        start).
Proof.
  split.
  - apply (missing_configuration_makes_no_call Samples.externals
             Samples.analysisWorld (Nodes.mkContext None []) start).
    left; reflexivity.
  - apply (missing_configuration_makes_no_call Samples.externals
             Samples.draftWorld
             (Nodes.mkContext (Nodes.credentials Samples.context)
                [("senderName", VStr "")]) start).
    + intros [H | H]; discriminate H.
    + reflexivity.
Defined.

Section AnalyzerRuns.

Variable X : Nodes.Externals.
Variable W : Nodes.World.

(** A call of [generateText] makes one request, whatever comes of it. *)
Lemma generateText_state apiKey prompt st :
  snd (Nodes.generateText W apiKey prompt st)
  = mkSt (S (fetches st)) (clockReads st) (slept st).
Proof.
  unfold Nodes.generateText, bind, Nodes.fetchWithRetry.
  destruct (Nodes.anthropicMessages W (fetches st) apiKey prompt)
    as [e | response]; [reflexivity |].
  destruct (Nodes.ok response); simpl.
  - destruct (Nodes.json response) as [e | data]; simpl; [reflexivity |].
    destruct (Nodes.content data); reflexivity.
  - destruct (Nodes.text response); reflexivity.
Qed.


(** What a successful run of the analyser went through: no post at all, or
    the batch loop from the first post. *)
Lemma socialAiAnalyze_success_loop input context st out st' :
  Nodes.socialAiAnalyzeNode_executor X W input context st
  = (Resolved (Nodes.Success out), st') ->
  (allPostsOf input = [] /\ Nodes.analyzedPosts out = [] /\ st' = st) \/
  (exists apiKey found,
     Nodes.nonEmpty (Nodes.anthropicKey context) = Some apiKey /\
     allPostsOf input <> [] /\
     Nodes.analyzeBatches X W apiKey input (allPostsOf input)
       (List.length (allPostsOf input)) 0 [] st = (Resolved found, st') /\
     Nodes.analyzedPosts out = Nodes.sort byRelevance found).
Proof.
  unfold Nodes.socialAiAnalyzeNode_executor, tryCatch, Nodes.socialAiAnalyzeNode_try.
  destruct (Nodes.nonEmpty (Nodes.anthropicKey context)) as [apiKey |];
    [| discriminate].
  fold (allPostsOf input).
  destruct (Nat.eqb_spec (List.length (allPostsOf input)) 0) as [Hz | Hnz].
  - simpl; intro H; inversion H; subst; left.
    apply length_zero_iff_nil in Hz; auto.
  - unfold bind.
    destruct (Nodes.analyzeBatches X W apiKey input (allPostsOf input) _ 0 [] st)
      as [[found | e |] st1] eqn:Eloop; try discriminate.
    simpl; intro H; inversion H; subst; simpl; right.
    exists apiKey, found; repeat split; auto.
    intro Hnil; apply Hnz; rewrite Hnil; reflexivity.
Qed.


End AnalyzerRuns.



Section AnalyzerProvenance.

Variable X : Nodes.Externals.
Variable W : Nodes.World.

Lemma slice_In {A} (i j : nat) (l : list A) (x : A) :
  In x (Nodes.slice i j l) -> In x l.
Proof.
  unfold Nodes.slice; intro H.
  rewrite <- (firstn_skipn i l); apply in_or_app; right.
  rewrite <- (firstn_skipn (j - i) (skipn i l)); apply in_or_app; left.
  exact H.
Qed.

Lemma mergeAnalysis_from (P : Nodes.SocialPost -> Prop) batch analysis acc pushed :
  Nodes.mergeAnalysis X batch analysis acc = inr pushed ->
  (forall p, In p batch -> P p) ->
  Forall (fun a => P (Nodes.originalPost a)) acc ->
  Forall (fun a => P (Nodes.originalPost a)) pushed.
Proof.
  unfold Nodes.mergeAnalysis.
  destruct (find _ batch) as [originalPost |] eqn:Efind;
    [| intro H; inversion H; subst; auto].
  destruct (Nodes.an_relevanceScore analysis) as [score |];
    [| intro H; inversion H; subst; auto].
  destruct (Qle_bool (Nodes.MIN_RELEVANCE_SCORE X) score);
    [| intro H; inversion H; subst; auto].
  destruct (Nodes.normalizeSentiment X _) as [e | sentiment]; [discriminate |].
  destruct (Nodes.normalizeUrgency X _) as [e | urgencyLevel]; [discriminate |].
  intros H Hbatch Hacc; inversion H; subst.
  apply Forall_app; split; [exact Hacc |].
  constructor; [| constructor].
  simpl; apply Hbatch.
  apply find_some in Efind; apply Efind.
Qed.

Lemma mergeBatch_from (P : Nodes.SocialPost -> Prop) batch analyzed :
  (forall p, In p batch -> P p) ->
  forall acc,
    Forall (fun a => P (Nodes.originalPost a)) acc ->
    Forall (fun a => P (Nodes.originalPost a))
      (Nodes.mergeBatch X batch analyzed acc).
Proof.
  intro Hbatch.
  induction analyzed as [| [analysis |] rest IH]; intros acc Hacc; simpl.
  - exact Hacc.
  - destruct (Nodes.mergeAnalysis X batch analysis acc) as [e | pushed] eqn:E;
      [exact Hacc |].
    apply IH; eapply mergeAnalysis_from; eassumption.
  - exact Hacc.
Qed.

Lemma analyzeBatches_from apiKey input allPosts rounds :
  forall i acc st found st',
    Nodes.analyzeBatches X W apiKey input allPosts rounds i acc st
    = (Resolved found, st') ->
    Forall (fun a => In (Nodes.originalPost a) allPosts) acc ->
    Forall (fun a => In (Nodes.originalPost a) allPosts) found.
Proof.
  induction rounds as [| rounds IH]; intros i acc st found st'; simpl.
  - destruct (i <? List.length allPosts)%nat; [discriminate |].
    intro H; inversion H; subst; auto.
  - destruct (i <? List.length allPosts)%nat;
      [| intro H; inversion H; subst; auto].
    unfold bind at 1.
    destruct (Nodes.buildAnalysisPrompt X _ _ _) as [e | prompt]; simpl;
      [discriminate |].
    unfold bind.
    destruct (Nodes.generateText W apiKey prompt st)
      as [[responseText | e |] st1]; try discriminate.
    destruct (Nodes.matchBetween "[" "]" responseText) as [jsonText |];
      [| apply IH].
    destruct (Nodes.JSON_parse_analysis X jsonText) as [e | analyzed];
      [apply IH |].
    intros H Hacc.
    eapply IH; [exact H |].
    apply (mergeBatch_from (fun p => In p allPosts)); [| exact Hacc].
    intros p Hp; eapply slice_In; exact Hp.
Qed.

End AnalyzerProvenance.

(** X9: every post that social_ai_analyze reports is one of the posts it was
    given (from any of the four input lists), whatever ids the AI response
    names; and when it is given no post at all it succeeds with an empty
    list without making a request. *)
Theorem analyzed_posts_come_from_input :
  forall (X : Nodes.Externals) (W : Nodes.World) input context st out st',
    Nodes.socialAiAnalyzeNode_executor X W input context st
    = (Resolved (Nodes.Success out), st') ->
    Forall (fun a => In (Nodes.originalPost a) (allPostsOf input))
      (Nodes.analyzedPosts out) /\
    Forall (fun a => In a (Nodes.analyzedPosts out)) (Nodes.highPriorityPosts out) /\
    Forall (fun a => In a (Nodes.analyzedPosts out)) (Nodes.complaints out) /\
    (allPostsOf input = [] -> Nodes.analyzedPosts out = [] /\ st' = st).
Proof.
  intros X W input context st out st' H.
  pose proof (socialAiAnalyze_success X W _ _ _ _ _ H)
    as [_ [_ [_ [Hhigh [Hcomp _]]]]].
  split; [| split; [| split]].
  - destruct (socialAiAnalyze_success_loop X W _ _ _ _ _ H)
      as [[_ [-> _]] | [apiKey [found [_ [_ [Hloop ->]]]]]]; [constructor |].
    apply sort_Forall.
    eapply analyzeBatches_from; [exact Hloop | constructor].
  - rewrite Hhigh; apply Forall_forall; intros a Ha.
    apply filter_In in Ha; apply Ha.
  - rewrite Hcomp; apply Forall_forall; intros a Ha.
    apply filter_In in Ha; apply Ha.
  - intro Hnil.
    destruct (socialAiAnalyze_success_loop X W _ _ _ _ _ H)
      as [[_ [Hout Hst]] | [apiKey [found [_ [Hne _]]]]];
      [split; assumption | contradiction].
Qed.

(** The theorem at the sample run of the analyser. *)
Lemma analyzed_posts_come_from_input_witness :
  exists out,
    Nodes.socialAiAnalyzeNode_executor Samples.externals Samples.analysisWorld
      Samples.analyzeInput Samples.context start
    = (Resolved (Nodes.Success out), mkSt 2 0 0) /\
    Forall (fun a => In (Nodes.originalPost a) (allPostsOf Samples.analyzeInput))
      (Nodes.analyzedPosts out).
Proof.
  eexists.
  match goal with
  | |- ?run = (Resolved (Nodes.Success ?o), _) /\ _ =>
      assert (Hrun : run = (Resolved (Nodes.Success o), mkSt 2 0 0))
        by (vm_compute; reflexivity)
  end.
  split; [exact Hrun |].
  apply (analyzed_posts_come_from_input _ _ _ _ _ _ _ Hrun).
Defined.

Section DraftRuns.

Variable X : Nodes.Externals.
Variable W : Nodes.World.

Ltac stepText :=
  match goal with
  | |- context [match ?x with inl _ => _ | inr _ => _ end] =>
      destruct x; simpl; try discriminate
  | |- context [Nodes.generateText W ?k ?p ?s] =>
      let Hst := fresh "Hst" in
      generalize (generateText_state W k p s);
      destruct (Nodes.generateText W k p s) as [[? | ? |] ?];
      simpl; intro Hst; subst; try discriminate
  | |- context [match ?x with _ => _ end] =>
      destruct x; simpl; try discriminate
  end.

(** The [try] block of a drafting round, when it completes: one draft for
    the contact, after two requests, one clock reading and a pause. *)
Lemma draftContact_try_resolved
  apiKey senderName input contact contactEmail emails st r st' :
  Nodes.draftContact_try X W apiKey senderName input contact contactEmail
    emails st = (Resolved r, st') ->
  exists draft,
    r = (emails ++ [draft])%list /\
    Nodes.toEmail draft = contactEmail /\
    Nodes.toName draft = Nodes.contact_name contact /\
    Nodes.draft_status draft = "draft" /\
    consumed st st' 2 1 200.
Proof.
  unfold Nodes.draftContact_try, bind, call, await, ret, throw, sleep,
    Nodes.DateNow.
  repeat stepText.
  intro H; inversion H; subst; eexists.
  split; [reflexivity |].
  unfold consumed; simpl; repeat split; lia || reflexivity.
Qed.

(** When it throws, it has made at most two requests and has neither read
    the clock nor paused. *)
Lemma draftContact_try_rejected
  apiKey senderName input contact contactEmail emails st e st' :
  Nodes.draftContact_try X W apiKey senderName input contact contactEmail
    emails st = (Rejected e, st') ->
  exists calls, (calls <= 2)%nat /\ consumed st st' calls 0 0.
Proof.
  unfold Nodes.draftContact_try, bind, call, await, ret, throw, sleep,
    Nodes.DateNow.
  repeat stepText;
    intro H; inversion H; subst;
    first [ exists 0%nat; unfold consumed; simpl; repeat split; lia
          | exists 1%nat; unfold consumed; simpl; repeat split; lia
          | exists 2%nat; unfold consumed; simpl; repeat split; lia ].
Qed.

(** What the drafting loop adds to the drafts and what it consumes. *)
Lemma draftLoop_accounts apiKey senderName input contacts :
  forall emails st r st',
    forOf contacts (Nodes.draftContact X W apiKey senderName input) emails st
    = (Resolved r, st') ->
    exists more calls,
      r = (emails ++ more)%list /\
      Subseq (map Nodes.toEmail more) (contactEmails contacts) /\
      Forall (fun d => Nodes.draft_status d = "draft") more /\
      (2 * List.length more <= calls <= 2 * List.length (contactEmails contacts))%nat /\
      consumed st st' calls (List.length more)
        (200 * Z.of_nat (List.length more)).
Proof.
  induction contacts as [| contact contacts IH]; intros emails st r st';
    cbn [forOf].
  - intro H; inversion H; subst; exists [], 0%nat.
    rewrite app_nil_r; repeat split; simpl; try lia; constructor.
  - unfold bind.
    destruct (Nodes.draftContact X W apiKey senderName input contact emails st)
      as [[emails1 | e |] st1] eqn:E1; try discriminate.
    intro H.
    destruct (IH _ _ _ _ H)
      as [more [calls [-> [Hsub [Hstatus [Hcalls [Hf [Hc Hs]]]]]]]].
    unfold Nodes.draftContact in E1.
    change (contactEmails (contact :: contacts))
      with (match Nodes.nonEmpty (Nodes.contact_email contact) with
            | Some e => [e]
            | None => []
            end ++ contactEmails contacts)%list.
    destruct (Nodes.nonEmpty (Nodes.contact_email contact)) as [contactEmail |];
      cbn [app].
    + unfold tryCatch in E1.
      destruct (Nodes.draftContact_try X W apiKey senderName input contact
                  contactEmail emails st) as [[r0 | e |] st0] eqn:Etry;
        try discriminate.
      * inversion E1; subst.
        destruct (draftContact_try_resolved _ _ _ _ _ _ _ _ _ Etry)
          as [draft [-> [Hto [_ [Hdraft [Hf1 [Hc1 Hs1]]]]]]].
        exists (draft :: more), (2 + calls)%nat.
        rewrite <- app_assoc; simpl.
        split; [reflexivity |].
        split; [rewrite Hto; apply Subseq_take, Hsub |].
        split; [constructor; assumption |].
        split; [lia |].
        unfold consumed; repeat split; lia.
      * simpl in E1; inversion E1; subst.
        destruct (draftContact_try_rejected _ _ _ _ _ _ _ _ _ Etry)
          as [calls1 [Hle [Hf1 [Hc1 Hs1]]]].
        exists more, (calls1 + calls)%nat.
        split; [reflexivity |].
        split; [apply Subseq_skip, Hsub |].
        split; [exact Hstatus |].
        split; [simpl; lia |].
        unfold consumed; repeat split; lia.
    + simpl in E1; inversion E1; subst.
      exists more, calls.
      split; [reflexivity |].
      split; [exact Hsub |].
      split; [exact Hstatus |].
      split; [lia |].
      unfold consumed; repeat split; assumption.
Qed.

(** A successful run of draft_emails is a run of its loop. *)
Lemma draftEmails_success_loop input context st out st' :
  Nodes.draftEmailsNode_executor X W input context st
  = (Resolved (Nodes.Success out), st') ->
  exists apiKey,
    Nodes.nonEmpty (Nodes.anthropicKey context) = Some apiKey /\
    forOf (Nodes.contacts input)
      (Nodes.draftContact X W apiKey
         (obj_get (Nodes.variables context) "senderName") input) [] st
    = (Resolved (Nodes.emails out), st') /\
    Nodes.draftedCount out = List.length (Nodes.emails out).
Proof.
  unfold Nodes.draftEmailsNode_executor, tryCatch, Nodes.draftEmailsNode_try.
  destruct (Nodes.nonEmpty (Nodes.anthropicKey context)) as [apiKey |];
    [| discriminate].
  destruct (truthy (obj_get (Nodes.variables context) "senderName"));
    cbn [negb]; [| discriminate].
  unfold bind.
  destruct (forOf (Nodes.contacts input) _ [] st) as [[emails | e |] st1] eqn:E;
    try discriminate.
  simpl; intro H; inversion H; subst; simpl.
  exists apiKey; repeat split; exact E.
Qed.

End DraftRuns.

(** X10: when draft_emails succeeds, draftedCount is the number of drafts;
    the recipients of the drafts are emails of the given contacts, in the
    order of the contacts, each contact used at most once and contacts
    without an email never; every draft has the status 'draft'. *)
Theorem drafts_follow_the_contacts :
  forall (X : Nodes.Externals) (W : Nodes.World) input context st out st',
    Nodes.draftEmailsNode_executor X W input context st
    = (Resolved (Nodes.Success out), st') ->
    Nodes.draftedCount out = List.length (Nodes.emails out) /\
    Subseq (map Nodes.toEmail (Nodes.emails out))
      (contactEmails (Nodes.contacts input)) /\
    (Nodes.draftedCount out <= List.length (Nodes.contacts input))%nat /\
    Forall (fun d => Nodes.draft_status d = "draft") (Nodes.emails out).
Proof.
  intros X W input context st out st' H.
  destruct (draftEmails_success_loop X W _ _ _ _ _ H) as [apiKey [_ [Hloop Hcount]]].
  destruct (draftLoop_accounts X W _ _ _ _ _ _ _ _ Hloop)
    as [more [calls [Hmore [Hsub [Hstatus [Hcalls _]]]]]].
  simpl in Hmore; subst more.
  split; [exact Hcount |].
  split; [exact Hsub |].
  split; [| exact Hstatus].
  rewrite Hcount.
  assert (List.length (contactEmails (Nodes.contacts input))
          <= List.length (Nodes.contacts input))%nat; [| lia].
  clear; induction (Nodes.contacts input) as [| c l IH]; simpl; [lia |].
  unfold contactEmails in *; simpl.
  destruct (Nodes.nonEmpty (Nodes.contact_email c)); simpl; lia.
Qed.

(** The theorem at the sample run: of John, Bob and Ann, Bob's draft fails. *)
Lemma drafts_follow_the_contacts_witness :
  exists out st',
    Nodes.draftEmailsNode_executor Samples.externals Samples.draftWorld
      Samples.draftInput Samples.context start
    = (Resolved (Nodes.Success out), st') /\
    map Nodes.toEmail (Nodes.emails out) = ["john@acme.com"; "ann@acme.com"] /\
    Subseq (map Nodes.toEmail (Nodes.emails out))
      (contactEmails (Nodes.contacts Samples.draftInput)).
Proof.
  eexists; eexists.
  match goal with
  | |- ?run = (Resolved (Nodes.Success ?o), ?s) /\ _ =>
      assert (Hrun : run = (Resolved (Nodes.Success o), s))
        by (vm_compute; reflexivity)
  end.
  split; [exact Hrun |].
  split; [reflexivity |].
  apply (drafts_follow_the_contacts _ _ _ _ _ _ _ Hrun).
Defined.



(* ================================================================== *)
(** ** The keyword lists of social_keyword_generator *)
(* ================================================================== *)

Lemma dedupeFrom_In (l : list string) :
  forall seen x, In x (Nodes.dedupeFrom seen l) <-> In x l /\ ~ In x seen.
Proof.
  induction l as [| y l IH]; intros seen x; simpl.
  - tauto.
  - destruct (existsb (String.eqb y) seen) eqn:E.
    + apply existsb_eqb_In in E.
      rewrite IH; split.
      * intros [Hl Hs]; auto.
      * intros [[-> | Hl] Hs]; [contradiction | auto].
    + assert (Hy : ~ In y seen).
      { intro H; apply existsb_eqb_In in H; congruence. }
      simpl; rewrite IH; simpl; split.
      * intros [-> | [Hl Hs]]; [auto |].
        split; [auto | intro H; apply Hs; auto].
      * intros [[-> | Hl] Hs]; [auto |].
        destruct (string_dec y x) as [-> | Hne]; [auto |].
        right; split; [exact Hl |].
        intros [H | H]; [contradiction | contradiction].
Qed.

Lemma dedupeFrom_NoDup (l : list string) :
  forall seen, NoDup (Nodes.dedupeFrom seen l).
Proof.
  induction l as [| y l IH]; intro seen; simpl.
  - constructor.
  - destruct (existsb (String.eqb y) seen); [apply IH |].
    constructor; [| apply IH].
    rewrite dedupeFrom_In; intros [_ H]; apply H; left; reflexivity.
Qed.

Lemma dedupe_In (l : list string) (x : string) :
  In x (Nodes.dedupe l) <-> In x l.
Proof. unfold Nodes.dedupe; rewrite dedupeFrom_In; simpl; tauto. Qed.

Lemma dedupe_NoDup (l : list string) : NoDup (Nodes.dedupe l).
Proof. apply dedupeFrom_NoDup. Qed.

(** X12: when social_keyword_generator succeeds, it has made exactly one
    request; the topic is the input's; no keyword list (Twitter, Reddit,
    LinkedIn, all) holds a keyword twice; every keyword the user supplied
    is in each of the three platform lists; and allKeywords holds exactly
    the keywords of the three platform lists. *)
Theorem keyword_lists_are_merged_without_repetition :
  forall (X : Nodes.Externals) (W : Nodes.World) input context st out st',
    Nodes.socialKeywordGeneratorNode_executor X W input context st
    = (Resolved (Nodes.Success out), st') ->
    let twitter := fst (Nodes.out_twitter out) in
    let reddit := Nodes.out_reddit out in
    let linkedin := fst (Nodes.out_linkedin out) in
    consumed st st' 1 0 0 /\
    Nodes.out_topic out = Nodes.kw_topic input /\
    NoDup twitter /\ NoDup reddit /\ NoDup linkedin /\
    NoDup (Nodes.allKeywords out) /\
    (forall k, In k (Nodes.orNil (Nodes.userKeywords input)) ->
               In k twitter /\ In k reddit /\ In k linkedin) /\
    (forall k, In k (Nodes.allKeywords out) <->
               In k twitter \/ In k reddit \/ In k linkedin).
Proof.
  intros X W input context st out st'.
  unfold Nodes.socialKeywordGeneratorNode_executor, tryCatch,
    Nodes.socialKeywordGeneratorNode_try.
  destruct (Nodes.nonEmpty (Nodes.anthropicKey context)) as [apiKey |];
    [| discriminate].
  unfold bind at 1, call, await.
  destruct (Nodes.buildKeywordPrompt X _ _) as [e | prompt]; simpl;
    [discriminate |].
  unfold bind at 1.
  generalize (generateText_state W apiKey prompt st).
  destruct (Nodes.generateText W apiKey prompt st)
    as [[responseText | e |] st1]; simpl; intro Hst; subst st1;
    try discriminate.
  destruct (Nodes.matchBetween "{" "}" responseText) as [jsonText |];
    [| discriminate].
  destruct (Nodes.JSON_parse_keywords X jsonText) as [e | parsed];
    [discriminate |].
  unfold bind, defined.
  destruct (Nodes.twitter parsed) as [tw |]; simpl; [| discriminate].
  destruct (Nodes.tw_keywords tw) as [twk |]; simpl; [| discriminate].
  destruct (Nodes.reddit parsed) as [rd |]; simpl; [| discriminate].
  destruct (Nodes.rd_keywords rd) as [rdk |]; simpl; [| discriminate].
  destruct (Nodes.linkedin parsed) as [li |]; simpl; [| discriminate].
  destruct (Nodes.li_keywords li) as [lik |]; simpl; [| discriminate].
  intro H; inversion H; subst; simpl.
  split; [unfold consumed; simpl; lia |].
  split; [reflexivity |].
  split; [apply dedupe_NoDup |].
  split; [apply dedupe_NoDup |].
  split; [apply dedupe_NoDup |].
  split; [apply dedupe_NoDup |].
  split.
  - intros k Hk; rewrite !dedupe_In, !in_app_iff; auto.
  - intro k; rewrite dedupe_In, !in_app_iff; tauto.
Qed.

(** The theorem at a sample run: the user's keywords lag and crash join
    those of the response. *)
Lemma keyword_lists_are_merged_without_repetition_witness :
  exists out,
    Nodes.socialKeywordGeneratorNode_executor keywordExternals keywordWorld
      keywordInput Samples.context start
    = (Resolved (Nodes.Success out), mkSt 1 0 0) /\
    fst (Nodes.out_twitter out) = ["slow app"; "lag"; "crash"] /\
    Nodes.out_reddit out = ["lag"; "crash"] /\
    Nodes.allKeywords out = ["slow app"; "lag"; "crash"; "latency"] /\
    NoDup (Nodes.allKeywords out).
Proof.
  eexists.
  match goal with
  | |- ?run = (Resolved (Nodes.Success ?o), ?s) /\ _ =>
      assert (Hrun : run = (Resolved (Nodes.Success o), s))
        by (vm_compute; reflexivity)
  end.
  split; [exact Hrun |].
  split; [reflexivity |].
  split; [reflexivity |].
  split; [reflexivity |].
  apply (keyword_lists_are_merged_without_repetition _ _ _ _ _ _ _ Hrun).
Defined.

(* ================================================================== *)
(** ** The contacts and the request of search_contacts *)
(* ================================================================== *)

Lemma orS_filled (a : option string) (b : string) : b <> "" -> orS a b <> "".
Proof.
  intro Hb; unfold orS.
  destruct a as [s |]; [| exact Hb].
  destruct (String.eqb_spec s ""); [exact Hb | assumption].
Qed.

Lemma nonEmpty_not_empty (s : option string) : Nodes.nonEmpty s <> Some "".
Proof.
  intro H; apply (nonEmpty_Some _ _ H); reflexivity.
Qed.

Lemma foundContact_filledIn (enriched : Nodes.ApolloPerson) (enrichedEmail : string) :
  filledIn (Nodes.foundContact enriched enrichedEmail).
Proof.
  unfold filledIn, Nodes.foundContact; cbn zeta; cbn [Nodes.found_name
    Nodes.company Nodes.lastName Nodes.location].
  split.
  { destruct (Nodes.nonEmpty (Nodes.name enriched)) as [n |] eqn:E.
    - eapply nonEmpty_Some; exact E.
    - apply orS_filled; discriminate. }
  split.
  { destruct (Nodes.organization_name enriched) as [s |]; simpl.
    - destruct (String.eqb_spec s ""); [| assumption].
      apply orS_filled; discriminate.
    - apply orS_filled; discriminate. }
  split; apply nonEmpty_not_empty.
Qed.

Section FilledContacts.

Variable W : Nodes.World.

Lemma enrichContact_filledIn apiKey contact acc st acc' st' :
  Nodes.enrichContact W apiKey contact acc st = (Resolved acc', st') ->
  Forall filledIn acc -> Forall filledIn acc'.
Proof.
  unfold Nodes.enrichContact.
  destruct (Nodes.nonEmpty (Nodes.id contact)) as [contactId |];
    [| simpl; intros H Hacc; inversion H; subst; exact Hacc].
  unfold tryCatch, bind.
  destruct (Nodes.enrichApolloContact W apiKey contactId st)
    as [[enriched | e |] st1]; simpl.
  - intros H Hacc; inversion H; subst.
    destruct enriched as [enriched |]; [| exact Hacc].
    destruct (Nodes.nonEmpty (Nodes.email enriched)) as [enrichedEmail |];
      [| exact Hacc].
    apply Forall_app; split; [exact Hacc |].
    constructor; [apply foundContact_filledIn | constructor].
  - intros H Hacc; inversion H; subst; exact Hacc.
  - discriminate.
Qed.

Lemma enrichLoop_filledIn apiKey results :
  forall acc st found st',
    forOf results (Nodes.enrichContact W apiKey) acc st = (Resolved found, st') ->
    Forall filledIn acc -> Forall filledIn found.
Proof.
  induction results as [| contact results IH]; intros acc st found st'; simpl.
  - intros H Hacc; inversion H; subst; exact Hacc.
  - unfold bind.
    destruct (Nodes.enrichContact W apiKey contact acc st)
      as [[acc1 | e |] st1] eqn:E1; try discriminate.
    intros H Hacc.
    eapply IH; [exact H |].
    eapply enrichContact_filledIn; eassumption.
Qed.

End FilledContacts.

(** X13: every contact that search_contacts returns has a name and a
    company that are not empty ('Unknown' stands in when Apollo gives
    neither), and its last name and location are absent rather than empty
    strings. *)
Theorem found_contacts_are_filled_in :
  forall (W : Nodes.World) input context st out st',
    Nodes.searchContactsNode_executor W input context st
    = (Resolved (Nodes.Success out), st') ->
    Forall (fun c => Nodes.found_name c <> "" /\ Nodes.company c <> "" /\
                     Nodes.lastName c <> Some "" /\ Nodes.location c <> Some "")
      (Nodes.found_contacts out).
Proof.
  intros W input context st out st'.
  unfold Nodes.searchContactsNode_executor, tryCatch, Nodes.searchContactsNode_try.
  destruct (Nodes.nonEmpty (Nodes.apolloKey context)) as [apiKey |];
    [| discriminate].
  unfold bind at 1.
  destruct (Nodes.searchApolloContacts W apiKey (Nodes.searchParams input) st)
    as [[results | e |] st1]; try discriminate.
  destruct (List.length results =? 0)%nat.
  - simpl; intro H; inversion H; subst; constructor.
  - unfold bind.
    destruct (forOf results (Nodes.enrichContact W apiKey) [] st1)
      as [[found | e |] st2] eqn:Eloop; try discriminate.
    simpl; intro H; inversion H; subst; simpl.
    exact (enrichLoop_filledIn W _ _ _ _ _ _ Eloop (Forall_nil _)).
Qed.

(** The theorem at the sample run of the contact search. *)
Lemma found_contacts_are_filled_in_witness :
  exists out,
    Nodes.searchContactsNode_executor Samples.searchWorld Samples.searchInput
      Samples.context start
    = (Resolved (Nodes.Success out), mkSt 3 0 200) /\
    map Nodes.found_name (Nodes.found_contacts out) = ["Pat L."] /\
    map Nodes.location (Nodes.found_contacts out) = [Some "Paris, France"] /\
    Forall (fun c => Nodes.found_name c <> "" /\ Nodes.company c <> "" /\
                     Nodes.lastName c <> Some "" /\ Nodes.location c <> Some "")
      (Nodes.found_contacts out).
Proof.
  eexists.
  match goal with
  | |- ?run = (Resolved (Nodes.Success ?o), ?s) /\ _ =>
      assert (Hrun : run = (Resolved (Nodes.Success o), s))
        by (vm_compute; reflexivity)
  end.
  split; [exact Hrun |].
  split; [reflexivity |].
  split; [reflexivity |].
  apply (found_contacts_are_filled_in _ _ _ _ _ _ Hrun).
Defined.

Lemma min_at_most (a b : Q) : Nodes.min a b <= b.
Proof.
  unfold Nodes.min.
  destruct (Qle_bool a b) eqn:E; [now apply Qle_bool_iff | apply Qle_refl].
Qed.

Lemma min_not_zero (a : Q) : Qeq_bool a 0 = false ->
  Qeq_bool (Nodes.min a 100) 0 = false.
Proof.
  intro Ha; unfold Nodes.min.
  destruct (Qle_bool a 100); [exact Ha | reflexivity].
Qed.

Lemma min_min (a : Q) : Nodes.min (Nodes.min a 100) 100 = Nodes.min a 100.
Proof.
  unfold Nodes.min.
  destruct (Qle_bool a 100) eqn:E; [rewrite E; reflexivity | reflexivity].
Qed.

(** X14: the search request that search_contacts sends asks for the first
    page with a page size of the input's limit (10 when the limit is 0),
    capped at 100; and it always names at least one person location, the
    United States when the input names none. *)
Theorem search_request_is_capped :
  forall (input : Nodes.SearchContactsInput),
    let body := Nodes.searchRequestBody (Nodes.searchParams input) in
    let asked := if Qeq_bool (Nodes.limit input) 0 then 10 else Nodes.limit input in
    obj_get body "per_page" = VNum (Nodes.min asked 100) /\
    Nodes.min asked 100 <= 100 /\
    obj_get body "page" = VNum 1 /\
    exists place places,
      obj_get body "person_locations" = strs (place :: places) /\
      (Nodes.personLocations input = Some (place :: places) \/
       place :: places = ["United States"]).
Proof.
  intros input body asked.
  assert (Hasked : Qeq_bool asked 0 = false).
  { unfold asked; destruct (Qeq_bool (Nodes.limit input) 0) eqn:E;
      [reflexivity | exact E]. }
  unfold body, Nodes.searchRequestBody, Nodes.searchParams;
    cbn [Nodes.personTitles Nodes.personLocations Nodes.limit
         Nodes.includeSimilarTitles].
  fold asked.
  rewrite (min_not_zero _ Hasked), min_min.
  split; [| split; [apply min_at_most | split]].
  - destruct (Nodes.personTitles input) as [[| t ts] |]; reflexivity.
  - destruct (Nodes.personTitles input) as [[| t ts] |]; reflexivity.
  - destruct (Nodes.personLocations input) as [[| place places] |] eqn:E.
    + exists "United States", []; split; [| right; reflexivity].
      destruct (Nodes.personTitles input) as [[| t ts] |]; reflexivity.
    + exists place, places; split; [| left; reflexivity].
      destruct (Nodes.personTitles input) as [[| t ts] |]; reflexivity.
    + exists "United States", []; split; [| right; reflexivity].
      destruct (Nodes.personTitles input) as [[| t ts] |]; reflexivity.
Qed.

(* ================================================================== *)
(** ** How an API error reaches the caller *)
(* ================================================================== *)

(** X15: when the service answers the one request of
    social_keyword_generator, or the search request of search_contacts,
    with a status that is not OK, the executor returns a failure Result
    whose message carries the status and the response text; when the
    request itself throws an Error (the retries are exhausted), the message
    is that Error's; and when it throws something that is not an Error, the
    message is the executor's fallback. One request has been made. *)
Theorem api_error_is_reported :
  forall (X : Nodes.Externals) (W : Nodes.World) context st,
    let st1 := mkSt (S (fetches st)) (clockReads st) (slept st) in
    (forall input apiKey prompt,
       Nodes.nonEmpty (Nodes.anthropicKey context) = Some apiKey ->
       Nodes.buildKeywordPrompt X (Nodes.kw_topic input) (Nodes.userKeywords input)
       = inr prompt ->
       let answer := Nodes.anthropicMessages W (fetches st) apiKey prompt in
       let run := Nodes.socialKeywordGeneratorNode_executor X W input context st in
       (forall response errorText,
          answer = inr response -> Nodes.ok response = false ->
          Nodes.text response = inr errorText ->
          run = (Resolved (Nodes.Failure
                   ("Anthropic API error: " ++ Nodes.string_of_Z (Nodes.status response)
                    ++ " - " ++ errorText)), st1)) /\
       (forall message, answer = inl (JsError message) ->
          run = (Resolved (Nodes.Failure message), st1)) /\
       (forall v, answer = inl (Thrown v) ->
          run = (Resolved (Nodes.Failure "Failed to generate keywords"), st1))) /\
    (forall input apiKey,
       Nodes.nonEmpty (Nodes.apolloKey context) = Some apiKey ->
       let answer :=
         Nodes.apolloSearch W (fetches st) apiKey
           (Nodes.searchRequestBody (Nodes.searchParams input)) in
       let run := Nodes.searchContactsNode_executor W input context st in
       (forall response errorText,
          answer = inr response -> Nodes.ok response = false ->
          Nodes.text response = inr errorText ->
          run = (Resolved (Nodes.Failure
                   ("Apollo API error: " ++ Nodes.string_of_Z (Nodes.status response)
                    ++ " - " ++ errorText)), st1)) /\
       (forall message, answer = inl (JsError message) ->
          run = (Resolved (Nodes.Failure message), st1)) /\
       (forall v, answer = inl (Thrown v) ->
          run = (Resolved (Nodes.Failure "Failed to search contacts"), st1))).
Proof.
  intros X W context st st1; split.
  - intros input apiKey prompt Hkey Hprompt answer run.
    unfold run, answer, Nodes.socialKeywordGeneratorNode_executor, tryCatch,
      Nodes.socialKeywordGeneratorNode_try.
    rewrite Hkey, Hprompt.
    unfold bind, call, await, ret, Nodes.generateText, bind,
      Nodes.fetchWithRetry.
    repeat split.
    + intros response errorText -> Hok Htext; rewrite Hok, Htext; reflexivity.
    + intros message ->; reflexivity.
    + intros v ->; reflexivity.
  - intros input apiKey Hkey answer run.
    unfold run, answer, Nodes.searchContactsNode_executor, tryCatch,
      Nodes.searchContactsNode_try.
    rewrite Hkey.
    unfold bind, Nodes.searchApolloContacts, bind, Nodes.fetchWithRetry.
    repeat split.
    + intros response errorText -> Hok Htext; rewrite Hok, Htext; reflexivity.
    + intros message ->; reflexivity.
    + intros v ->; reflexivity.
Qed.

(** The theorem at a search whose request fails after its retries. *)
Lemma api_error_is_reported_witness :
  Nodes.searchContactsNode_executor Samples.analysisWorld Samples.searchInput
    Samples.context start
  = (Resolved (Nodes.Failure "fetch failed"), mkSt 1 0 0).
Proof.
  destruct (api_error_is_reported Samples.externals Samples.analysisWorld
              Samples.context start) as [_ H].
  destruct (H Samples.searchInput "apollo-test" eq_refl) as [_ [Hmessage _]].
  apply Hmessage; reflexivity.
Defined.

(* ================================================================== *)
(** ** The values of the web form *)
(* ================================================================== *)

Lemma fieldOf_default_defined nowISO key fieldSchema :
  InputForm.is_undefined (InputForm.default (InputForm.fieldOf nowISO key fieldSchema))
  = false.
Proof.
  destruct fieldSchema as [descr def]; unfold InputForm.fieldOf; simpl.
  destruct (InputForm.unwrap def) as [[isRequired innerDef] dv].
  destruct (InputForm.fieldTypeOf innerDef) as [fieldType options]; simpl.
  destruct (InputForm.is_undefined dv) eqn:Ed; [| exact Ed].
  eapply fits_defined, getExampleValue_fits.
Qed.

Lemma fieldOf_name nowISO key fieldSchema :
  InputForm.name (InputForm.fieldOf nowISO key fieldSchema) = key.
Proof.
  destruct fieldSchema as [descr def]; unfold InputForm.fieldOf; simpl.
  destruct (InputForm.unwrap def) as [[isRequired innerDef] dv].
  destruct (InputForm.fieldTypeOf innerDef); reflexivity.
Qed.

Lemma extractFieldsFromSchema_object nowISO descr shape :
  InputForm.extractFieldsFromSchema nowISO (Schema descr (ZodObject shape))
  = map (fun entry => InputForm.fieldOf nowISO (fst entry) (snd entry)) shape.
Proof.
  unfold InputForm.extractFieldsFromSchema; simpl.
  apply (fold_left_push _ shape []).
Qed.

(** X16: the example object the web form shows for an object schema with
    distinct keys, none of them [__proto__] or an array index, has one entry
    per field of the schema, in declaration order, holding the field's
    default (the schema's own default value or the example value made up for
    the field); no field is left out. (A field named [__proto__] is left
    out: the assignment stores nothing under that name.) *)
Theorem example_has_every_field :
  forall (nowISO : string) (descr : option string)
         (shape : list (string * ZodType)),
    NoDup (map fst shape) ->
    Forall (fun entry => plainName (fst entry) = true) shape ->
    FormValues.generateExampleFromSchema nowISO (Schema descr (ZodObject shape))
    = map (fun entry =>
             (fst entry,
              InputForm.default (InputForm.fieldOf nowISO (fst entry) (snd entry))))
        shape.
Proof.
  intros nowISO descr shape Hnd _.
  unfold FormValues.generateExampleFromSchema; cbv zeta.
  rewrite extractFieldsFromSchema_object.
  assert (Hgen : forall acc : obj,
             NoDup (map fst acc ++ map fst shape) ->
             fold_left
               (fun example field =>
                  if negb (InputForm.is_undefined (InputForm.default field))
                  then obj_set example (InputForm.name field) (InputForm.default field)
                  else example)
               (map (fun entry => InputForm.fieldOf nowISO (fst entry) (snd entry))
                  shape) acc
             = (acc ++ map (fun entry =>
                              (fst entry,
                               InputForm.default
                                 (InputForm.fieldOf nowISO (fst entry) (snd entry))))
                         shape)%list).
  { clear Hnd; induction shape as [| [key fieldSchema] shape IH]; intros acc Hacc;
      simpl.
    - now rewrite app_nil_r.
    - rewrite fieldOf_default_defined, fieldOf_name; cbn [negb].
      assert (Hfresh : ~ In key (map fst acc)).
      { simpl in Hacc; apply NoDup_remove_2 in Hacc.
        intro Hin; apply Hacc, in_or_app; left; exact Hin. }
      rewrite (obj_set_fresh _ _ _ Hfresh), IH.
      + rewrite <- app_assoc; reflexivity.
      + rewrite map_app; simpl; rewrite <- app_assoc; exact Hacc. }
  apply (Hgen []); exact Hnd.
Qed.

(** The theorem at a schema with a default and an array of locations. *)
Lemma example_has_every_field_witness :
  FormValues.generateExampleFromSchema "2024-01-01T00:00:00.000Z"
    (z (ZodObject [("limit", z (ZodDefault (z ZodNumber) (VNum 25)));
                   ("locations", z (ZodArray (z ZodString)))]))
  = [("limit", VNum 25);
     ("locations", strs ["San Francisco, CA"; "New York, NY"])].
Proof.
  unfold z.
  rewrite (example_has_every_field "2024-01-01T00:00:00.000Z" None
             [("limit", Schema None (ZodDefault (Schema None ZodNumber) (VNum 25)));
              ("locations", Schema None (ZodArray (Schema None ZodString)))]).
  - reflexivity.
  - repeat constructor; simpl; intuition discriminate.
  - repeat constructor.
Defined.

Lemma obj_get_set_other (o : obj) (k k' : string) (v : value) :
  k' <> k -> obj_get (obj_set o k' v) k = obj_get o k.
Proof.
  intro Hne; induction o as [| [k0 v0] o IH]; simpl.
  - destruct (String.eqb_spec k' k); [contradiction | reflexivity].
  - destruct (String.eqb_spec k0 k') as [-> | Hk0]; simpl.
    + destruct (String.eqb_spec k' k); [contradiction | reflexivity].
    + destruct (String.eqb k0 k); [reflexivity | exact IH].
Qed.

Lemma obj_set_keys (o : obj) (k : string) (v : value) :
  forall k', In k' (map fst (obj_set o k v)) <-> k' = k \/ In k' (map fst o).
Proof.
  induction o as [| [k0 v0] o IH]; intro k'; simpl.
  - intuition.
  - destruct (String.eqb_spec k0 k) as [-> | Hne]; simpl.
    + intuition.
    + rewrite IH; intuition.
Qed.

Lemma obj_set_NoDup (o : obj) (k : string) (v : value) :
  NoDup (map fst o) -> NoDup (map fst (obj_set o k v)).
Proof.
  induction o as [| [k0 v0] o IH]; simpl; intro Hnd.
  - constructor; [intros [] | constructor].
  - inversion Hnd as [| ? ? Hk0 Ho]; subst.
    destruct (String.eqb_spec k0 k) as [-> | Hne]; simpl.
    + constructor; assumption.
    + constructor; [| apply IH, Ho].
      rewrite obj_set_keys; intros [-> | Hin]; [apply Hne; reflexivity |].
      contradiction.
Qed.

(** A loop over the entries of an object in which every round touches the
    key of its entry only: what it leaves under a key is what the round of
    that key stores. *)
Lemma rounds_get (round : obj -> string * value -> obj) :
  (forall acc key value k,
     key <> k -> obj_get (round acc (key, value)) k = obj_get acc k) ->
  (forall acc key value,
     obj_get acc key = VUndefined ->
     obj_get (round acc (key, value)) key = obj_get (round [] (key, value)) key) ->
  (forall key, obj_get (round [] (key, VUndefined)) key = VUndefined) ->
  forall (data : obj) (key : string),
    NoDup (map fst data) ->
    obj_get (fold_left round data []) key
    = obj_get (round [] (key, obj_get data key)) key.
Proof.
  intros Hother Hsame Hskip data key Hnd.
  assert (Hrounds : forall acc,
             (forall k, In k (map fst data) -> obj_get acc k = VUndefined) ->
             obj_get (fold_left round data acc) key
             = if existsb (String.eqb key) (map fst data)
               then obj_get (round [] (key, obj_get data key)) key
               else obj_get acc key).
  { induction data as [| [k0 v0] data IH]; intros acc Hfresh;
      cbn [fold_left map fst existsb obj_get].
    - reflexivity.
    - inversion Hnd as [| ? ? Hk0 Hdata]; subst.
      rewrite (IH Hdata).
      + rewrite (String.eqb_sym key k0).
        destruct (String.eqb_spec k0 key) as [-> | Hne]; cbn [orb].
        * destruct (existsb (String.eqb key) (map fst data)) eqn:E.
          { apply existsb_eqb_In in E; contradiction. }
          apply Hsame, Hfresh; left; reflexivity.
        * rewrite (Hother acc k0 v0 key Hne); reflexivity.
      + intros k Hk; rewrite Hother.
        * apply Hfresh; right; exact Hk.
        * intros ->; contradiction. }
  rewrite Hrounds by reflexivity.
  destruct (existsb (String.eqb key) (map fst data)) eqn:E; [reflexivity |].
  rewrite (obj_get_absent data key); [symmetry; apply Hskip |].
  intro Hin; apply existsb_eqb_In in Hin; congruence.
Qed.

Section FormFacts.

Variable JSON_parse : string -> exn + value.
Variable fields : list InputForm.FieldConfig.

Ltac cases :=
  repeat match goal with
         | |- context [match ?x with _ => _ end] => destruct x
         end.

(** What [onFormSubmit] hands on under a key is what its round makes of
    the value the form holds under that key. *)
Lemma onFormSubmit_get (data : obj) (key : string) :
  NoDup (map fst data) ->
  obj_get (FormValues.onFormSubmit JSON_parse fields data) key
  = obj_get (FormValues.cleanEntry JSON_parse fields [] (key, obj_get data key)) key.
Proof.
  apply (rounds_get (FormValues.cleanEntry JSON_parse fields)).
  - intros acc k0 v0 k Hne; unfold FormValues.cleanEntry; cases;
      try reflexivity; apply obj_get_set_other; exact Hne.
  - intros acc k0 v0 Hfresh; unfold FormValues.cleanEntry; cases;
      rewrite ?obj_get_set_same; try reflexivity; exact Hfresh.
  - reflexivity.
Qed.

(** Likewise for the object [transformingResolver] validates. *)
Lemma transformingResolver_get (values : obj) (key : string) :
  NoDup (map fst values) ->
  obj_get (FormValues.transformingResolver JSON_parse fields values) key
  = obj_get (FormValues.transformEntry JSON_parse fields []
               (key, obj_get values key)) key.
Proof.
  apply (rounds_get (FormValues.transformEntry JSON_parse fields)).
  - intros acc k0 v0 k Hne; unfold FormValues.transformEntry; cases;
      try reflexivity; apply obj_get_set_other; exact Hne.
  - intros acc k0 v0 Hfresh; unfold FormValues.transformEntry; cases;
      rewrite ?obj_get_set_same; try reflexivity; exact Hfresh.
  - intro key0; unfold FormValues.transformEntry.
    destruct (FormValues.typeOfField fields key0) as [[] |]; reflexivity.
Qed.

(** On every entry the two rounds store the same under its key, when
    [JSON.parse] rejects a text of white space. *)
Lemma rounds_agree (key : string) (value : value) :
  (forall blank, trim blank = "" -> exists e, JSON_parse blank = inl e) ->
  obj_get (FormValues.transformEntry JSON_parse fields [] (key, value)) key
  = obj_get (FormValues.cleanEntry JSON_parse fields [] (key, value)) key.
Proof.
  intro Hblank.
  unfold FormValues.transformEntry, FormValues.cleanEntry; cbv zeta.
  destruct (FormValues.typeOfField fields key) as [[] |];
    destruct value as [| | b | n | [| c s] | items | props];
    cbn [FormValues.isEmptyValue]; try reflexivity.
  - (* a textarea *)
    destruct (String.eqb_spec (trim (String c s)) "") as [Hb | Hb]; cbn [negb];
      [| reflexivity].
    destruct (Hblank _ Hb) as [e ->]; reflexivity.
  - (* an array field holding the empty text *)
    change (trim "") with ""; cbn [String.prefix].
    change (FormValues.commaSeparated "") with (@nil string).
    cbn [List.length Nat.ltb Nat.leb obj_set obj_get].
    rewrite String.eqb_refl; reflexivity.
  - (* an array field holding a text *)
    destruct (String.prefix "[" (trim (String c s)));
      [destruct (JSON_parse (trim (String c s))); [| reflexivity] |];
      destruct (0 <? List.length (FormValues.commaSeparated (String c s)))%nat;
      cbn [obj_set obj_get]; rewrite ?String.eqb_refl; reflexivity.
Qed.

End FormFacts.

(** X17: from the same form values, the object transformingResolver hands
    to the Zod resolver and the object onFormSubmit hands to onSubmit read
    the same under every key: the two loops treat every entry alike (texts
    of array fields parsed or split at commas, texts of textareas parsed,
    empty values left out), given that the keys are distinct and that
    JSON.parse rejects a text of white space. *)
Theorem form_validates_what_it_submits :
  forall (JSON_parse : string -> exn + value)
         (fields : list InputForm.FieldConfig) (values : obj),
    NoDup (map fst values) ->
    (forall blank, trim blank = "" -> exists e, JSON_parse blank = inl e) ->
    FormValues.sameReads
      (FormValues.transformingResolver JSON_parse fields values)
      (FormValues.onFormSubmit JSON_parse fields values).
Proof.
  intros JSON_parse fields values Hnd Hblank key.
  rewrite transformingResolver_get, onFormSubmit_get by exact Hnd.
  apply rounds_agree, Hblank.
Qed.

(** The theorem at a form whose array field holds blanks and commas: the
    resolver stores undefined, the submission leaves the key out. *)
Lemma form_validates_what_it_submits_witness :
  FormValues.transformingResolver FormSamples.parse FormSamples.fields
    FormSamples.blankKeywords
  = [("limit", VNum 5); ("keywords", VUndefined)] /\
  FormValues.onFormSubmit FormSamples.parse FormSamples.fields
    FormSamples.blankKeywords
  = [("limit", VNum 5)] /\
  FormValues.sameReads
    (FormValues.transformingResolver FormSamples.parse FormSamples.fields
       FormSamples.blankKeywords)
    (FormValues.onFormSubmit FormSamples.parse FormSamples.fields
       FormSamples.blankKeywords).
Proof.
  split; [reflexivity |].
  split; [reflexivity |].
  apply form_validates_what_it_submits.
  - repeat constructor; simpl; intuition discriminate.
  - intros blank Hblank; unfold FormSamples.parse.
    destruct (String.eqb_spec blank "[1, 2]") as [-> | _]; [discriminate |].
    destruct (String.eqb_spec blank "{}") as [-> | _]; [discriminate |].
    eexists; reflexivity.
Defined.

Section DefaultFacts.

Variable JSON_stringify : value -> string.
Variable ToString : value -> exn + string.

(** A round of the [reduce] throws, leaves the object alone, or assigns to
    the name of its field a value that does not depend on the object. *)
Lemma defaultValue_shape field :
  (exists e, forall acc,
      FormValues.defaultValue JSON_stringify ToString acc field = inl e) \/
  (forall acc, FormValues.defaultValue JSON_stringify ToString acc field = inr acc) \/
  (exists v, forall acc,
      FormValues.defaultValue JSON_stringify ToString acc field
      = inr (obj_set acc (InputForm.name field) v)).
Proof.
  unfold FormValues.defaultValue.
  destruct (negb (InputForm.is_undefined (InputForm.default field)));
    [| right; left; reflexivity].
  destruct (InputForm.type field);
    try (right; right; eexists; intro acc; reflexivity).
  - (* textarea *)
    destruct (String.eqb (typeof (InputForm.default field)) "object");
      right; right; eexists; intro acc; reflexivity.
  - (* array *)
    destruct (InputForm.default field) as [| | b | n | s | arr | props];
      try (right; right; eexists; intro acc; reflexivity).
    destruct (match arr with
              | first :: _ => String.eqb (typeof first) "object"
              | [] => false
              end);
      [right; right; eexists; intro acc; reflexivity |].
    destruct (FormValues.join ToString ", " arr) as [e | joined].
    + left; exists e; reflexivity.
    + right; right; eexists; intro acc; reflexivity.
Qed.

Lemma defaultValue_other acc field held k :
  FormValues.defaultValue JSON_stringify ToString acc field = inr held ->
  InputForm.name field <> k ->
  obj_get held k = obj_get acc k.
Proof.
  intros Hround Hne.
  destruct (defaultValue_shape field) as [[e He] | [Hsame | [v Hv]]].
  - rewrite He in Hround; discriminate Hround.
  - rewrite Hsame in Hround; inversion Hround; reflexivity.
  - rewrite Hv in Hround; inversion Hround.
    apply obj_get_set_other; exact Hne.
Qed.

Lemma defaultValue_same acc field held :
  FormValues.defaultValue JSON_stringify ToString acc field = inr held ->
  obj_get acc (InputForm.name field) = VUndefined ->
  exists alone,
    FormValues.defaultValue JSON_stringify ToString [] field = inr alone /\
    obj_get held (InputForm.name field) = obj_get alone (InputForm.name field).
Proof.
  intros Hround Hfresh.
  destruct (defaultValue_shape field) as [[e He] | [Hsame | [v Hv]]].
  - rewrite He in Hround; discriminate Hround.
  - rewrite Hsame in Hround; inversion Hround; subst.
    exists []; split; [apply Hsame | exact Hfresh].
  - rewrite Hv in Hround; inversion Hround; subst.
    exists (obj_set [] (InputForm.name field) v); split; [apply Hv |].
    now rewrite !obj_get_set_same.
Qed.

Lemma defaultValue_NoDup acc field held :
  FormValues.defaultValue JSON_stringify ToString acc field = inr held ->
  NoDup (map fst acc) ->
  NoDup (map fst held).
Proof.
  intros Hround Hnd.
  destruct (defaultValue_shape field) as [[e He] | [Hsame | [v Hv]]].
  - rewrite He in Hround; discriminate Hround.
  - rewrite Hsame in Hround; inversion Hround; subst; exact Hnd.
  - rewrite Hv in Hround; inversion Hround; subst.
    apply obj_set_NoDup, Hnd.
Qed.

(** Once a round has thrown, the [reduce] has. *)
Lemma defaultValues_thrown fields e :
  fold_left
    (fun acc field =>
       match acc with
       | inl e => inl e
       | inr held => FormValues.defaultValue JSON_stringify ToString held field
       end)
    fields (inl e)
  = inl e.
Proof.
  induction fields as [| f fields IH]; simpl; [reflexivity | exact IH].
Qed.

(** The keys of the form's default values are distinct. *)
Lemma defaultValues_NoDup fields values :
  FormValues.defaultValues JSON_stringify ToString fields = inr values ->
  NoDup (map fst values).
Proof.
  unfold FormValues.defaultValues.
  assert (H : forall acc, NoDup (map fst acc) ->
            fold_left
              (fun acc field =>
                 match acc with
                 | inl e => inl e
                 | inr held =>
                     FormValues.defaultValue JSON_stringify ToString held field
                 end)
              fields (inr acc)
            = inr values ->
            NoDup (map fst values)).
  { induction fields as [| f fields IH]; intros acc Hacc; simpl.
    - intro H; inversion H; subst; exact Hacc.
    - destruct (FormValues.defaultValue JSON_stringify ToString acc f)
        as [e | held] eqn:Eround.
      + rewrite defaultValues_thrown; discriminate.
      + apply IH; eapply defaultValue_NoDup; eassumption. }
  apply H; constructor.
Qed.

(** The default the form holds for a field is the one its own round of the
    [reduce] stores. *)
Lemma defaultValues_get fields field values :
  FormValues.defaultValues JSON_stringify ToString fields = inr values ->
  NoDup (map InputForm.name fields) ->
  In field fields ->
  exists alone,
    FormValues.defaultValue JSON_stringify ToString [] field = inr alone /\
    obj_get values (InputForm.name field) = obj_get alone (InputForm.name field).
Proof.
  unfold FormValues.defaultValues.
  assert (Hrest : forall rest acc k,
             ~ In k (map InputForm.name rest) ->
             fold_left
               (fun acc field =>
                  match acc with
                  | inl e => inl e
                  | inr held =>
                      FormValues.defaultValue JSON_stringify ToString held field
                  end)
               rest (inr acc)
             = inr values ->
             obj_get values k = obj_get acc k).
  { induction rest as [| f rest IH]; intros acc k Hk; simpl.
    - intro H; inversion H; reflexivity.
    - destruct (FormValues.defaultValue JSON_stringify ToString acc f)
        as [e | held] eqn:Eround.
      + rewrite defaultValues_thrown; discriminate.
      + intro H.
        rewrite (IH held k) by (auto || (intro Hin; apply Hk; right; exact Hin)).
        eapply defaultValue_other; [exact Eround |].
        intro Heq; apply Hk; left; exact Heq. }
  assert (H : forall acc,
             obj_get acc (InputForm.name field) = VUndefined ->
             NoDup (map InputForm.name fields) ->
             In field fields ->
             fold_left
               (fun acc field =>
                  match acc with
                  | inl e => inl e
                  | inr held =>
                      FormValues.defaultValue JSON_stringify ToString held field
                  end)
               fields (inr acc)
             = inr values ->
             exists alone,
               FormValues.defaultValue JSON_stringify ToString [] field = inr alone /\
               obj_get values (InputForm.name field)
               = obj_get alone (InputForm.name field)).
  { induction fields as [| f fields IH]; intros acc Hacc Hnd Hin; simpl;
      [contradiction |].
    inversion Hnd as [| ? ? Hf Hfields]; subst.
    destruct (FormValues.defaultValue JSON_stringify ToString acc f)
      as [e | held] eqn:Eround;
      [rewrite defaultValues_thrown; discriminate |].
    intro Hfold.
    destruct Hin as [-> | Hin].
    - destruct (defaultValue_same _ _ _ Eround Hacc) as [alone [Halone Hget]].
      exists alone; split; [exact Halone |].
      rewrite (Hrest fields held _ Hf Hfold); exact Hget.
    - apply (IH held); [| exact Hfields | exact Hin | exact Hfold].
      rewrite (defaultValue_other _ _ _ _ Eround); [exact Hacc |].
      intro Heq; apply Hf; rewrite Heq.
      apply in_map; exact Hin. }
  intros Hvalues Hnd Hin; apply (H []); [reflexivity | exact Hnd | exact Hin | exact Hvalues].
Qed.

(** Joining strings converts nothing. *)
Lemma join_strings (sep : string) (items : list string) :
  FormValues.join ToString sep (map VStr items) = inr (String.concat sep items).
Proof.
  unfold FormValues.join.
  assert (Htexts : FormValues.texts ToString (map VStr items) = inr items).
  { induction items as [| item items IH]; simpl; [reflexivity |].
    rewrite IH; reflexivity. }
  rewrite Htexts; reflexivity.
Qed.

End DefaultFacts.

(** The field a key names, among fields of distinct names. *)
Lemma typeOfField_In fields field :
  NoDup (map InputForm.name fields) ->
  In field fields ->
  FormValues.typeOfField fields (InputForm.name field)
  = Some (InputForm.type field).
Proof.
  unfold FormValues.typeOfField.
  induction fields as [| f fields IH]; intros Hnd Hin; simpl; [contradiction |].
  inversion Hnd as [| ? ? Hf Hfields]; subst.
  destruct Hin as [-> | Hin].
  - rewrite String.eqb_refl; reflexivity.
  - destruct (String.eqb_spec (InputForm.name f) (InputForm.name field))
      as [Heq | _]; [| apply IH; assumption].
    exfalso; apply Hf; rewrite Heq; apply in_map; exact Hin.
Qed.

(** Items joined with a comma and a space, split at the commas. *)
Lemma split_joined (items : list string) :
  Forall FormValues.plainItem items ->
  forall item cur,
    Further.occurs "," item = false ->
    split_go "," cur (String.concat ", " (item :: items))
    = ((cur ++ item)%string :: map (fun s => (" " ++ s)%string) items).
Proof.
  induction 1 as [| next items Hnext Hitems IH]; intros item cur Hitem.
  - simpl; apply split_go_no_sep, Hitem.
  - change (String.concat ", " (item :: next :: items))
      with (item ++ String "," (String " " (String.concat ", " (next :: items))))%string.
    rewrite split_go_app, split_go_no_sep by exact Hitem.
    cbn [app map split_go Ascii.eqb Bool.eqb].
    rewrite IH by apply Hnext.
    reflexivity.
Qed.

(** Plain items come back from the text the form shows for them. *)
Lemma commaSeparated_joined (items : list string) :
  Forall FormValues.plainItem items ->
  FormValues.commaSeparated (String.concat ", " items) = items.
Proof.
  intro Hitems; unfold FormValues.commaSeparated, split.
  destruct Hitems as [| item items [Hne [Hcomma Htrim]] Hitems]; [reflexivity |].
  rewrite (split_joined items Hitems item "" Hcomma).
  cbn [map filter String.append]; rewrite Htrim.
  destruct (String.eqb_spec item ""); [contradiction |]; cbn [negb].
  f_equal.
  induction Hitems as [| next items [Hne' [Hcomma' Htrim']] Hitems IH];
    [reflexivity |].
  cbn [map filter]; cbv beta.
  change (trim (String " " next)) with (trim next); rewrite Htrim'.
  destruct (String.eqb_spec next ""); [contradiction |]; cbn [negb].
  f_equal; exact IH.
Qed.

(** What an object holds under the name it was just given. *)
Ltac held :=
  first [ apply obj_get_set_same
        | reflexivity
        | simpl; rewrite String.eqb_refl; reflexivity ].

(** X18: what onFormSubmit makes of the form's defaultValues (the values
    of a form that was not edited), when building them does not throw, for
    a field among fields of distinct names, none of them [__proto__] (under
    that name the two loops store nothing). A field that is neither an
    array nor a textarea gives its default back, unless the default is the
    empty string, null or undefined, which is left out. An array field
    whose default is a list of plain strings (ASCII text, not empty, no
    comma, no white space at the ends, the joined text not opening with a
    bracket) gives that list back, and an empty list is left out. A
    textarea whose default is an object gives it back when JSON.parse
    undoes JSON.stringify on it. *)
Theorem untouched_form_submits_its_defaults :
  forall (JSON_parse : string -> exn + value)
         (JSON_stringify : value -> string) (ToString : value -> exn + string)
         (fields : list InputForm.FieldConfig) (field : InputForm.FieldConfig)
         (values : obj),
    NoDup (map InputForm.name fields) ->
    ~ In "__proto__" (map InputForm.name fields) ->
    In field fields ->
    FormValues.defaultValues JSON_stringify ToString fields = inr values ->
    let submitted :=
      obj_get (FormValues.onFormSubmit JSON_parse fields values)
        (InputForm.name field) in
    (InputForm.type field <> InputForm.array ->
     InputForm.type field <> InputForm.textarea ->
     submitted = if FormValues.isEmptyValue (InputForm.default field)
                 then VUndefined
                 else InputForm.default field) /\
    (InputForm.type field = InputForm.array ->
     forall items,
       InputForm.default field = strs items ->
       Forall FormValues.plainItem items ->
       Forall (fun item => isAscii item = true) items ->
       String.prefix "[" (trim (String.concat ", " items)) = false ->
       submitted = match items with
                   | [] => VUndefined
                   | _ :: _ => strs items
                   end) /\
    (InputForm.type field = InputForm.textarea ->
     typeof (InputForm.default field) = "object" ->
     JSON_stringify (InputForm.default field) <> "" ->
     JSON_parse (JSON_stringify (InputForm.default field))
     = inr (InputForm.default field) ->
     submitted = InputForm.default field).
Proof.
  intros JSON_parse JSON_stringify ToString fields field values
    Hnd _ Hin Hvalues submitted.
  destruct (defaultValues_get JSON_stringify ToString fields field values
              Hvalues Hnd Hin) as [alone [Halone Hget]].
  assert (Hsub : submitted
                 = obj_get
                     (FormValues.cleanEntry JSON_parse fields []
                        (InputForm.name field,
                         obj_get alone (InputForm.name field)))
                     (InputForm.name field)).
  { unfold submitted.
    rewrite onFormSubmit_get
      by (eapply defaultValues_NoDup; exact Hvalues).
    rewrite Hget; reflexivity. }
  rewrite Hsub; clear Hsub submitted Hget Hvalues.
  unfold FormValues.cleanEntry.
  rewrite (typeOfField_In fields field Hnd Hin).
  unfold FormValues.defaultValue in Halone.
  split; [| split].
  - intros Harray Htextarea.
    assert (Hstored : obj_get alone (InputForm.name field)
                      = InputForm.default field).
    { destruct (InputForm.type field); try contradiction;
        destruct (InputForm.default field);
        cbn [InputForm.is_undefined negb] in Halone;
        injection Halone as <-; held. }
    rewrite Hstored.
    destruct (InputForm.type field); try contradiction;
      destruct (InputForm.default field) as [| | b | n | [| c s] | items | props];
      cbn [FormValues.isEmptyValue];
      first [reflexivity | apply obj_get_set_same].
  - intros Htype items Hdefault Hitems _ Hprefix.
    assert (Hstored : obj_get alone (InputForm.name field)
                      = VStr (String.concat ", " items)).
    { rewrite Htype, Hdefault in Halone.
      unfold strs in Halone; cbn [InputForm.is_undefined negb] in Halone.
      assert (Hfirst : match map VStr items with
                       | first :: _ => String.eqb (typeof first) "object"
                       | [] => false
                       end = false)
        by (destruct items; reflexivity).
      rewrite Hfirst, join_strings in Halone.
      injection Halone as <-; held. }
    rewrite Hstored, Htype.
    pose proof (commaSeparated_joined _ Hitems) as Hback.
    destruct items as [| item items]; [reflexivity |].
    remember (String.concat ", " (item :: items)) as joined eqn:Ejoined.
    destruct joined as [| c s]; [discriminate Hback |].
    cbn [FormValues.isEmptyValue]; cbv zeta.
    rewrite Hprefix, Hback; cbn [List.length Nat.ltb Nat.leb].
    apply obj_get_set_same.
  - intros Htype Hobject Hfilled Hback.
    assert (Hstored : obj_get alone (InputForm.name field)
                      = VStr (JSON_stringify (InputForm.default field))).
    { rewrite Htype in Halone.
      destruct (InputForm.default field); try discriminate Hobject;
        cbn [InputForm.is_undefined negb typeof String.eqb Ascii.eqb Bool.eqb]
          in Halone;
        injection Halone as <-; held. }
    rewrite Hstored, Htype.
    destruct (JSON_stringify (InputForm.default field)) as [| c s] eqn:Ejs;
      [contradiction |].
    cbn [FormValues.isEmptyValue]; rewrite Hback.
    apply obj_get_set_same.
Qed.

(** The theorem at the sample form: the keywords come back as they are;
    the locations, whose items hold commas, do not. *)
Lemma untouched_form_submits_its_defaults_witness :
  FormValues.defaultValues FormSamples.stringify FormSamples.ToString
    FormSamples.fields
  = inr FormSamples.untouched /\
  obj_get
    (FormValues.onFormSubmit FormSamples.parse FormSamples.fields
       FormSamples.untouched)
    "keywords"
  = strs ["technology"; "startup"; "SaaS"] /\
  obj_get
    (FormValues.onFormSubmit FormSamples.parse FormSamples.fields
       FormSamples.untouched)
    "locations"
  = strs ["San Francisco"; "CA"; "New York"; "NY"].
Proof.
  split; [reflexivity |].
  split; [| reflexivity].
  destruct (untouched_form_submits_its_defaults FormSamples.parse
              FormSamples.stringify FormSamples.ToString FormSamples.fields
              (FormSamples.field "keywords" InputForm.array
                 (strs ["technology"; "startup"; "SaaS"]))
              FormSamples.untouched)
    as [_ [Harray _]].
  - repeat constructor; simpl; intuition discriminate.
  - simpl; intuition discriminate.
  - simpl; auto.
  - reflexivity.
  - apply (Harray eq_refl ["technology"; "startup"; "SaaS"] eq_refl).
    + repeat constructor; discriminate.
    + repeat constructor.
    + reflexivity.
Defined.

(* ================================================================== *)
(** ** The text helpers of the social monitors *)
(* ================================================================== *)

Lemma wordOnly_app (a b : string) :
  SocialText.wordOnly (a ++ b) = SocialText.wordOnly a && SocialText.wordOnly b.
Proof.
  induction a as [| c a IH]; simpl; [reflexivity |].
  rewrite IH, andb_assoc; reflexivity.
Qed.

Lemma emit_words (tag : string) :
  SocialText.wordOnly tag = true ->
  Forall (fun t => t <> "" /\ SocialText.wordOnly t = true) (SocialText.emit tag).
Proof.
  intro Hw; destruct tag; simpl; [constructor |].
  constructor; [split; [discriminate | exact Hw] | constructor].
Qed.

Lemma hashtags_go_words (text : string) :
  forall current,
    match current with
    | Some tag => SocialText.wordOnly tag = true
    | None => True
    end ->
    Forall (fun t => t <> "" /\ SocialText.wordOnly t = true)
      (SocialText.hashtags_go current text).
Proof.
  induction text as [| c rest IH]; intros current Hcurrent; simpl.
  - destruct current as [tag |]; [apply emit_words, Hcurrent | constructor].
  - assert (Hnext : Forall (fun t => t <> "" /\ SocialText.wordOnly t = true)
                      (SocialText.hashtags_go
                         (if Ascii.eqb c "#" then Some "" else None) rest)).
    { apply IH; destruct (Ascii.eqb c "#"); simpl; auto. }
    destruct current as [tag |]; [| exact Hnext].
    destruct (SocialText.is_word c) eqn:Ec.
    + apply IH; rewrite wordOnly_app; simpl.
      rewrite Hcurrent, Ec; reflexivity.
    + apply Forall_app; split; [apply emit_words, Hcurrent | exact Hnext].
Qed.

Lemma hashtags_go_none (text : string) :
  occurs "#" text = false -> SocialText.hashtags_go None text = [].
Proof.
  induction text as [| c rest IH]; simpl; [reflexivity |].
  intro H; apply orb_false_iff in H; destruct H as [Hc Hrest].
  rewrite Hc; apply IH, Hrest.
Qed.

(** Reading a tag to its end. *)
Lemma hashtags_go_tag (tag : string) :
  forall read stop rest,
    SocialText.wordOnly tag = true ->
    SocialText.is_word stop = false ->
    SocialText.hashtags_go (Some read) (tag ++ String stop rest)
    = (SocialText.emit (read ++ tag)
       ++ SocialText.hashtags_go
            (if Ascii.eqb stop "#" then Some "" else None) rest)%list.
Proof.
  induction tag as [| c tag IH]; intros read stop rest Hw Hstop; simpl.
  - rewrite Hstop, string_app_empty; reflexivity.
  - simpl in Hw; apply andb_true_iff in Hw; destruct Hw as [Hc Hw].
    rewrite Hc, IH by assumption.
    rewrite string_app_assoc; reflexivity.
Qed.

(** X19: the hashtags extracted from a post text are words: none is empty
    and each consists of letters, digits and underscores only (so none
    holds a '#' or white space); a text without '#' has none; and a text
    that opens with '#', a word and a character that is not a word
    character yields that word first, followed by the hashtags of the
    rest. *)
Theorem hashtags_are_words :
  forall (text : string),
    Forall (fun tag => tag <> "" /\ SocialText.wordOnly tag = true)
      (SocialText.extractHashtags text) /\
    (occurs "#" text = false -> SocialText.extractHashtags text = []) /\
    (forall tag stop,
       tag <> "" -> SocialText.wordOnly tag = true ->
       SocialText.is_word stop = false -> stop <> "#"%char ->
       SocialText.extractHashtags ("#" ++ tag ++ String stop text)
       = tag :: SocialText.extractHashtags text).
Proof.
  intro text; split; [| split].
  - apply hashtags_go_words; exact I.
  - apply hashtags_go_none.
  - intros tag stop Hne Hw Hstop Hhash.
    unfold SocialText.extractHashtags; simpl.
    rewrite hashtags_go_tag by assumption.
    destruct (Ascii.eqb_spec stop "#"); [contradiction |].
    destruct tag; [contradiction | reflexivity].
Qed.

(** The theorem at a post text with two hashtags. *)
Lemma hashtags_are_words_witness :
  SocialText.extractHashtags "#hiring now, see #remote_jobs2024!"
  = ["hiring"; "remote_jobs2024"].
Proof.
  destruct (hashtags_are_words "now, see #remote_jobs2024!") as [_ [_ H]].
  change ("#hiring now, see #remote_jobs2024!")
    with ("#" ++ "hiring" ++ String " " "now, see #remote_jobs2024!").
  rewrite H; [reflexivity | discriminate | reflexivity | reflexivity | discriminate].
Defined.

(** A character that is not in a string is in none of its parts. *)
Lemma split_go_keeps (c sep : ascii) (s : string) :
  forall cur,
    occurs c cur = false -> occurs c s = false ->
    Forall (fun part => occurs c part = false) (split_go sep cur s).
Proof.
  induction s as [| x s IH]; intros cur Hcur Hs; simpl.
  - constructor; [exact Hcur | constructor].
  - simpl in Hs; apply orb_false_iff in Hs; destruct Hs as [Hx Hs].
    destruct (Ascii.eqb x sep).
    + constructor; [exact Hcur | apply IH; [reflexivity | exact Hs]].
    + apply IH; [| exact Hs].
      rewrite occurs_app; simpl; rewrite Hcur, Hx; reflexivity.
Qed.

Lemma beforeQuery_clean (part : string) :
  occurs "/" part = false ->
  occurs "/" (SocialText.beforeQuery part) = false /\
  occurs "?" (SocialText.beforeQuery part) = false.
Proof.
  intro Hpart; unfold SocialText.beforeQuery, split.
  pose proof (split_go_parts "?" part "" eq_refl) as Hq.
  pose proof (split_go_keeps "/" "?" part "" eq_refl Hpart) as Hs.
  destruct (split_go "?" "" part) as [| first rest]; [split; reflexivity |].
  inversion Hq; inversion Hs; subst; split; assumption.
Qed.

Lemma partAfter_In (marker : string) (parts : list string) (part : string) :
  SocialText.partAfter marker parts = Some part -> In part parts.
Proof.
  unfold SocialText.partAfter.
  destruct (SocialText.indexOf marker parts) as [i |]; [| discriminate].
  destruct (nth_error parts (S i)) as [p |] eqn:E; simpl; [| discriminate].
  destruct (String.eqb p ""); [discriminate |].
  intro H; inversion H; subst.
  eapply nth_error_In; exact E.
Qed.

Lemma indexOf_app (x : string) (before after : list string) :
  SocialText.indexOf x before = None ->
  SocialText.indexOf x (before ++ x :: after) = Some (List.length before).
Proof.
  induction before as [| y before IH]; simpl.
  - rewrite String.eqb_refl; reflexivity.
  - destruct (String.eqb y x); [discriminate |].
    destruct (SocialText.indexOf x before); [discriminate |].
    intros _; rewrite IH; reflexivity.
Qed.

(** The parts of a profile address: those of what stands before [/in/],
    then [in], the handle and what follows it. *)
Lemma split_profile (before handle tail : string) :
  occurs "/" handle = false ->
  tail = "" \/ (exists rest, tail = String "/" rest) ->
  exists more,
    split "/" (before ++ "/in/" ++ handle ++ tail)
    = (split "/" before ++ "in" :: handle :: more)%list.
Proof.
  intros Hhandle Htail; unfold split.
  change (before ++ "/in/" ++ handle ++ tail)%string
    with (before ++ String "/" ("in" ++ String "/" (handle ++ tail)))%string.
  rewrite split_go_app, split_go_app.
  change (split_go "/" "" "in") with ["in"].
  destruct Htail as [-> | [rest ->]].
  - rewrite string_app_empty, (split_go_no_sep "/" handle "" Hhandle).
    exists []; reflexivity.
  - rewrite (split_go_app "/" handle rest), (split_go_no_sep "/" handle "" Hhandle).
    exists (split_go "/" "" rest); reflexivity.
Qed.

(** The handle holds neither of the separators it is cut at. *)
Lemma extractHandleFromUrl_clean (url : option string) :
  occurs "/" (SocialText.extractHandleFromUrl url) = false /\
  occurs "?" (SocialText.extractHandleFromUrl url) = false.
Proof.
  unfold SocialText.extractHandleFromUrl.
  destruct (Nodes.nonEmpty url) as [address |]; [| split; reflexivity].
  cbv zeta.
  pose proof (split_go_parts "/" address "" eq_refl) as Hparts.
  fold (split "/" address) in Hparts.
  rewrite Forall_forall in Hparts.
  destruct (SocialText.partAfter "in" (split "/" address)) as [handle |] eqn:Ein.
  { apply beforeQuery_clean, Hparts, (partAfter_In _ _ _ Ein). }
  destruct (SocialText.partAfter "company" (split "/" address))
    as [handle |] eqn:Ecompany.
  { apply beforeQuery_clean, Hparts, (partAfter_In _ _ _ Ecompany). }
  destruct (nth_error (split "/" address) _) as [lastPart |] eqn:Elast;
    [| split; reflexivity].
  apply beforeQuery_clean, Hparts.
  eapply nth_error_In; exact Elast.
Qed.

(** X20: the handle extracted from an author address never holds a '/' or
    a '?'; and from a profile address (anything without a part 'in',
    then '/in/', a handle without '/' or '?', then nothing or a '/' and
    more) it is exactly that handle. *)
Theorem handle_of_profile_address :
  forall (url : option string),
    (occurs "/" (SocialText.extractHandleFromUrl url) = false /\
     occurs "?" (SocialText.extractHandleFromUrl url) = false) /\
    (forall before handle tail,
       url = Some (before ++ "/in/" ++ handle ++ tail) ->
       SocialText.indexOf "in" (split "/" before) = None ->
       handle <> "" ->
       occurs "/" handle = false -> occurs "?" handle = false ->
       tail = "" \/ (exists rest, tail = String "/" rest) ->
       SocialText.extractHandleFromUrl url = handle).
Proof.
  intro url; split; [apply extractHandleFromUrl_clean |].
  - intros before handle tail -> Hbefore Hne Hslash Hquery Htail.
    unfold SocialText.extractHandleFromUrl.
    assert (Haddress : Nodes.nonEmpty (Some (before ++ "/in/" ++ handle ++ tail))
                       = Some (before ++ "/in/" ++ handle ++ tail)%string).
    { simpl.
      match goal with
      | |- (if ?b then _ else _) = _ => destruct b eqn:E; [| reflexivity]
      end.
      apply String.eqb_eq in E; destruct before; discriminate E. }
    rewrite Haddress; cbv zeta.
    destruct (split_profile before handle tail Hslash Htail) as [more ->].
    unfold SocialText.partAfter.
    rewrite (indexOf_app "in" (split "/" before) (handle :: more) Hbefore).
    replace (nth_error (split "/" before ++ "in" :: handle :: more)
               (S (List.length (split "/" before))))
      with (Some handle).
    + simpl.
      destruct (String.eqb_spec handle ""); [contradiction |].
      unfold SocialText.beforeQuery, split.
      rewrite split_go_no_sep by exact Hquery; reflexivity.
    + symmetry.
      rewrite nth_error_app2 by lia.
      replace (S (List.length (split "/" before)) - List.length (split "/" before))%nat
        with 1%nat by lia.
      reflexivity.
Qed.

(** The theorem at a profile address with a trailing slash. *)
Lemma handle_of_profile_address_witness :
  SocialText.extractHandleFromUrl (Some "https://www.linkedin.com/in/jane-doe/")
  = "jane-doe".
Proof.
  destruct (handle_of_profile_address
              (Some "https://www.linkedin.com/in/jane-doe/")) as [_ H].
  apply (H "https://www.linkedin.com" "jane-doe" "/");
    try reflexivity; [discriminate | right; exists ""; reflexivity].
Defined.

(* ================================================================== *)
(** ** The social monitors *)
(* ================================================================== *)

Section MonitorFacts.

Variable X : Social.Externals.
Variable W : Social.World.

Lemma settles_Social_DateNow : settles (Social.DateNow W).
Proof. intros st; discriminate. Qed.

Lemma settles_twitterPost tweet : settles (Social.twitterPost tweet).
Proof.
  unfold Social.twitterPost.
  apply settles_bind; auto with settle.
Qed.

Lemma settles_sinceDate input : settles (Social.sinceDate X W input).
Proof.
  unfold Social.sinceDate.
  destruct (Social.sinceDays input) as [days |]; [| auto with settle].
  destruct (Qeq_bool days 0); [auto with settle |].
  apply settles_bind; [apply settles_Social_DateNow |]; intro now.
  apply settles_bind; auto with settle.
Qed.

Lemma settles_searchTwitter apiKey query queryType :
  settles (Social.searchTwitter W apiKey query queryType).
Proof.
  unfold Social.searchTwitter.
  apply settles_bind; [apply settles_fetchWithRetry |]; intro response.
  destruct (negb (Nodes.ok response)); [| auto with settle].
  apply settles_bind; auto with settle.
Qed.

Lemma settles_twitterMonitorNode_try input context :
  settles (Social.twitterMonitorNode_try X W input context).
Proof.
  unfold Social.twitterMonitorNode_try.
  destruct (Social.tw_keywords input) as [[| keyword keywords] |];
    try solve [auto with settle].
  destruct (Nodes.nonEmpty (Social.twitterKey context)); [| auto with settle].
  apply settles_bind; [apply settles_sinceDate |]; intro since.
  apply settles_bind; [apply settles_searchTwitter |]; intro response.
  apply settles_bind; [| auto with settle].
  apply settles_forOf; intros tweet posts.
  apply settles_bind; [apply settles_twitterPost | auto with settle].
Qed.

Lemma settles_searchLinkedIn apiKey keyword sortBy :
  settles (Social.searchLinkedIn W apiKey keyword sortBy).
Proof.
  unfold Social.searchLinkedIn.
  apply settles_bind; [apply settles_fetchWithRetry |]; intro response.
  destruct (negb (Nodes.ok response)).
  - apply settles_bind; auto with settle.
  - apply settles_bind; [auto with settle |]; intros [found | posts results data |];
      auto with settle.
Qed.

Lemma settles_linkedinPost post index :
  settles (Social.linkedinPost X W post index).
Proof.
  unfold Social.linkedinPost.
  apply settles_bind.
  - destruct (Nodes.nonEmpty _); [auto with settle |].
    apply settles_bind; [apply settles_Social_DateNow | auto with settle].
  - intro postId; apply settles_bind; [| auto with settle].
    destruct (Nodes.nonEmpty _); [auto with settle |].
    apply settles_bind; [apply settles_Social_DateNow | auto with settle].
Qed.

Lemma settles_linkedinMonitorNode_try input context :
  settles (Social.linkedinMonitorNode_try X W input context).
Proof.
  unfold Social.linkedinMonitorNode_try.
  apply settles_bind; [auto with settle |]; intro given.
  destruct (List.length (Social.validKeywords given) =? 0)%nat;
    [auto with settle |].
  destruct (Nodes.nonEmpty (Social.forumScoutKey context)); [| auto with settle].
  apply settles_bind; [apply settles_searchLinkedIn |]; intro results.
  apply settles_bind; [| auto with settle].
  apply settles_forOf; intros post state.
  apply settles_bind; [apply settles_linkedinPost | auto with settle].
Qed.

End MonitorFacts.

(** X21: no exception crosses the executor of twitter_monitor or of
    linkedin_monitor: whatever the input, the context, the service's answer
    and the clock, the promise resolves to a Result (a tweet without an
    author, a response that is null, a date out of range and a failed request
    all end in a failure Result). *)
Theorem monitors_always_resolve :
  forall (X : Social.Externals) (W : Social.World),
    (forall input context,
       alwaysResolves (Social.twitterMonitorNode_executor X W input context)) /\
    (forall input context,
       alwaysResolves (Social.linkedinMonitorNode_executor X W input context)).
Proof.
  intros X W; split; intros input context.
  - apply tryCatch_alwaysResolves;
      [apply settles_twitterMonitorNode_try | intro e; apply ret_alwaysResolves].
  - apply tryCatch_alwaysResolves;
      [apply settles_linkedinMonitorNode_try | intro e; apply ret_alwaysResolves].
Qed.

Lemma Qfloor_nonneg (q : Q) : 0 <= q -> (0 <= Qfloor q)%Z.
Proof.
  intro Hq; change 0%Z with (Qfloor 0); apply Qfloor_resp_le, Hq.
Qed.

(** [slice(0, end)] keeps the front of the array, and no more than [end]
    elements when [end] is not negative. *)
Lemma sliceTo_front {A} (last : Q) (l : list A) :
  (exists rest, l = (Social.sliceTo last l ++ rest)%list) /\
  (0 <= last -> (Z.of_nat (List.length (Social.sliceTo last l)) <= Qfloor last)%Z).
Proof.
  unfold Social.sliceTo; cbv zeta; split.
  - eexists; symmetry; apply firstn_skipn.
  - intro Hlast; unfold Social.truncate.
    assert (Hb : Qle_bool 0 last = true) by (apply Qle_bool_iff, Hlast).
    rewrite Hb.
    pose proof (Qfloor_nonneg last Hlast) as Hfloor.
    destruct (Z.ltb_spec (Qfloor last) 0); [lia |].
    rewrite length_firstn; lia.
Qed.

Section TwitterOutput.

Variable X : Social.Externals.
Variable W : Social.World.

(** Mapping the tweets consumes nothing and keeps them in order. *)
Lemma twitterLoop_maps tweets :
  forall posts st mapped st',
    forOf tweets
      (fun tweet posts =>
         post <- Social.twitterPost tweet ;;
         ret (posts ++ [post])%list) posts st
    = (Resolved mapped, st') ->
    st' = st /\
    map Social.tp_id mapped
    = (map Social.tp_id posts ++ map Social.tweet_id tweets)%list /\
    map Social.tp_text mapped
    = (map Social.tp_text posts ++ map Social.tweet_text tweets)%list.
Proof.
  induction tweets as [| tweet tweets IH]; intros posts st mapped st'; simpl.
  - intro H; inversion H; subst; rewrite !app_nil_r; auto.
  - unfold bind at 1, Social.twitterPost, bind, defined.
    destruct (Social.author tweet) as [tweetAuthor |]; simpl; [| discriminate].
    intro H; apply IH in H; destruct H as [-> [Hid Htext]].
    rewrite Hid, Htext, !map_app, <- !app_assoc; auto.
Qed.

Lemma sinceDate_consumes input st since st' :
  Social.sinceDate X W input st = (Resolved since, st') ->
  exists reads, (reads <= 1)%nat /\ consumed st st' 0 reads 0.
Proof.
  unfold Social.sinceDate.
  destruct (Social.sinceDays input) as [days |];
    [| intro H; inversion H; subst; exists 0%nat; unfold consumed; lia].
  destruct (Qeq_bool days 0);
    [intro H; inversion H; subst; exists 0%nat; unfold consumed; lia |].
  unfold bind, Social.DateNow, call, await.
  destruct (Social.dateToISOString X _); simpl; [discriminate |].
  intro H; inversion H; subst; exists 1%nat; unfold consumed; simpl; lia.
Qed.

End TwitterOutput.

(** X22: when twitter_monitor succeeds, it has made exactly one request and
    read the clock at most once; its posts are the tweets of the response
    from the first up to the limit (maxResults, 50 when that is missing or
    0), in the response's order, so never more than the limit when the
    limit is not negative; and totalFound is the number of posts. *)
Theorem twitter_posts_are_the_first_tweets :
  forall (X : Social.Externals) (W : Social.World) input context st out st',
    Social.twitterMonitorNode_executor X W input context st
    = (Resolved (Nodes.Success out), st') ->
    let limit := Social.orQ (Social.tw_maxResults input) 50 in
    exists apiKey query response payload reads,
      Nodes.nonEmpty (Social.twitterKey context) = Some apiKey /\
      Social.twitterSearch W (fetches st) apiKey query "Latest" = inr response /\
      Nodes.json response = inr payload /\
      map Social.tp_id (Social.tw_posts out)
      = map Social.tweet_id
          (Social.sliceTo limit (Nodes.orNil (Social.tweets payload))) /\
      map Social.tp_text (Social.tw_posts out)
      = map Social.tweet_text
          (Social.sliceTo limit (Nodes.orNil (Social.tweets payload))) /\
      Social.tw_totalFound out = List.length (Social.tw_posts out) /\
      (0 <= limit -> (Z.of_nat (Social.tw_totalFound out) <= Qfloor limit)%Z) /\
      (reads <= 1)%nat /\ consumed st st' 1 reads 0.
Proof.
  intros X W input context st out st' H limit.
  unfold Social.twitterMonitorNode_executor, tryCatch,
    Social.twitterMonitorNode_try in H.
  destruct (Social.tw_keywords input) as [[| keyword keywords] |];
    try discriminate H.
  destruct (Nodes.nonEmpty (Social.twitterKey context)) as [apiKey |];
    [| discriminate H].
  unfold bind at 1 in H.
  destruct (Social.sinceDate X W input st) as [[since | e |] st1] eqn:Esince;
    try discriminate H.
  destruct (sinceDate_consumes X W _ _ _ _ Esince) as [reads [Hreads [Hf [Hc Hs]]]].
  unfold bind at 1, Social.searchTwitter, bind at 1, Nodes.fetchWithRetry in H.
  match type of H with
  | context [Social.twitterSearch W ?k ?a ?q ?t] =>
      destruct (Social.twitterSearch W k a q t) as [e | response] eqn:Esearch;
        [discriminate H |];
      exists apiKey, q, response
  end.
  destruct (Nodes.ok response); simpl in H;
    [| unfold bind in H; destruct (Nodes.text response); discriminate H].
  destruct (Nodes.json response) as [e | payload]; simpl in H;
    [discriminate H |].
  exists payload, reads.
  unfold bind in H.
  fold limit in H.
  match type of H with
  | context [forOf ?l ?body ?acc ?s] =>
      destruct (forOf l body acc s) as [[mapped | e |] st2] eqn:Eloop;
        try discriminate H
  end.
  destruct (twitterLoop_maps _ _ _ _ _ Eloop) as [-> [Hid Htext]].
  simpl in H; inversion H; subst; simpl.
  rewrite Hf, Nat.add_0_r in Esearch.
  split; [reflexivity |].
  split; [exact Esearch |].
  split; [reflexivity |].
  split; [exact Hid |].
  split; [exact Htext |].
  split; [reflexivity |].
  split.
  - intro Hlimit.
    change (map Social.tp_id [] ++ ?l)%list with l in Hid.
    apply (f_equal (@List.length value)) in Hid; rewrite !length_map in Hid.
    rewrite Hid; apply (proj2 (sliceTo_front _ _)), Hlimit.
  - split; [exact Hreads |].
    unfold consumed; simpl; lia.
Qed.

(** The theorem at the sample run: of three tweets, two are asked for. *)
Lemma twitter_posts_are_the_first_tweets_witness :
  exists out,
    Social.twitterMonitorNode_executor SocialSamples.externals SocialSamples.world
      SocialSamples.twitterInput SocialSamples.context start
    = (Resolved (Nodes.Success out), mkSt 1 1 0) /\
    map Social.tp_id (Social.tw_posts out) = [VStr "1"; VStr "2"] /\
    (Z.of_nat (Social.tw_totalFound out) <= 2)%Z.
Proof.
  eexists.
  match goal with
  | |- ?run = (Resolved (Nodes.Success ?o), ?s) /\ _ =>
      assert (Hrun : run = (Resolved (Nodes.Success o), s))
        by (vm_compute; reflexivity)
  end.
  split; [exact Hrun |].
  split; [reflexivity |].
  destruct (twitter_posts_are_the_first_tweets _ _ _ _ _ _ _ Hrun)
    as [apiKey [query [response [payload [reads [_ [_ [_ [_ [_ [_ [Hbound _]]]]]]]]]]]].
  apply Hbound; discriminate.
Defined.

Section LinkedInOutput.

Variable X : Social.Externals.
Variable W : Social.World.

(** What the mapping of one post gives and consumes. *)
Lemma linkedinPost_resolved post index st mapped st' :
  Social.linkedinPost X W post index st = (Resolved mapped, st') ->
  Social.wellFormedPost mapped /\
  Social.lp_url mapped = orS (Social.fs_url post) "" /\
  exists reads, (reads <= 2)%nat /\ consumed st st' 0 reads 0.
Proof.
  unfold Social.linkedinPost, bind at 1.
  assert (Hid : forall s,
             match
               (match Nodes.nonEmpty (Social.orElse (Social.fs_id post)
                                        (Social.fs_urn post)) with
                | Some i => ret i
                | None =>
                    now <- Social.DateNow W ;;
                    ret ("linkedin-" ++ Nodes.string_of_Z (Z.of_nat index) ++ "-"
                         ++ Nodes.string_of_Z now)
                end) s
             with
             | (Resolved postId, s1) =>
                 postId <> "" /\
                 exists reads, (reads <= 1)%nat /\ consumed s s1 0 reads 0
             | _ => False
             end).
  { intro s.
    destruct (Nodes.nonEmpty (Social.orElse _ _)) as [i |] eqn:E; simpl.
    - split; [eapply nonEmpty_Some; exact E |].
      exists 0%nat; unfold consumed; lia.
    - split; [discriminate |].
      exists 1%nat; unfold consumed; simpl; lia. }
  specialize (Hid st).
  match goal with
  | |- context [match ?m st with _ => _ end] =>
      destruct (m st) as [[postId | e |] st1]; try contradiction
  end.
  destruct Hid as [Hpost [reads1 [Hreads1 [Hf1 [Hc1 Hs1]]]]].
  unfold bind at 1.
  match goal with
  | |- context [match ?m st1 with _ => _ end] =>
      assert (Hposted : match m st1 with
                        | (Resolved _, s2) =>
                            exists reads, (reads <= 1)%nat /\ consumed st1 s2 0 reads 0
                        | _ => True
                        end);
        [| destruct (m st1) as [[postedAt | e |] st2]; try discriminate]
  end.
  { destruct (Nodes.nonEmpty _); simpl.
    - exists 0%nat; unfold consumed; lia.
    - unfold bind, Social.DateNow, call, await.
      destruct (Social.dateToISOString X _); simpl; [exact I |].
      exists 1%nat; unfold consumed; simpl; lia. }
  destruct Hposted as [reads2 [Hreads2 [Hf2 [Hc2 Hs2]]]].
  intro H; inversion H; subst; clear H.
  unfold Social.wellFormedPost; cbn [Social.lp_id Social.lp_authorName
    Social.lp_authorHandle Social.lp_url].
  split; [| split; [reflexivity |]].
  - split; [exact Hpost |].
    split; [apply orS_filled; discriminate |].
    apply extractHandleFromUrl_clean.
  - exists (reads1 + reads2)%nat; unfold consumed; repeat split; lia.
Qed.

Lemma linkedinLoop_maps posts :
  forall state st result st',
    forOf posts
      (fun post (state : nat * list Social.LinkedInPost) =>
         mapped <- Social.linkedinPost X W post (fst state) ;;
         ret (S (fst state), (snd state ++ [mapped])%list)) state st
    = (Resolved result, st') ->
    exists more reads,
      snd result = (snd state ++ more)%list /\
      map Social.lp_url more = map (fun p => orS (Social.fs_url p) "") posts /\
      Forall Social.wellFormedPost more /\
      (reads <= 2 * List.length posts)%nat /\
      consumed st st' 0 reads 0.
Proof.
  induction posts as [| post posts IH]; intros state st result st';
    cbn [forOf].
  - intro H; inversion H; subst.
    exists [], 0%nat; rewrite app_nil_r; unfold consumed.
    repeat split; simpl; try lia; constructor.
  - unfold bind at 1, bind at 1.
    destruct (Social.linkedinPost X W post (fst state) st)
      as [[mapped | e |] st1] eqn:Epost; try discriminate.
    destruct (linkedinPost_resolved _ _ _ _ _ Epost)
      as [Hgood [Hurl [reads1 [Hreads1 [Hf1 [Hc1 Hs1]]]]]].
    unfold ret at 1.
    intro H; apply IH in H.
    destruct H as [more [reads [Hmore [Hurls [Hall [Hreads [Hf [Hc Hs]]]]]]]].
    cbn [snd] in Hmore.
    exists (mapped :: more), (reads1 + reads)%nat.
    split; [rewrite Hmore, <- app_assoc; reflexivity |].
    split; [cbn [map]; rewrite Hurl, Hurls; reflexivity |].
    split; [constructor; assumption |].
    split; [cbn [List.length]; lia |].
    unfold consumed; repeat split; lia.
Qed.

(** A search that resolves has made one request, which was answered. *)
Lemma searchLinkedIn_resolved apiKey keyword sortBy st results st' :
  Social.searchLinkedIn W apiKey keyword sortBy st = (Resolved results, st') ->
  st' = mkSt (S (fetches st)) (clockReads st) (slept st) /\
  exists response,
    Social.linkedinSearch W (fetches st) apiKey keyword (orS sortBy "date_posted")
    = inr response.
Proof.
  unfold Social.searchLinkedIn, bind at 1, Nodes.fetchWithRetry.
  destruct (Social.linkedinSearch W (fetches st) apiKey keyword _)
    as [e | response]; [discriminate |].
  destruct (Nodes.ok response); simpl.
  - unfold bind.
    destruct (Nodes.json response) as [e | data]; simpl; [discriminate |].
    destruct data as [found | posts results0 data |]; simpl;
      [| | discriminate];
      intro H; inversion H; subst; split; [reflexivity | | reflexivity |];
      exists response; reflexivity.
  - unfold bind; destruct (Nodes.text response); discriminate.
Qed.

End LinkedInOutput.

(** X23: linkedin_monitor trims its keywords and drops the blank ones; when
    none is left it fails before looking for the API key and without a
    request. When it succeeds, it has made exactly one request, for the
    remaining keywords joined by spaces and sorted by date; totalFound is
    the number of posts, never more than the limit (maxResults, 50 when
    that is missing or 0) when the limit is not negative; every post has an
    identifier and an author name that are not empty and a handle without
    '/' or '?'; and the clock was read at most twice per post. *)
Theorem linkedin_posts_are_well_formed :
  forall (X : Social.Externals) (W : Social.World) input context st,
    (forall given,
       Social.li_keywords input = Some given ->
       Social.validKeywords given = [] ->
       Social.linkedinMonitorNode_executor X W input context st
       = (Resolved (Nodes.Failure "No valid keywords provided"), st)) /\
    (forall out st',
       Social.linkedinMonitorNode_executor X W input context st
       = (Resolved (Nodes.Success out), st') ->
       let limit := Social.orQ (Social.li_maxResults input) 50 in
       exists given apiKey response reads,
         Social.li_keywords input = Some given /\
         Nodes.nonEmpty (Social.forumScoutKey context) = Some apiKey /\
         Social.linkedinSearch W (fetches st) apiKey
           (String.concat " " (Social.validKeywords given)) "date_posted"
         = inr response /\
         Social.li_totalFound out = List.length (Social.li_posts out) /\
         (0 <= limit -> (Z.of_nat (Social.li_totalFound out) <= Qfloor limit)%Z) /\
         Forall Social.wellFormedPost (Social.li_posts out) /\
         (reads <= 2 * Social.li_totalFound out)%nat /\
         consumed st st' 1 reads 0).
Proof.
  intros X W input context st; split.
  - intros given Hgiven Hnone.
    unfold Social.linkedinMonitorNode_executor, tryCatch,
      Social.linkedinMonitorNode_try, bind, defined.
    rewrite Hgiven; simpl; rewrite Hnone; reflexivity.
  - intros out st' H limit.
    unfold Social.linkedinMonitorNode_executor, tryCatch,
      Social.linkedinMonitorNode_try in H.
    unfold bind at 1, defined in H.
    destruct (Social.li_keywords input) as [given |]; simpl in H;
      [| discriminate H].
    destruct (List.length (Social.validKeywords given) =? 0)%nat;
      [discriminate H |].
    destruct (Nodes.nonEmpty (Social.forumScoutKey context)) as [apiKey |];
      [| discriminate H].
    unfold bind at 1 in H.
    destruct (Social.searchLinkedIn W apiKey
                (String.concat " " (Social.validKeywords given))
                (Some "date_posted") st) as [[results | e |] st1] eqn:Esearch;
      try discriminate H.
    destruct (searchLinkedIn_resolved W _ _ _ _ _ _ Esearch)
      as [-> [response Hresponse]].
    cbn [orS String.eqb Ascii.eqb Bool.eqb] in Hresponse.
    unfold bind at 1 in H; fold limit in H.
    match type of H with
    | context [forOf ?l ?body ?acc ?s] =>
        destruct (forOf l body acc s) as [[indexed | e |] st2] eqn:Hloop;
          try discriminate H
    end.
    simpl in H; inversion H; subst; clear H.
    destruct (linkedinLoop_maps X W _ _ _ _ _ Hloop)
      as [more [reads [Hmore [Hurls [Hall [Hreads [Hf [Hc Hs]]]]]]]].
    cbn [snd app] in Hmore; rewrite Hmore.
    cbn [Social.li_posts Social.li_totalFound].
    assert (Hlen : List.length more = List.length (Social.sliceTo limit results)).
    { apply (f_equal (@List.length string)) in Hurls.
      rewrite !length_map in Hurls; exact Hurls. }
    exists given, apiKey, response, reads.
    split; [reflexivity |].
    split; [reflexivity |].
    split; [exact Hresponse |].
    split; [reflexivity |].
    split; [intro Hlimit; rewrite Hlen; apply (proj2 (sliceTo_front _ _)), Hlimit |].
    split; [exact Hall |].
    split; [rewrite Hlen; exact Hreads |].
    simpl in Hf, Hc, Hs; unfold consumed; lia.
Qed.

(** The theorem at the sample run: of three posts found, two are asked
    for; and at keywords that are all blank. *)
Lemma linkedin_posts_are_well_formed_witness :
  (exists out,
     Social.linkedinMonitorNode_executor SocialSamples.externals
       SocialSamples.world SocialSamples.linkedinInput SocialSamples.context start
     = (Resolved (Nodes.Success out), mkSt 1 4 0) /\
     map Social.lp_authorHandle (Social.li_posts out) = ["jane-doe"; "unknown"] /\
     map Social.lp_hashtags (Social.li_posts out) = [["hiring"]; ["hiring"]] /\
     Forall Social.wellFormedPost (Social.li_posts out)) /\
  Social.linkedinMonitorNode_executor SocialSamples.externals SocialSamples.world
    (Social.mkLinkedInInput (Some [" "; ""]) None None)
    (Social.mkContext None) start
  = (Resolved (Nodes.Failure "No valid keywords provided"), start).
Proof.
  split.
  - eexists.
    match goal with
    | |- ?run = (Resolved (Nodes.Success ?o), ?s) /\ _ =>
        assert (Hrun : run = (Resolved (Nodes.Success o), s))
          by (vm_compute; reflexivity)
    end.
    split; [exact Hrun |].
    split; [reflexivity |].
    split; [reflexivity |].
    destruct (linkedin_posts_are_well_formed SocialSamples.externals
                SocialSamples.world SocialSamples.linkedinInput
                SocialSamples.context start) as [_ H].
    destruct (H _ _ Hrun)
      as [given [apiKey [response [reads [_ [_ [_ [_ [_ [Hall _]]]]]]]]]].
    exact Hall.
  - destruct (linkedin_posts_are_well_formed SocialSamples.externals
                SocialSamples.world
                (Social.mkLinkedInInput (Some [" "; ""]) None None)
                (Social.mkContext None) start) as [H _].
    apply (H [" "; ""]); reflexivity.
Defined.

(* ================================================================== *)
(** ** The execute route of the web playground *)
(* ================================================================== *)

Section RouteFacts.

Variable getDefinition : value -> option Route.NodeDefinition.
Variable ToString : value -> exn + string.
Variable loadTime : string.
Variable clock : nat -> Z.

Lemma settles_POST_try requested :
  Route.executorsSettle getDefinition ->
  settles (Route.POST_try getDefinition ToString loadTime clock requested).
Proof.
  intro Hsettle; unfold Route.POST_try.
  apply settles_bind; [auto with settle |]; intro request.
  destruct (getDefinition (Route.nodeType request)) as [node |] eqn:Enode;
    [| apply settles_bind; [| intro named]; auto with settle].
  destruct (truthy (Route.mockMode request));
    [apply settles_bind; [| intro key]; auto with settle |].
  destruct (Route.parse node (Route.input request)); [auto with settle |].
  apply settles_bind; [intros st; discriminate |]; intro now.
  apply settles_bind; [| auto with settle].
  eapply Hsettle; exact Enode.
Qed.

(** The responses of the handler: the status it gives and, when the status
    is not 200, a failure body. *)
Lemma POST_statuses requested st response st' :
  Route.POST getDefinition ToString loadTime clock requested st
  = (Resolved response, st') ->
  In (Route.status response) [200; 400; 404; 500]%Z /\
  (Route.status response <> 200%Z ->
   exists message, Route.body response = Route.failure message).
Proof.
  unfold Route.POST, tryCatch, Route.POST_try, bind at 1, await.
  destruct requested as [e | request]; simpl.
  { intro H; inversion H; subst; simpl; split; [tauto | eauto]. }
  destruct (getDefinition (Route.nodeType request)) as [node |]; simpl.
  2: { unfold bind, call, await.
       destruct (Route.text ToString (Route.nodeType request)) as [e | named];
         simpl; intro H; inversion H; subst; simpl; split; tauto || eauto. }
  destruct (truthy (Route.mockMode request)); simpl.
  { unfold bind, call, await.
    destruct (Route.text ToString (Route.nodeType request)) as [e | key];
      simpl; intro H; inversion H; subst; simpl; split;
      tauto || congruence || eauto. }
  destruct (Route.parse node (Route.input request)) as [zodError | validatedInput];
    simpl.
  { intro H; inversion H; subst; simpl; split; [tauto | eauto]. }
  unfold bind, Route.DateNow.
  match goal with
  | |- context [Route.executor node validatedInput ?c ?s] =>
      destruct (Route.executor node validatedInput c s) as [[result | e |] st1]
  end; simpl; try discriminate;
    intro H; inversion H; subst; simpl; split; try tauto; try congruence; eauto.
Qed.

End RouteFacts.

(** X24: the execute route always answers: when the executors of the
    registry settle, the handler's promise resolves to a response whatever
    the request (a body that cannot be read, an unknown node, an invalid
    input and an executor that rejects included); the status of the
    response is 200, 400, 404 or 500; and a response whose status is not
    200 carries a failure body (success false and an error message). *)
Theorem route_always_answers :
  forall (getDefinition : value -> option Route.NodeDefinition)
         (ToString : value -> exn + string) (loadTime : string) (clock : nat -> Z)
         (requested : exn + Route.RequestBody),
    (Route.executorsSettle getDefinition ->
     alwaysResolves
       (Route.POST getDefinition ToString loadTime clock requested)) /\
    (forall st response st',
       Route.POST getDefinition ToString loadTime clock requested st
       = (Resolved response, st') ->
       In (Route.status response) [200; 400; 404; 500]%Z /\
       (Route.status response <> 200%Z ->
        exists message, Route.body response = Route.failure message)).
Proof.
  intros getDefinition ToString loadTime clock requested; split.
  - intro Hsettle; apply tryCatch_alwaysResolves;
      [apply settles_POST_try, Hsettle | intro e; apply ret_alwaysResolves].
  - apply POST_statuses.
Qed.

(** The theorem at a request whose body cannot be read. *)
Lemma route_always_answers_witness :
  Route.POST RouteSamples.getDefinition RouteSamples.ToString "" RouteSamples.clock
    (inl (JsError "Unexpected end of JSON input")) start
  = (Resolved
       (Route.mkNextResponse (Route.failure "Unexpected end of JSON input") 500),
     start)
  /\ alwaysResolves
       (Route.POST RouteSamples.getDefinition RouteSamples.ToString ""
          RouteSamples.clock (inr (RouteSamples.request false VNull))).
Proof.
  split; [reflexivity |].
  apply (route_always_answers RouteSamples.getDefinition RouteSamples.ToString ""
           RouteSamples.clock (inr (RouteSamples.request false VNull))).
  intros nodeType node validatedInput context Hnode st.
  destruct nodeType as [| | b | n | s | items | props]; try discriminate Hnode.
  simpl in Hnode; destruct (String.eqb s "echo"); [| discriminate Hnode].
  inversion Hnode; subst; discriminate.
Defined.

(** X25: what the execute route does without running the executor. For an
    unknown node it answers 404 with the node type in the message, and 500
    when the node type cannot be converted to a string; for a known node in
    mock mode it answers 200 with the mock output of the node type and
    output schema (for a node type that names no member of
    [Object.prototype]), whatever the input and the credentials, and without
    validating the input, and again 500 when the node type cannot be
    converted; for an input the schema rejects it answers 400 with the
    schema's message. In all these cases the executor is not run: no
    request is made and the clock is not read. Otherwise the executor is
    run, once, on the value the schema returned, in a context with no
    variables, and the handler answers 200 with the executor's result, or
    500 with the message of what the executor threw. *)
Theorem route_runs_the_executor_on_valid_input_only :
  forall (getDefinition : value -> option Route.NodeDefinition)
         (ToString : value -> exn + string) (loadTime : string) (clock : nat -> Z)
         (request : Route.RequestBody) (st : St),
    let answer :=
      Route.POST getDefinition ToString loadTime clock (inr request) st in
    let unconverted error :=
      (Resolved
         (Route.mkNextResponse
            (Route.failure (messageOr "Unknown error" error)) 500), st) in
    (getDefinition (Route.nodeType request) = None ->
     answer
     = match Route.text ToString (Route.nodeType request) with
       | inr named =>
           (Resolved
              (Route.mkNextResponse
                 (Route.failure ("Node not found: " ++ named)) 404), st)
       | inl error => unconverted error
       end) /\
    (forall node,
       getDefinition (Route.nodeType request) = Some node ->
       (truthy (Route.mockMode request) = true ->
        (forall error,
           Route.text ToString (Route.nodeType request) = inl error ->
           answer = unconverted error) /\
        (forall key,
           Route.text ToString (Route.nodeType request) = inr key ->
           ~ In key inheritedNames ->
           answer
           = (Resolved
                (Route.mkNextResponse
                   (VObj [("success", VBool true);
                          ("output",
                            WebUtils.getMockOutput loadTime key
                              (Route.outputSchema node))])
                   200), st))) /\
       (truthy (Route.mockMode request) = false ->
        (forall zodError,
           Route.parse node (Route.input request) = inl zodError ->
           answer
           = (Resolved
                (Route.mkNextResponse
                   (Route.failure
                      ("Invalid input: " ++ messageOr "Validation failed" zodError))
                   400), st)) /\
        (forall validatedInput,
           Route.parse node (Route.input request) = inr validatedInput ->
           exists context,
             Route.variables context = [] /\
             Route.workflowExecutionId context
             = "playground_" ++ Nodes.string_of_Z (clock (clockReads st)) /\
             let run :=
               Route.executor node validatedInput context
                 (mkSt (fetches st) (S (clockReads st)) (slept st)) in
             answer
             = match run with
               | (Resolved result, st') =>
                   (Resolved (Route.mkNextResponse result 200), st')
               | (Rejected error, st') =>
                   (Resolved
                      (Route.mkNextResponse
                         (Route.failure (messageOr "Unknown error" error)) 500),
                    st')
               | (Pending, st') => (Pending, st')
               end))).
Proof.
  intros getDefinition ToString loadTime clock request st answer unconverted.
  split.
  - intro Hnode.
    unfold answer, unconverted, Route.POST, tryCatch, Route.POST_try,
      bind at 1, await, ret.
    cbv beta iota; rewrite Hnode.
    unfold bind, call, await, throw, ret.
    destruct (Route.text ToString (Route.nodeType request)); reflexivity.
  - intros node Hnode; split.
    + intro Hmock; split.
      * intros error Htext.
        unfold answer, unconverted, Route.POST, tryCatch, Route.POST_try,
          bind at 1, await, ret.
        cbv beta iota; rewrite Hnode, Hmock.
        unfold bind, call, await, throw; rewrite Htext; reflexivity.
      * intros key Htext _.
        unfold answer, Route.POST, tryCatch, Route.POST_try, bind at 1, await, ret.
        cbv beta iota; rewrite Hnode, Hmock.
        unfold bind, call, await, ret; rewrite Htext; reflexivity.
    + intro Hmock; split.
      * intros zodError Hparse.
        unfold answer, Route.POST, tryCatch, Route.POST_try, bind at 1, await, ret.
        cbv beta iota; rewrite Hnode, Hmock, Hparse; reflexivity.
      * intros validatedInput Hparse.
        exists {| Route.userId := "playground";
                  Route.workflowExecutionId :=
                    "playground_" ++ Nodes.string_of_Z (clock (clockReads st));
                  Route.variables := [];
                  Route.services :=
                    Route.createServices
                      (if truthy (Route.credentials request)
                       then Route.credentials request
                       else VObj []) |}.
        split; [| split].
        3: { cbv zeta.
             unfold answer, Route.POST, tryCatch, Route.POST_try, bind at 1,
               await, ret.
             cbv beta iota; rewrite Hnode, Hmock, Hparse.
             unfold bind, Route.DateNow.
             match goal with
             | |- context [Route.executor node validatedInput ?c ?s] =>
                 destruct (Route.executor node validatedInput c s)
                   as [[result | e |] st1]
             end; reflexivity. }
        all: reflexivity.
Qed.

(** The theorem at the sample registry: in mock mode the input is not
    looked at; otherwise an input that is not an object is refused, and a
    valid one reaches the executor, whose context has no forumScout service
    because the handler looks for the key forumscout; a node type that
    cannot be converted to a string is answered with 500. *)
Lemma route_runs_the_executor_on_valid_input_only_witness :
  Route.POST RouteSamples.getDefinition RouteSamples.ToString "" RouteSamples.clock
    (inr (RouteSamples.request true VNull)) start
  = (Resolved
       (Route.mkNextResponse
          (VObj [("success", VBool true); ("output", VObj [("done", VBool true)])])
          200), start)
  /\ Route.POST RouteSamples.getDefinition RouteSamples.ToString ""
       RouteSamples.clock (inr (RouteSamples.request false VNull)) start
     = (Resolved
          (Route.mkNextResponse (Route.failure "Invalid input: Expected object") 400),
        start)
  /\ Route.POST RouteSamples.getDefinition RouteSamples.ToString ""
       RouteSamples.clock (inr RouteSamples.unnamed) start
     = (Resolved
          (Route.mkNextResponse
             (Route.failure "Cannot convert object to primitive value") 500),
        start)
  /\ exists result,
       Route.POST RouteSamples.getDefinition RouteSamples.ToString ""
         RouteSamples.clock (inr (RouteSamples.request false (VObj []))) start
       = (Resolved (Route.mkNextResponse result 200), mkSt 0 1 0) /\
       get_prop result "output"
       = inr (VObj [("apollo", VUndefined); ("forumScout", VUndefined);
                    ("twitter", VUndefined); ("openai", VUndefined);
                    ("anthropic", VUndefined); ("dataForSeo", VUndefined)]).
Proof.
  destruct (route_runs_the_executor_on_valid_input_only
              RouteSamples.getDefinition RouteSamples.ToString ""
              RouteSamples.clock (RouteSamples.request true VNull) start)
    as [_ Hknown].
  destruct (Hknown RouteSamples.echo eq_refl) as [Hmock _].
  destruct (Hmock eq_refl) as [_ Hkey].
  split.
  { apply (Hkey "echo" eq_refl).
    unfold inheritedNames; simpl; intuition discriminate. }
  split; [reflexivity |].
  split; [reflexivity |].
  eexists; split; reflexivity.
Defined.

(* ================================================================== *)
(** ** Listing the nodes by category *)
(* ================================================================== *)

Lemma lookup_assign_same (acc : Listing.Groups) key nodes :
  Listing.lookup (Listing.assign acc key nodes) key = Some nodes.
Proof.
  induction acc as [| [k old] acc IH]; simpl.
  - now rewrite String.eqb_refl.
  - destruct (String.eqb k key) eqn:E; simpl; rewrite E; [reflexivity | exact IH].
Qed.

Lemma lookup_assign_other (acc : Listing.Groups) key nodes other :
  key <> other ->
  Listing.lookup (Listing.assign acc key nodes) other = Listing.lookup acc other.
Proof.
  intro Hne; induction acc as [| [k old] acc IH]; simpl.
  - destruct (String.eqb_spec key other); [contradiction | reflexivity].
  - destruct (String.eqb_spec k key) as [-> | Hk]; simpl.
    + destruct (String.eqb_spec key other); [contradiction | reflexivity].
    + destruct (String.eqb k other); [reflexivity | exact IH].
Qed.

(** A round of the grouping appends the node to the group of its category
    and leaves the other groups alone. *)
Lemma group_lookup (acc : Listing.Groups) node wanted :
  Listing.lookup (Listing.group acc node) wanted
  = if String.eqb (Listing.category node) wanted
    then Some (match Listing.lookup acc wanted with
               | Some nodes => nodes
               | None => []
               end ++ [node])%list
    else Listing.lookup acc wanted.
Proof.
  unfold Listing.group; cbv zeta.
  destruct (String.eqb_spec (Listing.category node) wanted) as [<- | Hne].
  - destruct (Listing.lookup acc (Listing.category node)) as [nodes |] eqn:E.
    + rewrite E, lookup_assign_same; reflexivity.
    + rewrite !lookup_assign_same; reflexivity.
  - destruct (Listing.lookup acc (Listing.category node)) as [nodes |] eqn:E.
    + rewrite E; apply lookup_assign_other, Hne.
    + rewrite lookup_assign_same, !lookup_assign_other by exact Hne.
      reflexivity.
Qed.

Lemma groups_lookup nodes wanted :
  forall acc,
    Listing.lookup (fold_left Listing.group nodes acc) wanted
    = match Listing.lookup acc wanted, Listing.ofCategory wanted nodes with
      | Some before, found => Some (before ++ found)%list
      | None, [] => None
      | None, found => Some found
      end.
Proof.
  induction nodes as [| node nodes IH]; intro acc; simpl.
  - destruct (Listing.lookup acc wanted); [rewrite app_nil_r |]; reflexivity.
  - rewrite IH, group_lookup.
    destruct (String.eqb (Listing.category node) wanted).
    + destruct (Listing.lookup acc wanted) as [before |]; simpl;
        [rewrite <- app_assoc |]; reflexivity.
    + reflexivity.
Qed.

(** The sections are those of the four categories that have nodes. *)
Lemma sections_spec (nodes : list Listing.NodeMetadata) :
  Listing.sections nodes
  = flat_map
      (fun category =>
         match Listing.ofCategory category nodes with
         | [] => []
         | found => [(category, found)]
         end)
      Listing.categories.
Proof.
  unfold Listing.sections; cbv zeta.
  apply flat_map_ext; intro wanted.
  rewrite groups_lookup; simpl.
  destruct (Listing.ofCategory wanted nodes); reflexivity.
Qed.

(** X26: for nodes whose category is one of logic, transform, integration
    and action (the type NodeCategory), the listing by category (of the list
    command and of the sidebar) shows, for each of the four categories in
    this order, the nodes of that category in the order they were given, and
    no section for a category without nodes; every node is shown, and only
    the nodes given are. *)
Theorem sections_list_each_category :
  forall (nodes : list Listing.NodeMetadata),
    Listing.typed nodes ->
    Listing.sections nodes
    = flat_map
        (fun category =>
           match Listing.ofCategory category nodes with
           | [] => []
           | found => [(category, found)]
           end)
        Listing.categories /\
    (forall node,
       In node (List.concat (map snd (Listing.sections nodes))) <->
       In node nodes).
Proof.
  intros nodes Htyped.
  pose proof (sections_spec nodes) as Hsections.
  split; [exact Hsections |].
  intro node; rewrite Hsections; clear Hsections.
  assert (Hcategory : In node nodes ->
                      In (Listing.category node) Listing.categories).
  { intro Hin; unfold Listing.typed in Htyped.
    rewrite Forall_forall in Htyped; apply Htyped, Hin. }
  revert Hcategory.
  unfold Listing.categories; cbn [flat_map].
  assert (Hone : forall wanted,
             In node (List.concat (map snd
                        match Listing.ofCategory wanted nodes with
                        | [] => []
                        | found => [(wanted, found)]
                        end))
             <-> In node nodes /\ Listing.category node = wanted).
  { intro wanted.
    assert (Hin : In node (Listing.ofCategory wanted nodes)
                  <-> In node nodes /\ Listing.category node = wanted).
    { unfold Listing.ofCategory; rewrite filter_In, String.eqb_eq; reflexivity. }
    destruct (Listing.ofCategory wanted nodes) as [| first more];
      [| simpl; rewrite app_nil_r]; exact Hin. }
  rewrite !map_app, !List.concat_app, !in_app_iff, !Hone; simpl.
  intuition (subst; auto).
Qed.

(** The theorem at three nodes of two categories. *)
Lemma sections_list_each_category_witness :
  Listing.sections
    [Listing.mkMetadata "http_request" "HTTP Request" "Call an API" "integration";
     Listing.mkMetadata "conditional" "Conditional" "Branch on a condition" "logic";
     Listing.mkMetadata "end" "End" "Stop the workflow" "logic"]
  = [("logic",
      [Listing.mkMetadata "conditional" "Conditional" "Branch on a condition" "logic";
       Listing.mkMetadata "end" "End" "Stop the workflow" "logic"]);
     ("integration",
      [Listing.mkMetadata "http_request" "HTTP Request" "Call an API"
         "integration"])].
Proof.
  destruct (sections_list_each_category
              [Listing.mkMetadata "http_request" "HTTP Request" "Call an API"
                 "integration";
               Listing.mkMetadata "conditional" "Conditional"
                 "Branch on a condition" "logic";
               Listing.mkMetadata "end" "End" "Stop the workflow" "logic"])
    as [Hsections _].
  - unfold Listing.typed.
    repeat (apply Forall_cons; [simpl; intuition reflexivity |]).
    apply Forall_nil.
  - rewrite Hsections; reflexivity.
Defined.

Lemma lower_char_idempotent (c : ascii) : lower_char (lower_char c) = lower_char c.
Proof.
  destruct c as [[] [] [] [] [] [] [] []]; reflexivity.
Qed.

Lemma toLowerCase_idempotent (s : string) :
  toLowerCase (toLowerCase s) = toLowerCase s.
Proof.
  induction s as [| c s IH]; simpl; [reflexivity |].
  rewrite lower_char_idempotent, IH; reflexivity.
Qed.

Lemma toLowerCase_empty (s : string) : String.eqb (toLowerCase s) "" = String.eqb s "".
Proof. destruct s; reflexivity. Qed.

(** X27: the sidebar's filter. Without a search text and with the category
    filter 'all' every node is kept; without a search text and with a
    category, exactly the nodes of that category are kept; the search does
    not depend on the case of the search text; and the nodes that are kept
    are kept in their order, so that every section of the sidebar lists
    kept nodes only. *)
Theorem sidebar_filter :
  forall (search categoryFilter : string) (nodes : list Listing.NodeMetadata),
    Listing.filteredNodes "" "all" nodes = nodes /\
    (categoryFilter <> "all" ->
     Listing.filteredNodes "" categoryFilter nodes
     = Listing.ofCategory categoryFilter nodes) /\
    Listing.filteredNodes (toLowerCase search) categoryFilter nodes
    = Listing.filteredNodes search categoryFilter nodes /\
    Subseq (Listing.filteredNodes search categoryFilter nodes) nodes.
Proof.
  intros search categoryFilter nodes.
  split; [| split; [| split]].
  - unfold Listing.filteredNodes; cbv zeta.
    induction nodes as [| node nodes IH]; simpl; [reflexivity |].
    f_equal; exact IH.
  - intro Hfilter; unfold Listing.filteredNodes, Listing.ofCategory; cbv zeta.
    apply filter_ext; intro node.
    destruct (String.eqb_spec categoryFilter "all"); [contradiction |].
    reflexivity.
  - unfold Listing.filteredNodes; cbv zeta.
    apply filter_ext; intro node.
    rewrite toLowerCase_idempotent, toLowerCase_empty; reflexivity.
  - unfold Listing.filteredNodes; cbv zeta.
    induction nodes as [| node nodes IH]; simpl; [constructor |].
    match goal with
    | |- context [if ?b then _ else _] => destruct b
    end; [apply Subseq_take | apply Subseq_skip]; exact IH.
Qed.

(** The theorem at a sidebar with a category chosen and nothing searched. *)
Lemma sidebar_filter_witness :
  Listing.filteredNodes "" "logic"
    [Listing.mkMetadata "conditional" "Conditional" "Branch on a condition" "logic";
     Listing.mkMetadata "http_request" "HTTP Request" "Call an API" "integration"]
  = [Listing.mkMetadata "conditional" "Conditional" "Branch on a condition" "logic"].
Proof.
  destruct (sidebar_filter "" "logic"
              [Listing.mkMetadata "conditional" "Conditional"
                 "Branch on a condition" "logic";
               Listing.mkMetadata "http_request" "HTTP Request" "Call an API"
                 "integration"]) as [_ [H _]].
  rewrite H; [reflexivity | discriminate].
Defined.

(* ================================================================== *)
(** ** Video generation *)
(* ================================================================== *)

Section SoraFacts.

Variable numberToString : Q -> string.
Variable W : Sora.World.

(** A status request makes one request, whatever comes of it, and its
    promise settles. *)
Lemma getSoraVideoStatus_state apiKey videoId st :
  snd (Sora.getSoraVideoStatus W apiKey videoId st)
  = mkSt (S (fetches st)) (clockReads st) (slept st) /\
  fst (Sora.getSoraVideoStatus W apiKey videoId st) <> Pending.
Proof.
  unfold Sora.getSoraVideoStatus, bind, Nodes.fetchWithRetry.
  destruct (Sora.videoStatus W (fetches st) apiKey videoId) as [e | response];
    [split; [reflexivity | discriminate] |].
  destruct (Nodes.ok response); simpl.
  - destruct (Nodes.json response); split; try reflexivity; discriminate.
  - destruct (Nodes.text response); split; try reflexivity; discriminate.
Qed.

Lemma createSoraVideo_state apiKey params st :
  snd (Sora.createSoraVideo numberToString W apiKey params st)
  = mkSt (S (fetches st)) (clockReads st) (slept st) /\
  fst (Sora.createSoraVideo numberToString W apiKey params st) <> Pending.
Proof.
  unfold Sora.createSoraVideo, bind, Nodes.fetchWithRetry.
  destruct (Sora.videoCreate W (fetches st) apiKey _ _ _ _) as [e | response];
    [split; [reflexivity | discriminate] |].
  destruct (Nodes.ok response); simpl.
  - destruct (Nodes.json response); split; try reflexivity; discriminate.
  - destruct (Nodes.text response); split; try reflexivity; discriminate.
Qed.

(** One round of the loop, from its check of the clock. *)
Lemma poll_round rounds apiKey videoId startTime maxWaitMs st :
  Sora.poll W rounds apiKey videoId startTime maxWaitMs st
  = if (Sora.clock W (clockReads st) - startTime <? maxWaitMs)%Z then
      match rounds with
      | O => (Pending, mkSt (fetches st) (S (clockReads st)) (slept st))
      | S rounds' =>
          match Sora.getSoraVideoStatus W apiKey videoId
                  (mkSt (fetches st) (S (clockReads st)) (slept st)) with
          | (Resolved response, st1) =>
              if Sora.statusIs response "completed" then (Resolved response, st1)
              else if Sora.statusIs response "failed" then
                (Rejected
                   (JsError
                      (orS (match Sora.error response with
                            | Some e => Sora.message e
                            | None => None
                            end) "Video generation failed")), st1)
              else
                Sora.poll W rounds' apiKey videoId startTime maxWaitMs
                  (mkSt (fetches st1) (clockReads st1) (slept st1 + 5000))
          | (Rejected e, st1) => (Rejected e, st1)
          | (Pending, st1) => (Pending, st1)
          end
      end
    else (Rejected (JsError "Video generation timed out"),
          mkSt (fetches st) (S (clockReads st)) (slept st)).
Proof.
  destruct rounds as [| rounds']; simpl; unfold bind at 1, Sora.DateNow;
    destruct (Sora.clock W (clockReads st) - startTime <? maxWaitMs)%Z;
    try reflexivity.
  unfold bind at 1.
  destruct (Sora.getSoraVideoStatus W apiKey videoId _) as [[response | e |] st1];
    try reflexivity.
  destruct (Sora.statusIs response "completed"); [reflexivity |].
  destruct (Sora.statusIs response "failed"); reflexivity.
Qed.

(** The loop ends when the clock passes the deadline within the rounds the
    model follows. *)
Lemma poll_ends apiKey videoId startTime maxWaitMs :
  forall polls rounds st,
    (maxWaitMs <= Sora.clock W (clockReads st + polls) - startTime)%Z ->
    (polls <= rounds)%nat ->
    fst (Sora.poll W rounds apiKey videoId startTime maxWaitMs st) <> Pending.
Proof.
  induction polls as [| polls IH]; intros rounds st Hdeadline Hrounds;
    rewrite poll_round.
  - rewrite Nat.add_0_r in Hdeadline.
    destruct (Z.ltb_spec (Sora.clock W (clockReads st) - startTime) maxWaitMs);
      [lia | discriminate].
  - destruct (Sora.clock W (clockReads st) - startTime <? maxWaitMs)%Z;
      [| discriminate].
    destruct rounds as [| rounds']; [lia |].
    destruct (getSoraVideoStatus_state apiKey videoId
                (mkSt (fetches st) (S (clockReads st)) (slept st)))
      as [Hstate Hsettled].
    destruct (Sora.getSoraVideoStatus W apiKey videoId _)
      as [[response | e |] st1]; simpl in *;
      [| discriminate | contradiction].
    destruct (Sora.statusIs response "completed"); [discriminate |].
    destruct (Sora.statusIs response "failed"); [discriminate |].
    apply IH; [| lia].
    subst st1; simpl.
    replace (S (clockReads st + polls)) with (clockReads st + S polls)%nat
      by lia.
    exact Hdeadline.
Qed.

(** What a wait that resolves went through: [polls] rounds, each with one
    request, a pause after each but the last, whose answer was 'completed'
    and whose check of the clock was before the deadline. *)
Lemma poll_resolved apiKey videoId startTime maxWaitMs :
  forall rounds st response st',
    Sora.poll W rounds apiKey videoId startTime maxWaitMs st
    = (Resolved response, st') ->
    exists polls,
      (1 <= polls <= rounds)%nat /\
      consumed st st' polls polls (5000 * (Z.of_nat polls - 1)) /\
      Sora.statusIs response "completed" = true /\
      (Sora.clock W (clockReads st' - 1) - startTime < maxWaitMs)%Z.
Proof.
  induction rounds as [| rounds IH]; intros st response st'; rewrite poll_round.
  - destruct (_ <? _)%Z; discriminate.
  - destruct (Z.ltb_spec (Sora.clock W (clockReads st) - startTime) maxWaitMs)
      as [Hbefore | _]; [| discriminate].
    destruct (getSoraVideoStatus_state apiKey videoId
                (mkSt (fetches st) (S (clockReads st)) (slept st)))
      as [Hstate _].
    destruct (Sora.getSoraVideoStatus W apiKey videoId _)
      as [[answer | e |] st1]; simpl in Hstate; try discriminate.
    subst st1.
    destruct (Sora.statusIs answer "completed") eqn:Edone.
    + intro H; inversion H; subst; clear H.
      exists 1%nat; unfold consumed; simpl.
      rewrite Nat.sub_0_r.
      repeat split; try lia; assumption.
    + destruct (Sora.statusIs answer "failed"); [discriminate |].
      intro H; apply IH in H.
      destruct H as [polls [Hpolls [[Hf [Hc Hs]] [Hdone Hlast]]]].
      cbn [fetches clockReads slept] in Hf, Hc, Hs.
      exists (S polls); unfold consumed.
      repeat split; try lia; assumption.
Qed.

End SoraFacts.

(** X28: no exception crosses the executor of sora_video, and its wait
    ends: the promise never rejects; and when the clock passes the deadline
    of the wait (300000 ms after the wait began) with some check of the
    polling loop, the promise resolves to a Result, the model following at
    least that many rounds of the loop. *)
Theorem sora_ends_in_a_result :
  forall (numberToString : Q -> string) (W : Sora.World) rounds input context st,
    (forall e st',
       Sora.soraVideoNode_executor numberToString W rounds input context st
       <> (Rejected e, st')) /\
    (forall polls,
       Sora.deadlinePasses W st polls -> (polls <= rounds)%nat ->
       exists result st',
         Sora.soraVideoNode_executor numberToString W rounds input context st
         = (Resolved result, st')).
Proof.
  intros numberToString W rounds input context st; split.
  - intros e st'; unfold Sora.soraVideoNode_executor, tryCatch.
    destruct (Sora.soraVideoNode_try numberToString W rounds input context st)
      as [[result | e0 |] st0]; discriminate.
  - intros polls Hdeadline Hrounds.
    assert (Hsettled :
              fst (Sora.soraVideoNode_try numberToString W rounds input context st)
              <> Pending).
    { unfold Sora.soraVideoNode_try.
      destruct (Nodes.nonEmpty (Sora.openaiKey context)) as [apiKey |];
        [| discriminate].
      unfold bind at 1, Sora.DateNow at 1; unfold bind at 1.
      match goal with
      | |- context [Sora.createSoraVideo numberToString W apiKey ?p ?s] =>
          destruct (createSoraVideo_state numberToString W apiKey p s)
            as [Hstate Hcreated];
          destruct (Sora.createSoraVideo numberToString W apiKey p s)
            as [[createResponse | e |] st1]; simpl in Hstate, Hcreated;
            [| discriminate | contradiction]
      end.
      subst st1.
      unfold bind at 1, Sora.waitForVideoCompletion, bind at 1, Sora.DateNow at 1.
      match goal with
      | |- context [Sora.poll W rounds apiKey ?v ?t ?m ?s] =>
          pose proof (poll_ends W apiKey v t m polls rounds s) as Hpoll;
          destruct (Sora.poll W rounds apiKey v t m s)
            as [[completedVideo | e |] st2]
      end; simpl in *.
      - unfold bind, Sora.DateNow.
        destruct (Nodes.nonEmpty _); discriminate.
      - discriminate.
      - exfalso; apply Hpoll; [| exact Hrounds | reflexivity].
        unfold Sora.deadlinePasses in Hdeadline.
        replace (S (S (clockReads st + polls)))
          with (clockReads st + 2 + polls)%nat by lia.
        replace (S (clockReads st)) with (clockReads st + 1)%nat by lia.
        exact Hdeadline. }
    unfold Sora.soraVideoNode_executor, tryCatch.
    destruct (Sora.soraVideoNode_try numberToString W rounds input context st)
      as [[result | e |] st0]; simpl in Hsettled.
    + exists result, st0; reflexivity.
    + eexists; eexists; reflexivity.
    + contradiction.
Qed.

(** The theorem at the sample world, whose clock advances by a second with
    every reading: 299 checks of the loop reach the deadline. *)
Lemma sora_ends_in_a_result_witness :
  exists result st',
    Sora.soraVideoNode_executor (fun _ => "8") SoraSamples.world 299
      SoraSamples.input SoraSamples.context start
    = (Resolved result, st').
Proof.
  destruct (sora_ends_in_a_result (fun _ => "8") SoraSamples.world 299
              SoraSamples.input SoraSamples.context start) as [_ H].
  apply (H 299%nat); [unfold Sora.deadlinePasses; simpl; lia | lia].
Defined.

(** X29: when sora_video succeeds, it has made one creation request and
    then one status request per round of the polling loop, of which there
    was at least one; it has paused 5000 ms after every round but the last;
    the last round began before the deadline of 300000 ms; the video has a
    URL that is not empty, and the duration, size and model of the input
    (4 seconds, 1280x720 and sora-2 when they are missing); and the
    processing time is the time between the first and the last reading of
    the clock, in seconds, rounded. *)
Theorem sora_success :
  forall (numberToString : Q -> string) (W : Sora.World) rounds input context
         st out st',
    Sora.soraVideoNode_executor numberToString W rounds input context st
    = (Resolved (Nodes.Success out), st') ->
    exists polls,
      (1 <= polls <= rounds)%nat /\
      consumed st st' (1 + polls) (3 + polls) (5000 * (Z.of_nat polls - 1)) /\
      (Sora.clock W (clockReads st + 1 + polls) - Sora.clock W (clockReads st + 1)
       < 300000)%Z /\
      Sora.video_url (Sora.video out) <> "" /\
      Sora.durationSeconds (Sora.video out) = Social.orQ (Sora.seconds input) 4 /\
      Sora.video_size (Sora.video out) = orS (Sora.size input) "1280x720" /\
      Sora.video_model (Sora.video out) = orS (Sora.model input) "sora-2" /\
      Sora.processingTimeSeconds out
      = Nodes.round
          (inject_Z (Sora.clock W (clockReads st' - 1) - Sora.clock W (clockReads st))
           / 1000).
Proof.
  intros numberToString W rounds input context st out st'.
  unfold Sora.soraVideoNode_executor, tryCatch, Sora.soraVideoNode_try.
  destruct (Nodes.nonEmpty (Sora.openaiKey context)) as [apiKey |];
    [| discriminate].
  unfold bind at 1, Sora.DateNow at 1; unfold bind at 1.
  match goal with
  | |- context [Sora.createSoraVideo numberToString W apiKey ?p ?s] =>
      destruct (createSoraVideo_state numberToString W apiKey p s)
        as [Hstate _];
      destruct (Sora.createSoraVideo numberToString W apiKey p s)
        as [[createResponse | e |] st1]; simpl in Hstate; try discriminate
  end.
  subst st1.
  unfold bind at 1, Sora.waitForVideoCompletion, bind at 1, Sora.DateNow at 1.
  match goal with
  | |- context [Sora.poll W rounds apiKey ?v ?t ?m ?s] =>
      destruct (Sora.poll W rounds apiKey v t m s)
        as [[completedVideo | e |] st2] eqn:Epoll; try discriminate
  end.
  destruct (poll_resolved W _ _ _ _ _ _ _ _ Epoll)
    as [polls [Hpolls [[Hf [Hc Hs]] [_ Hlast]]]].
  cbn [fetches clockReads slept] in Hf, Hc, Hs, Hlast.
  unfold bind, Sora.DateNow.
  destruct (Nodes.nonEmpty _) as [videoUrl |] eqn:Eurl; [| discriminate].
  intro H; inversion H; subst; clear H.
  exists polls; cbn [Sora.video Sora.video_url Sora.durationSeconds
                       Sora.video_size Sora.video_model
                       Sora.processingTimeSeconds clockReads].
  split; [exact Hpolls |].
  split; [unfold consumed; cbn [fetches clockReads slept]; lia |].
  split.
  { replace (clockReads st + 1 + polls)%nat with (clockReads st2 - 1)%nat by lia.
    replace (clockReads st + 1)%nat with (S (clockReads st)) by lia.
    exact Hlast. }
  split; [eapply nonEmpty_Some; exact Eurl |].
  repeat split.
  replace (S (clockReads st2) - 1)%nat with (clockReads st2) by lia.
  reflexivity.
Qed.

(** The theorem at the sample run: the video is ready at the second poll,
    four seconds of clock after the start. *)
Lemma sora_success_witness :
  exists out polls,
    Sora.soraVideoNode_executor (fun _ => "8") SoraSamples.world 10
      SoraSamples.input SoraSamples.context start
    = (Resolved (Nodes.Success out), mkSt 3 5 5000) /\
    Sora.processingTimeSeconds out = 4%Z /\
    consumed start (mkSt 3 5 5000) (1 + polls) (3 + polls)
      (5000 * (Z.of_nat polls - 1)).
Proof.
  eexists.
  match goal with
  | |- exists polls, ?run = (Resolved (Nodes.Success ?o), ?s) /\ _ =>
      assert (Hrun : run = (Resolved (Nodes.Success o), s))
        by (vm_compute; reflexivity)
  end.
  destruct (sora_success _ _ _ _ _ _ _ _ Hrun) as [polls [_ [Hconsumed _]]].
  exists polls; split; [exact Hrun |].
  split; [reflexivity | exact Hconsumed].
Defined.



